(** * Device-flow token acquisition and credential exchange

    A shallow embedding of [get_copilot_token.py] and
    [get_enterprise_token.py]: the OAuth device-flow polling loop, the
    credential exchange, and the JSON document the scripts persist.

    Python values are modelled by the inductive [value]; Python [str] is a
    list of Unicode code points.  The scripts talk to the outside world
    (clock, network, file system, terminal); the model threads an explicit
    [world] and records every interaction in a trace of [event]s. *)

From Stdlib Require Import ZArith NArith List Bool Lia String Ascii.
Import ListNotations.
Open Scope Z_scope.
Set Warnings "-register-all".

(** ** Python strings *)

(** A Python [str]: a sequence of code points. *)
Definition pystr := list N.

(** An ASCII literal of the source as a [pystr]. *)
Definition str (s : string) : pystr :=
  map N_of_ascii (list_ascii_of_string s).

Fixpoint pystr_eqb (a b : pystr) : bool :=
  match a, b with
  | [], [] => true
  | x :: a', y :: b' => N.eqb x y && pystr_eqb a' b'
  | _, _ => false
  end.

(** [prefix_of p s]: [s.startswith(p)]. *)
Fixpoint prefix_of (p s : pystr) : bool :=
  match p, s with
  | [], _ => true
  | x :: p', y :: s' => N.eqb x y && prefix_of p' s'
  | _ :: _, [] => false
  end.

(** [substring p s]: the [str] case of [p in s]. *)
Fixpoint substring (p s : pystr) : bool :=
  prefix_of p s ||
  match s with
  | [] => false
  | _ :: s' => substring p s'
  end.

(** ** Python values, as [json.loads] builds them *)

(** A float is kept as the literal it was read from: the model does not
    compute with floats.  A [dict] keeps its insertion order, so it is an
    association list whose keys are pairwise distinct. *)
Inductive value :=
| VNone
| VBool (b : bool)
| VInt (n : Z)
| VFloat (literal : pystr)
| VStr (s : pystr)
| VList (l : list value)
| VDict (d : list (pystr * value)).

(** ** Exceptions and results *)

Inductive exn :=
| SystemExit (code : Z)          (* [sys.exit(code)] *)
| KeyError (key : pystr)
| TypeError
| AttributeError
| ValueError
| OverflowError
| EOFError
| JSONDecodeError
| UnicodeDecodeError
| UnicodeEncodeError
| OSError                        (* a file operation fails *)
| NetworkError.                  (* any exception of [http.client] or the socket layer *)

(** The outcome of running a piece of Python.  [Unmodelled] marks what the
    model leaves out: an operation whose outcome depends on the number a
    float stands for, and a loop cut off by its fuel (the loop of the script
    never is, see [poll_loop_fuel]). *)
Inductive result (A : Type) :=
| Return (a : A)
| Raise (e : exn)
| Unmodelled.
Arguments Return {A} a.
Arguments Raise {A} e.
Arguments Unmodelled {A}.

Definition dict := list (pystr * value).

(** [bool(v)]. *)
Definition truthy (v : value) : result bool :=
  match v with
  | VNone => Return false
  | VBool b => Return b
  | VInt n => Return (negb (n =? 0))
  | VFloat _ => Unmodelled
  | VStr s => Return (negb (match s with [] => true | _ => false end))
  | VList l => Return (negb (match l with [] => true | _ => false end))
  | VDict d => Return (negb (match d with [] => true | _ => false end))
  end.

(** [v == s] for a [str] literal [s]: only a [str] equals a [str]. *)
Definition eq_str (v : value) (s : pystr) : bool :=
  match v with
  | VStr s' => pystr_eqb s' s
  | _ => false
  end.

Fixpoint lookup (k : pystr) (d : dict) : option value :=
  match d with
  | [] => None
  | (k', v) :: d' => if pystr_eqb k k' then Some v else lookup k d'
  end.

(** [d[k] = v] on a dict: an existing key keeps its place. *)
Fixpoint dict_set (k : pystr) (v : value) (d : dict) : dict :=
  match d with
  | [] => [(k, v)]
  | (k', v') :: d' =>
      if pystr_eqb k k' then (k', v) :: d' else (k', v') :: dict_set k v d'
  end.

(** [k in v] for a [str] key [k]. *)
Definition py_in (k : pystr) (v : value) : result bool :=
  match v with
  | VDict d => Return (match lookup k d with Some _ => true | None => false end)
  | VList l => Return (existsb (fun x => eq_str x k) l)
  | VStr s => Return (substring k s)
  | VNone | VBool _ | VInt _ | VFloat _ => Raise TypeError
  end.

(** [v[k]] for a [str] key [k]. *)
Definition getitem (v : value) (k : pystr) : result value :=
  match v with
  | VDict d => match lookup k d with
               | Some x => Return x
               | None => Raise (KeyError k)
               end
  | _ => Raise TypeError
  end.

(** [v.get(k, default)]. *)
Definition py_get (v : value) (k : pystr) (default : value) : result value :=
  match v with
  | VDict d => Return (match lookup k d with Some x => x | None => default end)
  | _ => Raise AttributeError
  end.

(** A number where Python wants one: ints, and bools as [0]/[1]; anything
    that is not a number raises [TypeError]. *)
Definition as_number (v : value) : result Z :=
  match v with
  | VInt n => Return n
  | VBool b => Return (if b then 1 else 0)
  | VFloat _ => Unmodelled
  | _ => Raise TypeError
  end.

(** No float anywhere in [v]. *)
Fixpoint float_free (v : value) : bool :=
  match v with
  | VFloat _ => false
  | VList l => forallb float_free l
  | VDict d => forallb (fun kv => float_free (snd kv)) d
  | _ => true
  end.

(** [v[:n]]: a [str] or a list is cut; anything else raises ([TypeError];
    for a dict, [KeyError] from Python 3.12 on, which the model does not
    tell apart). *)
Definition slice_to (n : nat) (v : value) : result value :=
  match v with
  | VStr s => Return (VStr (firstn n s))
  | VList l => Return (VList (firstn n l))
  | _ => Raise TypeError
  end.

(** ** The [json] module

    [json.dumps] and [json.loads] with the default settings the scripts use
    ([ensure_ascii], separators [", "] and [": "], strict strings).  The
    interpreter's resource limits (recursion depth, digits of an int) are
    not modelled, and neither is the [repr] of a float. *)

Module Json.

Local Open Scope N_scope.

(** *** Encoding *)

Definition hex_digit (d : N) : N := if d <? 10 then 48 + d else 87 + d.

(** ['{0:04x}'.format(n)] for [n < 0x10000]. *)
Definition hex4 (n : N) : pystr :=
  [hex_digit (n / 4096 mod 16); hex_digit (n / 256 mod 16);
   hex_digit (n / 16 mod 16); hex_digit (n mod 16)].

Definition u_escape (n : N) : pystr := 92 :: 117 :: hex4 n.

(** The replacement of one character by [encode_basestring_ascii]. *)
Definition escape_char (c : N) : pystr :=
  if c =? 34 then [92; 34]            (* double quote: backslash, quote *)
  else if c =? 92 then [92; 92]       (* backslash: two backslashes *)
  else if c =? 10 then [92; 110]      (* newline: backslash n *)
  else if c =? 13 then [92; 114]      (* carriage return: backslash r *)
  else if c =? 9 then [92; 116]       (* tab: backslash t *)
  else if c =? 12 then [92; 102]      (* form feed: backslash f *)
  else if c =? 8 then [92; 98]        (* backspace: backslash b *)
  else if (32 <=? c) && (c <=? 126) then [c]
  else if c <? 0x10000 then u_escape c
  else
    let n := c - 0x10000 in
    u_escape (N.lor 0xd800 (N.land (N.shiftr n 10) 0x3ff))
      ++ u_escape (N.lor 0xdc00 (N.land n 0x3ff)).

Definition encode_basestring_ascii (s : pystr) : pystr :=
  34 :: flat_map escape_char s ++ [34].

(** The decimal digits of [n], most significant first, in front of [acc]. *)
Fixpoint digits_from (fuel : nat) (n : N) (acc : pystr) : pystr :=
  let acc' := (48 + n mod 10) :: acc in
  match fuel with
  | O => acc'
  | S f => if n <? 10 then acc' else digits_from f (n / 10) acc'
  end.

(** [int.__repr__]. *)
Definition repr_int (z : Z) : pystr :=
  let n := Z.abs_N z in
  let ds := digits_from (N.to_nat (N.log2 n)) n [] in
  if (z <? 0)%Z then 45 :: ds else ds.

(** [sep.join(parts)]. *)
Fixpoint join (sep : pystr) (parts : list pystr) : pystr :=
  match parts with
  | [] => []
  | [p] => p
  | p :: ps => p ++ sep ++ join sep ps
  end.

(** [json.dumps(v)] for a [v] that is [float_free]; [json.dump(v, f)] writes
    the same text to [f].  For a float its literal stands in for its
    [repr]. *)
Fixpoint dumps (v : value) : pystr :=
  match v with
  | VNone => str "null"
  | VFloat literal => literal
  | VBool true => str "true"
  | VBool false => str "false"
  | VInt n => repr_int n
  | VStr s => encode_basestring_ascii s
  | VList l => 91 :: join (str ", ") (map dumps l) ++ [93]
  | VDict d =>
      123 :: join (str ", ")
               (map (fun kv => encode_basestring_ascii (fst kv)
                                 ++ str ": " ++ dumps (snd kv)) d)
        ++ [125]
  end.

(** *** Decoding *)

(** The outcome of scanning a JSON term at the head of a text. *)
Inductive parse (A : Type) :=
| Parsed (a : A) (rest : pystr)
| Malformed.                     (* [JSONDecodeError] *)
Arguments Parsed {A} a rest.
Arguments Malformed {A}.

Definition is_ws (c : N) : bool :=
  (c =? 32) || (c =? 9) || (c =? 10) || (c =? 13).

Fixpoint skip_ws (s : pystr) : pystr :=
  match s with
  | c :: s' => if is_ws c then skip_ws s' else s
  | [] => []
  end.

Definition is_digit (c : N) : bool := (48 <=? c) && (c <=? 57).

Definition hex_val (c : N) : option N :=
  if (48 <=? c) && (c <=? 57) then Some (c - 48)
  else if (97 <=? c) && (c <=? 102) then Some (c - 87)
  else if (65 <=? c) && (c <=? 70) then Some (c - 55)
  else None.

(** Four hex digits, shifted in one after the other. *)
Definition decode_hex4 (h1 h2 h3 h4 : N) : option N :=
  match hex_val h1, hex_val h2, hex_val h3, hex_val h4 with
  | Some a, Some b, Some c, Some d =>
      Some (N.lor (N.shiftl (N.lor (N.shiftl (N.lor (N.shiftl a 4) b) 4) c) 4) d)
  | _, _, _, _ => None
  end.

Definition is_high_surrogate (c : N) : bool := (0xd800 <=? c) && (c <=? 0xdbff).
Definition is_low_surrogate (c : N) : bool := (0xdc00 <=? c) && (c <=? 0xdfff).

Definition join_surrogates (hi lo : N) : N :=
  0x10000 + N.lor (N.shiftl (N.land hi 0x3ff) 10) (N.land lo 0x3ff).

(** The character a one-letter escape stands for. *)
Definition simple_escape (e : N) : option N :=
  if e =? 34 then Some 34
  else if e =? 92 then Some 92
  else if e =? 47 then Some 47
  else if e =? 98 then Some 8
  else if e =? 102 then Some 12
  else if e =? 110 then Some 10
  else if e =? 114 then Some 13
  else if e =? 116 then Some 9
  else None.

(** [scanstring] in strict mode, entered after the opening quote: the
    decoded string and the text after the closing quote.  A high surrogate
    escape directly followed by a low surrogate escape is joined into one
    code point. *)
Fixpoint scanstring (s : pystr) : option (pystr * pystr) :=
  let cons c r :=
    match r with
    | Some (t, rest) => Some (c :: t, rest)
    | None => None
    end in
  match s with
  | [] => None
  | c :: s1 =>
    if c =? 34 then Some ([], s1)
    else if c =? 92 then
      match s1 with
      | [] => None
      | e :: s2 =>
        if e =? 117 then
          match s2 with
          | h1 :: h2 :: h3 :: h4 :: s3 =>
            match s3 with
            | [] => None
            | _ :: _ =>
              match decode_hex4 h1 h2 h3 h4 with
              | None => None
              | Some u =>
                match s3 with
                | b :: u' :: g1 :: g2 :: g3 :: g4 :: s4 =>
                  match s4 with
                  | _ :: _ =>
                    if is_high_surrogate u && (b =? 92) && (u' =? 117) then
                      match decode_hex4 g1 g2 g3 g4 with
                      | None => None
                      | Some u2 =>
                        if is_low_surrogate u2
                        then cons (join_surrogates u u2) (scanstring s4)
                        else cons u (scanstring s3)
                      end
                    else cons u (scanstring s3)
                  | [] => cons u (scanstring s3)
                  end
                | _ => cons u (scanstring s3)
                end
              end
            end
          | _ => None
          end
        else
          match simple_escape e with
          | Some c' => cons c' (scanstring s2)
          | None => None
          end
      end
    else if c <=? 31 then None
    else cons c (scanstring s1)
  end.

Fixpoint scan_digits (acc : N) (s : pystr) : N * pystr :=
  match s with
  | c :: s' => if is_digit c then scan_digits (10 * acc + (c - 48)) s' else (acc, s)
  | [] => (acc, [])
  end.

Fixpoint take_digits (s : pystr) : pystr * pystr :=
  match s with
  | c :: s' =>
      if is_digit c then let r := take_digits s' in (c :: fst r, snd r)
      else ([], s)
  | [] => ([], [])
  end.

(** The fraction at the head of [s], if any: a point and at least one
    digit. *)
Definition take_fraction (s : pystr) : pystr * pystr :=
  match s with
  | c :: d :: s' =>
      if (c =? 46) && is_digit d then
        let r := take_digits (d :: s') in (c :: fst r, snd r)
      else ([], s)
  | _ => ([], s)
  end.

(** The exponent at the head of [s], if any: [e] or [E], a sign that is not
    the last character, and at least one digit. *)
Definition take_exponent (s : pystr) : pystr * pystr :=
  match s with
  | c :: s1 =>
      if (c =? 101) || (c =? 69) then
        let signed :=
          match s1 with
          | d :: d' :: s2 =>
              if (d =? 45) || (d =? 43) then ([d], d' :: s2) else ([], s1)
          | _ => ([], s1)
          end in
        let r := take_digits (snd signed) in
        match fst r with
        | [] => ([], s)
        | _ :: _ => (c :: fst signed ++ fst r, snd r)
        end
      else ([], s)
  | [] => ([], s)
  end.

(** The number at the head of [s]: an optional minus sign, then either a
    single [0] or a digit [1]-[9] and all the digits after it; an int unless
    a fraction or an exponent follows, and then the float of the whole
    literal. *)
Definition match_number (s : pystr) : parse value :=
  let finish (neg : bool) (n : N) (rest : pystr) : parse value :=
    let fraction := take_fraction rest in
    let exponent := take_exponent (snd fraction) in
    match fst fraction, fst exponent with
    | [], [] => Parsed (VInt (if neg then (- Z.of_N n)%Z else Z.of_N n)) rest
    | _, _ =>
        Parsed (VFloat (firstn (List.length s - List.length (snd exponent)) s))
               (snd exponent)
    end in
  let signed :=
    match s with
    | c :: s' => if c =? 45 then (true, s') else (false, s)
    | [] => (false, s)
    end in
  match snd signed with
  | [] => Malformed
  | c :: s2 =>
      if c =? 48 then finish (fst signed) 0 s2
      else if is_digit c then
        let r := scan_digits 0 (snd signed) in finish (fst signed) (fst r) (snd r)
      else Malformed
  end.

(** [scan_once]: one JSON term at the head of [s].  [fuel] bounds the depth
    of the calls; the length of the text is always enough
    ([scan_once_fuel]). *)
Fixpoint scan_once (fuel : nat) (s : pystr) : parse value :=
  match fuel with
  | O => Malformed
  | S f =>
    match s with
    | [] => Malformed
    | c :: s' =>
      if c =? 34 then
        match scanstring s' with
        | Some (t, rest) => Parsed (VStr t) rest
        | None => Malformed
        end
      else if c =? 123 then
        match skip_ws s' with
        | c' :: s'' =>
            if c' =? 125 then Parsed (VDict []) s''
            else
              match parse_members f [] (c' :: s'') with
              | Parsed d rest => Parsed (VDict d) rest
              | Malformed => Malformed
              end
        | [] => Malformed
        end
      else if c =? 91 then
        match skip_ws s' with
        | c' :: s'' =>
            if c' =? 93 then Parsed (VList []) s''
            else
              match parse_items f [] (c' :: s'') with
              | Parsed l rest => Parsed (VList l) rest
              | Malformed => Malformed
              end
        | [] => Malformed
        end
      else if prefix_of (str "null") s then Parsed VNone (skipn 4 s)
      else if prefix_of (str "true") s then Parsed (VBool true) (skipn 4 s)
      else if prefix_of (str "false") s then Parsed (VBool false) (skipn 5 s)
      else if prefix_of (str "NaN") s then
        Parsed (VFloat (str "NaN")) (skipn 3 s)
      else if prefix_of (str "Infinity") s then
        Parsed (VFloat (str "Infinity")) (skipn 8 s)
      else if prefix_of (str "-Infinity") s then
        Parsed (VFloat (str "-Infinity")) (skipn 9 s)
      else match_number s
    end
  end

(** The members of an object, from a key on; [acc] holds the members read
    so far.  A repeated key overwrites the value and keeps its place. *)
with parse_members (fuel : nat) (acc : dict) (s : pystr) : parse dict :=
  match fuel with
  | O => Malformed
  | S f =>
    match s with
    | c :: s1 =>
      if c =? 34 then
        match scanstring s1 with
        | None => Malformed
        | Some (key, s2) =>
          match skip_ws s2 with
          | c2 :: s3 =>
            if c2 =? 58 then
              match scan_once f (skip_ws s3) with
              | Parsed v s4 =>
                let acc' := dict_set key v acc in
                match skip_ws s4 with
                | c4 :: s5 =>
                    if c4 =? 125 then Parsed acc' s5
                    else if c4 =? 44 then parse_members f acc' (skip_ws s5)
                    else Malformed
                | [] => Malformed
                end
              | Malformed => Malformed
              end
            else Malformed
          | [] => Malformed
          end
        end
      else Malformed
    | [] => Malformed
    end
  end

(** The items of an array, from an item on. *)
with parse_items (fuel : nat) (acc : list value) (s : pystr) : parse (list value) :=
  match fuel with
  | O => Malformed
  | S f =>
    match scan_once f s with
    | Parsed v s1 =>
      let acc' := acc ++ [v] in
      match skip_ws s1 with
      | c :: s2 =>
          if c =? 93 then Parsed acc' s2
          else if c =? 44 then parse_items f acc' (skip_ws s2)
          else Malformed
      | [] => Malformed
      end
    | Malformed => Malformed
    end
  end.

(** The result of [json.loads]. *)
Inductive loaded :=
| Loaded (v : value)
| DecodeError.                   (* [JSONDecodeError] *)

(** [json.loads(s)]: a byte order mark is refused, white space may surround
    the term, nothing else may follow it. *)
Definition loads (s : pystr) : loaded :=
  if prefix_of [0xfeff] s then DecodeError
  else
    match scan_once (S (List.length s)) (skip_ws s) with
    | Parsed v rest =>
        match skip_ws rest with
        | [] => Loaded v
        | _ :: _ => DecodeError
        end
    | Malformed => DecodeError
    end.

End Json.

(** ** The outside world *)

(** An f-string of the source: its literal pieces and the values it
    interpolates. *)
Inductive piece :=
| Lit (s : pystr)
| Interp (v : value).

Definition fstring := list piece.

(** What [conn.request(method, path, body, headers)] puts on the wire. *)
Record request := {
  host : pystr;
  path : pystr;
  method : pystr;
  headers : list (pystr * fstring);
  body : option value          (* the body is the [json.dumps] text of it *)
}.

(** What comes back for one request. *)
Inductive http_reply :=
| ConnectionFails                (* the connection or the read raises *)
| BadEncoding                    (* the body is not UTF-8: [decode] raises *)
| Body (data : pystr).           (* the decoded body *)

(** One scripted round trip: how long the sleep before it overran, how long
    the request took, and what came back. *)
Record answer := {
  overslept : Z;
  latency : Z;
  reply : http_reply
}.

Inductive script := Copilot | Enterprise.

(** A line on the terminal: the [print] at line [lineno] of [src], with the
    values its text interpolates. *)
Inductive line :=
| Line (src : script) (lineno : N) (args : list value)
| ErrLine (src : script) (lineno : N) (e : exn).

Inductive file := GithubTokenFile | CopilotTokenFile.

Inductive fs_op :=
| OpMakedirs
| OpOpen (f : file)
| OpWrite (f : file).

(** The run of [gh auth token]. *)
Inductive gh_run :=
| GhRaises                       (* not installed, timed out, ... *)
| GhExits (returncode : Z) (stdout : pystr).

Inductive event :=
| Print (l : line)
| Sleep (secs : Z)
| Send (at_time : Z) (r : request)
| Makedirs
| Open (f : file)
| Write (f : file) (text : pystr)
| RunGh
| Input.

Definition trace := list event.

(** The world a script runs in.  Time is counted in whole ticks of the
    clock.  [net] scripts the answers to the requests still to come; once it
    is used up the network is down and every request fails. *)
Record world := {
  now : Z;                           (* what [time.time()] reads *)
  net : list answer;
  localtime_ok : Z -> bool;          (* timestamps [time.localtime] accepts *)
  fs_ok : fs_op -> bool;             (* file operations that succeed *)
  environ_token : option pystr;      (* [GITHUB_TOKEN] *)
  gh : gh_run;
  stdin : option pystr               (* the line [input] reads, if any *)
}.

Definition set_clock_net (w : world) (t : Z) (n : list answer) : world :=
  {| now := t; net := n; localtime_ok := localtime_ok w; fs_ok := fs_ok w;
     environ_token := environ_token w; gh := gh w; stdin := stdin w |}.

(** ** A monad for the scripts: state, trace and exceptions *)

Definition M (A : Type) : Type := world -> trace * result (A * world).

Definition ret {A} (a : A) : M A := fun w => ([], Return (a, w)).

Definition bind {A B} (m : M A) (f : A -> M B) : M B :=
  fun w =>
    match m w with
    | (t1, Return (a, w1)) =>
        match f a w1 with
        | (t2, r) => (t1 ++ t2, r)
        end
    | (t1, Raise e) => (t1, Raise e)
    | (t1, Unmodelled) => (t1, Unmodelled)
    end.

Notation "x <- m ;; k" := (bind m (fun x => k))
  (at level 61, m at next level, right associativity).
Notation "m ;; k" := (bind m (fun _ => k))
  (at level 61, right associativity).

Definition raise {A} (e : exn) : M A := fun _ => ([], Raise e).

Definition lift {A} (r : result A) : M A :=
  fun w =>
    match r with
    | Return a => ([], Return (a, w))
    | Raise e => ([], Raise e)
    | Unmodelled => ([], Unmodelled)
    end.

Definition emit (e : event) : M unit := fun w => ([e], Return (tt, w)).

Definition print (l : line) : M unit := emit (Print l).

Fixpoint prints (src : script) (linenos : list N) : M unit :=
  match linenos with
  | [] => ret tt
  | n :: ns => print (Line src n []) ;; prints src ns
  end.

(** [try: body except Exception as e: handler(e)]: [SystemExit] is not an
    [Exception] and passes through.  The bodies the scripts guard touch
    neither the clock nor the network, so the handler starts from the world
    the body started from. *)
Definition try_except {A} (body : M A) (handler : exn -> M A) : M A :=
  fun w =>
    match body w with
    | (t1, Raise (SystemExit c)) => (t1, Raise (SystemExit c))
    | (t1, Raise e) =>
        match handler e w with
        | (t2, r) => (t1 ++ t2, r)
        end
    | r => r
    end.

(** [sys.exit(code)]. *)
Definition sys_exit {A} (code : Z) : M A := raise (SystemExit code).

(** ** Library calls *)

(** [time.time()]. *)
Definition time_time : M Z := fun w => ([], Return (now w, w)).

(** The longest sleep, in seconds: [time.sleep] counts in nanoseconds, in
    64 bits. *)
Definition max_sleep : Z := 9223372036.

(** [time.sleep(secs)]: a length that does not fit raises [OverflowError],
    a negative one [ValueError]; the sleep lasts [secs] and however long the
    script says it overruns. *)
Definition time_sleep (secs : value) : M unit :=
  fun w =>
    match as_number secs with
    | Return i =>
        if (i <? - max_sleep) || (max_sleep <? i) then ([], Raise OverflowError)
        else if i <? 0 then ([], Raise ValueError)
        else
          let over := match net w with a :: _ => overslept a | [] => 0 end in
          ([Sleep i], Return (tt, set_clock_net w (now w + i + over) (net w)))
    | Raise e => ([], Raise e)
    | Unmodelled => ([], Unmodelled)
    end.

(** [x < v] for a number [x]. *)
Definition lt_number (x : Z) (v : value) : result bool :=
  match as_number v with
  | Return n => Return (x <? n)
  | Raise e => Raise e
  | Unmodelled => Unmodelled
  end.

(** [time.localtime(v)]: [None] stands for the current time. *)
Definition time_localtime (v : value) : M unit :=
  fun w =>
    match v with
    | VNone => ([], Return (tt, w))
    | _ =>
        match as_number v with
        | Return n => if localtime_ok w n then ([], Return (tt, w))
                      else ([], Raise OverflowError)
        | Raise e => ([], Raise e)
        | Unmodelled => ([], Unmodelled)
        end
    end.

(** A file operation: it happens, or raises [OSError]. *)
Definition fs_do (op : fs_op) (e : event) : M unit :=
  fun w => if fs_ok w op then ([e], Return (tt, w)) else ([], Raise OSError).

(** [f.write(v)]: only a [str] can be written to a text file. *)
Definition file_write (f : file) (v : value) : M unit :=
  match v with
  | VStr s => fs_do (OpWrite f) (Write f s)
  | _ => raise TypeError
  end.

(** [json.dump(v, f)]; what is written for a float is outside the model. *)
Definition json_dump (f : file) (v : value) : M unit :=
  if float_free v then fs_do (OpWrite f) (Write f (Json.dumps v))
  else lift Unmodelled.

(** [str(v)], the text an f-string puts for [v], for the values whose text
    the model has. *)
Definition format (v : value) : option pystr :=
  match v with
  | VStr s => Some s
  | VNone => Some (str "None")
  | VBool true => Some (str "True")
  | VBool false => Some (str "False")
  | VInt n => Some (Json.repr_int n)
  | VFloat _ | VList _ | VDict _ => None
  end.

(** The text of an f-string. *)
Fixpoint render (f : fstring) : option pystr :=
  match f with
  | [] => Some []
  | Lit s :: f' =>
      match render f' with
      | Some r => Some (s ++ r)
      | None => None
      end
  | Interp v :: f' =>
      match format v, render f' with
      | Some s, Some r => Some (s ++ r)
      | _, _ => None
      end
  end.

(** What [http.client] refuses in a header value: a line feed that no space
    or tab follows, or a carriage return that no space, tab or line feed
    follows. *)
Fixpoint illegal_header_value (s : pystr) : bool :=
  match s with
  | [] => false
  | c :: s' =>
      (if (c =? 10)%N then
         match s' with
         | d :: _ => negb ((d =? 32) || (d =? 9))%N
         | [] => true
         end
       else if (c =? 13)%N then
         match s' with
         | d :: _ => negb ((d =? 32) || (d =? 9) || (d =? 10))%N
         | [] => true
         end
       else false)
      || illegal_header_value s'
  end.

(** [conn.putheader(name, value)] for the header names of the scripts: the
    value is encoded as Latin-1 and then checked. *)
Definition putheader (value : fstring) : result unit :=
  match render value with
  | Some s =>
      if forallb (fun c => c <=? 0xff)%N s then
        if illegal_header_value s then Raise ValueError else Return tt
      else Raise UnicodeEncodeError
  | None => Unmodelled
  end.

(** The headers of a request, in their order. *)
Fixpoint putheaders (hs : list (pystr * fstring)) : result unit :=
  match hs with
  | [] => Return tt
  | (_, value) :: hs' =>
      match putheader value with
      | Return _ => putheaders hs'
      | Raise e => Raise e
      | Unmodelled => Unmodelled
      end
  end.

(** [conn.request(method, path, body, headers)], [conn.getresponse()] and
    [response.read().decode()]: the decoded body, unless one of them
    raises.  A header [http.client] refuses raises before anything is
    sent. *)
Definition https (req : request) : M pystr :=
  fun w =>
    match putheaders (headers req) with
    | Return _ =>
        match net w with
        | [] => ([Send (now w) req], Raise NetworkError)
        | a :: rest =>
            ([Send (now w) req],
             match reply a with
             | ConnectionFails => Raise NetworkError
             | BadEncoding => Raise UnicodeDecodeError
             | Body data =>
                 Return (data, set_clock_net w (now w + latency a) rest)
             end)
        end
    | Raise e => ([], Raise e)
    | Unmodelled => ([], Unmodelled)
    end.

(** [json.loads(data)]. *)
Definition json_loads (data : pystr) : result value :=
  match Json.loads data with
  | Json.Loaded v => Return v
  | Json.DecodeError => Raise JSONDecodeError
  end.

Definition is_space (c : N) : bool :=
  ((9 <=? c) && (c <=? 13) || (28 <=? c) && (c <=? 32) || (c =? 0x85)
   || (c =? 0xa0) || (c =? 0x1680) || (0x2000 <=? c) && (c <=? 0x200a)
   || (c =? 0x2028) || (c =? 0x2029) || (c =? 0x202f) || (c =? 0x205f)
   || (c =? 0x3000))%N.

Fixpoint lstrip (s : pystr) : pystr :=
  match s with
  | c :: s' => if is_space c then lstrip s' else s
  | [] => []
  end.

(** [s.strip()]. *)
Definition strip (s : pystr) : pystr := rev (lstrip (rev (lstrip s))).

(** ** What both scripts share *)

(** The exchanged token and its expiry, as [main] holds them in
    [copilot_token] and [expires_at]. *)
Record SecondaryToken := {
  token : value;
  expiresAt : value
}.

(** [if "token" in copilot_data:] and the two assignments under it (lines
    145-147 of [get_copilot_token.py], 98-100 of [get_enterprise_token.py]);
    [None] when the test fails and the [else] branch is taken. *)
Definition secondary_token (copilot_data : value) : result (option SecondaryToken) :=
  match py_in (str "token") copilot_data with
  | Return true =>
      match getitem copilot_data (str "token") with
      | Return copilot_token =>
          match py_get copilot_data (str "expires_at") (VInt 0) with
          | Return expires_at =>
              Return (Some {| token := copilot_token; expiresAt := expires_at |})
          | Raise e => Raise e
          | Unmodelled => Unmodelled
          end
      | Raise e => Raise e
      | Unmodelled => Unmodelled
      end
  | Return false => Return None
  | Raise e => Raise e
  | Unmodelled => Unmodelled
  end.

(** The dict [json.dump] writes to [copilot-token.json] (lines 191 and 127). *)
Definition persisted (t : SecondaryToken) : value :=
  VDict [(str "token", token t); (str "expiresAt", expiresAt t)].

(** ** [get_copilot_token.py] *)

Module GetCopilotToken.

Definition CLIENT_ID : pystr := str "Iv1.b507a08c87ecfe98".
Definition SCOPES : pystr := str "read:user".

Definition default_headers : list (pystr * fstring) :=
  [(str "Content-Type", [Lit (str "application/json")]);
   (str "Accept", [Lit (str "application/json")])].

(** [make_request(host, path, data=None, headers=None, method="POST")]. *)
Definition make_request (host path : pystr) (data : option value)
    (headers : option (list (pystr * fstring))) (method : pystr) : M value :=
  let headers :=
    match headers with
    | None => default_headers
    | Some h => h
    end in
  sent <- lift (match data with
                | Some d => truthy d
                | None => Return false
                end) ;;
  data <- https {| host := host; path := path; method := method;
                   headers := headers;
                   body := if sent : bool then data else None |} ;;
  lift (match data with
        | [] => Return (VDict [])
        | _ :: _ => json_loads data
        end).

Definition start_device_flow : M value :=
  prints Copilot [48; 49]%N ;;
  data <- make_request (str "github.com") (str "/login/device/code")
            (Some (VDict [(str "client_id", VStr CLIENT_ID);
                          (str "scope", VStr SCOPES)]))
            None (str "POST") ;;
  has_error <- lift (py_in (str "error") data) ;;
  if has_error : bool then
    print (Line Copilot 58 [data]) ;;
    sys_exit 1
  else ret data.

Definition poll_for_token (device_code : value) : M value :=
  make_request (str "github.com") (str "/login/oauth/access_token")
    (Some (VDict [(str "client_id", VStr CLIENT_ID);
                  (str "device_code", device_code);
                  (str "grant_type",
                   VStr (str "urn:ietf:params:oauth:grant-type:device_code"))]))
    None (str "POST").

Definition get_copilot_token (github_token : value) : M value :=
  make_request (str "api.github.com") (str "/copilot_internal/v2/token")
    None
    (Some [(str "Authorization", [Lit (str "token "); Interp github_token]);
           (str "Accept", [Lit (str "application/json")]);
           (str "Content-Type", [Lit (str "application/json")]);
           (str "User-Agent", [Lit (str "GitHubCopilotChat/0.26.7")]);
           (str "Editor-Version", [Lit (str "vscode/1.85.1")])])
    (str "POST").

(** The [while] loop of [main] (lines 118-132); its value is what
    [github_token] holds when the loop is left, [None] when no token was
    assigned.  [fuel] bounds the number of iterations. *)
Fixpoint poll_loop (fuel : nat) (device_code interval expires_in : value)
    (start_time : Z) : M value :=
  match fuel with
  | O => lift Unmodelled
  | S f =>
    t <- time_time ;;
    running <- lift (lt_number (t - start_time) expires_in) ;;
    if running : bool then
      time_sleep interval ;;
      result <- poll_for_token device_code ;;
      has_token <- lift (py_in (str "access_token") result) ;;
      if has_token : bool then
        github_token <- lift (getitem result (str "access_token")) ;;
        print (Line Copilot 125 []) ;;
        ret github_token
      else
        error <- lift (py_get result (str "error") VNone) ;;
        if eq_str error (str "authorization_pending") then
          print (Line Copilot 128 []) ;;
          poll_loop f device_code interval expires_in start_time
        else
          fatal <- lift (truthy error) ;;
          if fatal : bool then
            print (Line Copilot 130 []) ;;
            fallback <- lift (getitem result (str "error")) ;;
            description <- lift (py_get result (str "error_description") fallback) ;;
            print (Line Copilot 131 [description]) ;;
            sys_exit 1
          else poll_loop f device_code interval expires_in start_time
    else ret VNone
  end.

(** The loop as [main] runs it: every iteration but the last uses up one
    scripted answer, so this fuel is never exhausted. *)
Definition poll_until (device_code interval expires_in : value)
    (start_time : Z) : M value :=
  fun w =>
    poll_loop (S (List.length (net w))) device_code interval expires_in
      start_time w.

(** Lines 134-137: no token, no exchange. *)
Definition require_token (github_token : value) : M unit :=
  usable <- lift (truthy github_token) ;;
  if usable : bool then ret tt
  else
    prints Copilot [135; 136]%N ;;
    sys_exit 1.

(** Lines 180-196. *)
Definition save_tokens (github_token : value) (t : SecondaryToken) : M unit :=
  try_except
    (fs_do OpMakedirs Makedirs ;;
     fs_do (OpOpen GithubTokenFile) (Open GithubTokenFile) ;;
     file_write GithubTokenFile github_token ;;
     fs_do (OpOpen CopilotTokenFile) (Open CopilotTokenFile) ;;
     json_dump CopilotTokenFile (persisted t) ;;
     print (Line Copilot 194 []))
    (fun e => print (ErrLine Copilot 196 e)).

(** Lines 143-202: the exchange and what [main] does with its response. *)
Definition exchange (github_token : value) : M unit :=
  copilot_data <- get_copilot_token github_token ;;
  received <- lift (secondary_token copilot_data) ;;
  match received with
  | Some t =>
    prints Copilot [149; 150; 151; 152; 153; 154; 155]%N ;;
    print (Line Copilot 156 [github_token]) ;;
    prints Copilot [157; 158]%N ;;
    print (Line Copilot 159 [token t]) ;;
    prints Copilot [160]%N ;;
    time_localtime (expiresAt t) ;;
    print (Line Copilot 161 [expiresAt t]) ;;
    prints Copilot [162; 163; 164; 165; 166; 167; 168; 169]%N ;;
    prefix <- lift (slice_to 10 github_token) ;;
    print (Line Copilot 170 [prefix]) ;;
    prints Copilot [171; 172; 173; 174; 175; 176]%N ;;
    save_tokens github_token t
  | None =>
    print (Line Copilot 199 [copilot_data]) ;;
    prints Copilot [200; 201]%N ;;
    print (Line Copilot 202 [github_token])
  end.

Definition main : M unit :=
  prints Copilot [95; 96; 97; 98]%N ;;
  device_data <- start_device_flow ;;
  verification_uri <- lift (getitem device_data (str "verification_uri")) ;;
  print (Line Copilot 103 [verification_uri]) ;;
  user_code <- lift (getitem device_data (str "user_code")) ;;
  print (Line Copilot 104 [user_code]) ;;
  prints Copilot [105; 106]%N ;;
  shown <- lift (py_get device_data (str "expires_in") (VInt 900)) ;;
  print (Line Copilot 107 [shown]) ;;
  prints Copilot [108]%N ;;
  device_code <- lift (getitem device_data (str "device_code")) ;;
  interval <- lift (py_get device_data (str "interval") (VInt 5)) ;;
  expires_in <- lift (py_get device_data (str "expires_in") (VInt 900)) ;;
  start_time <- time_time ;;
  github_token <- poll_until device_code interval expires_in start_time ;;
  require_token github_token ;;
  prints Copilot [139; 142]%N ;;
  exchange github_token.

End GetCopilotToken.

(** ** [get_enterprise_token.py] *)

Module GetEnterpriseToken.

(** [get_gh_token()]: the output of [gh auth token], or [None]. *)
Definition get_gh_token : M (option pystr) :=
  fun w =>
    ([RunGh],
     Return (match gh w with
             | GhExits returncode stdout =>
                 if returncode =? 0 then Some (strip stdout) else None
             | GhRaises => None
             end, w)).

(** [get_copilot_token(github_token)]: the request is sent and its answer
    read in place, without [make_request]. *)
Definition get_copilot_token (github_token : value) : M value :=
  let headers :=
    [(str "Authorization", [Lit (str "token "); Interp github_token]);
     (str "Accept", [Lit (str "application/json")]);
     (str "Content-Type", [Lit (str "application/json")]);
     (str "User-Agent", [Lit (str "GitHubCopilotChat/0.26.7")]);
     (str "Editor-Version", [Lit (str "vscode/1.85.1")])] in
  data <- https {| host := str "api.github.com";
                   path := str "/copilot_internal/v2/token";
                   method := str "POST"; headers := headers; body := None |} ;;
  lift (match data with
        | [] => Return (VDict [])
        | _ :: _ => json_loads data
        end).

(** [input(prompt).strip()]. *)
Definition input_stripped : M pystr :=
  fun w =>
    match stdin w with
    | Some l => ([Input], Return (strip l, w))
    | None => ([Input], Raise EOFError)
    end.

Definition nonempty (s : option pystr) : bool :=
  match s with
  | Some (_ :: _) => true
  | _ => false
  end.

(** Lines 63-91: the token from the environment, from [gh], or typed in. *)
Definition find_token : M pystr :=
  from_env <- (fun w => ([], Return (environ_token w, w))) ;;
  found <- (if nonempty from_env then ret from_env
            else print (Line Enterprise 70 []) ;; get_gh_token) ;;
  match found with
  | Some (c :: s) =>
      print (Line Enterprise 74 [VStr (firstn 10 (c :: s))]) ;;
      ret (c :: s)
  | _ =>
      prints Enterprise [76; 77; 78; 79; 80; 81; 82; 83; 84; 85; 86]%N ;;
      typed <- input_stripped ;;
      match typed with
      | [] => print (Line Enterprise 90 []) ;; sys_exit 1
      | _ :: _ => ret typed
      end
  end.

(** [github_token[-4:] if len(github_token) > 14 else github_token]. *)
Definition tail_of (github_token : pystr) : pystr :=
  if (14 <? List.length github_token)%nat
  then skipn (List.length github_token - 4) github_token
  else github_token.

(** Lines 119-133. *)
Definition save_tokens (github_token : pystr) (t : SecondaryToken) : M unit :=
  try_except
    (fs_do OpMakedirs Makedirs ;;
     fs_do (OpOpen GithubTokenFile) (Open GithubTokenFile) ;;
     file_write GithubTokenFile (VStr github_token) ;;
     fs_do (OpOpen CopilotTokenFile) (Open CopilotTokenFile) ;;
     json_dump CopilotTokenFile (persisted t) ;;
     prints Enterprise [129; 130; 131]%N)
    (fun e => print (ErrLine Enterprise 133 e)).

(** Lines 96-142: the exchange and what [main] does with its response. *)
Definition exchange (github_token : pystr) : M unit :=
  copilot_data <- get_copilot_token (VStr github_token) ;;
  received <- lift (secondary_token copilot_data) ;;
  match received with
  | Some t =>
    prints Enterprise [103; 104; 105; 106; 107; 108; 109]%N ;;
    print (Line Enterprise 110 [VStr (firstn 10 github_token);
                                VStr (tail_of github_token)]) ;;
    prints Enterprise [111; 112]%N ;;
    shown <- lift (slice_to 20 (token t)) ;;
    print (Line Enterprise 113 [shown]) ;;
    prints Enterprise [114]%N ;;
    time_localtime (expiresAt t) ;;
    print (Line Enterprise 115 [expiresAt t]) ;;
    prints Enterprise [116]%N ;;
    save_tokens github_token t
  | None =>
    print (Line Enterprise 136 [copilot_data]) ;;
    prints Enterprise [137; 138; 139; 140; 141]%N ;;
    sys_exit 1
  end.

Definition main : M unit :=
  prints Enterprise [57; 58; 59; 60]%N ;;
  github_token <- find_token ;;
  prints Enterprise [93; 94]%N ;;
  exchange github_token.

End GetEnterpriseToken.

(** * Vocabulary of the properties *)

(** ** JSON texts and the values read from them *)

(** A [str] as [json.loads] builds them: code points in range, and no high
    surrogate directly followed by a low one (the two would have been joined
    into one code point). *)
Fixpoint str_ok (s : pystr) : bool :=
  match s with
  | [] => true
  | c :: s' =>
      (c <? 0x110000)%N
      && negb (Json.is_high_surrogate c
               && match s' with
                  | c' :: _ => Json.is_low_surrogate c'
                  | [] => false
                  end)
      && str_ok s'
  end.

Fixpoint distinct_keys (d : dict) : bool :=
  match d with
  | [] => true
  | (k, _) :: d' =>
      negb (existsb (fun kv => pystr_eqb k (fst kv)) d') && distinct_keys d'
  end.

(** A value as [json.loads] builds them: its strings are [str_ok] and the
    keys of each dict are pairwise distinct. *)
Fixpoint value_ok (v : value) : bool :=
  match v with
  | VNone | VBool _ | VInt _ | VFloat _ => true
  | VStr s => str_ok s
  | VList l => forallb value_ok l
  | VDict d =>
      forallb (fun kv => str_ok (fst kv) && value_ok (snd kv)) d
      && distinct_keys d
  end.

(** The depth of calls [scan_once] needs to read the text of [v]. *)
Fixpoint need (v : value) : nat :=
  match v with
  | VList l => S (fold_right (fun x n => S (Nat.max (need x) n)) O l)
  | VDict d => S (fold_right (fun kv n => S (Nat.max (need (snd kv)) n)) O d)
  | _ => 1
  end.

Definition is_surrogate (c : N) : bool :=
  Json.is_high_surrogate c || Json.is_low_surrogate c.

(** A [str] as [bytes.decode()] returns them: Unicode scalar values. *)
Definition decoded (s : pystr) : bool :=
  forallb (fun c => (c <? 0x110000)%N && negb (is_surrogate c)) s.

Section JsonTerms.
Import Json.
Local Open Scope N_scope.

(** The two halves [encode_basestring_ascii] writes for a code point above
    the basic plane. *)
Definition high_half (c : N) : N :=
  N.lor 0xd800 (N.land (N.shiftr (c - 0x10000) 10) 0x3ff).
Definition low_half (c : N) : N :=
  N.lor 0xdc00 (N.land (c - 0x10000) 0x3ff).

(** The escape, if any, that follows a [\u] escape and could hold the low
    half of a pair: its four digits and the text after it, which is not
    empty. *)
Definition second_escape (s : pystr) : option (N * N * N * N * pystr) :=
  match s with
  | b :: u :: t =>
      if (b =? 92) && (u =? 117) then
        match t with
        | g1 :: g2 :: g3 :: g4 :: x :: s4 => Some (g1, g2, g3, g4, x :: s4)
        | _ => None
        end
      else None
  | _ => None
  end.

Definition cons_char (c : N) (r : option (pystr * pystr)) : option (pystr * pystr) :=
  match r with
  | Some (t, rest) => Some (c :: t, rest)
  | None => None
  end.

(** The text that follows a high surrogate escape does not open with the
    escape of a low surrogate. *)
Definition no_low_next (tail : pystr) : Prop :=
  match second_escape tail with
  | Some (g1, g2, g3, g4, _) =>
      exists u2, decode_hex4 g1 g2 g3 g4 = Some u2 /\ is_low_surrogate u2 = false
  | None => True
  end.

(** What may follow a number in a text: nothing, or a character that
    neither goes on with the number nor turns it into a float. *)
Definition ends_number (rest : pystr) : bool :=
  match rest with
  | [] => true
  | c :: _ => negb (is_digit c) && negb (c =? 46) && negb (c =? 101) && negb (c =? 69)
  end.

(** Induction on values, with the hypothesis for every item of a list and
    every value of a dict. *)
Fixpoint value_induction (P : value -> Prop)
    (HNone : P VNone) (HBool : forall b, P (VBool b))
    (HInt : forall n, P (VInt n)) (HFloat : forall literal, P (VFloat literal))
    (HStr : forall s, P (VStr s))
    (HList : forall l, Forall P l -> P (VList l))
    (HDict : forall d, Forall (fun kv => P (snd kv)) d -> P (VDict d))
    (v : value) {struct v} : P v :=
  match v with
  | VNone => HNone
  | VBool b => HBool b
  | VInt n => HInt n
  | VFloat literal => HFloat literal
  | VStr s => HStr s
  | VList l =>
      HList l
        ((fix items (l : list value) : Forall P l :=
            match l with
            | [] => Forall_nil P
            | x :: l' =>
                Forall_cons x
                  (value_induction P HNone HBool HInt HFloat HStr HList HDict x)
                  (items l')
            end) l)
  | VDict d =>
      HDict d
        ((fix members (d : list (pystr * value))
            : Forall (fun kv => P (snd kv)) d :=
            match d with
            | [] => Forall_nil _
            | kv :: d' =>
                Forall_cons kv
                  (value_induction P HNone HBool HInt HFloat HStr HList HDict (snd kv))
                  (members d')
            end) d)
  end.

(** What a written value opens with: not white space, not a closing
    bracket, not a byte order mark. *)
Definition opens_value (c : N) : Prop :=
  is_ws c = false /\ c <> 93 /\ c <> 125 /\ c <> 0xfeff.

Definition items_text (l : list value) : pystr :=
  join (str ", ") (map dumps l).

Definition member_text (kv : pystr * value) : pystr :=
  encode_basestring_ascii (fst kv) ++ str ": " ++ dumps (snd kv).

Definition members_text (d : dict) : pystr :=
  join (str ", ") (map member_text d).

Definition need_items (l : list value) : nat :=
  fold_right (fun x n => S (Nat.max (need x) n)) O l.

Definition need_members (d : dict) : nat :=
  fold_right (fun kv n => S (Nat.max (need (snd kv)) n)) O d.

(** [v] reads back from its text, whatever follows. *)
Definition reads_back (v : value) : Prop :=
  forall f rest,
    (need v <= f)%nat -> ends_number rest = true ->
    scan_once f (dumps v ++ rest) = Parsed v rest.

(** The keys of [d] are not among those of [acc]. *)
Definition fresh_keys (acc d : dict) : bool :=
  forallb (fun kv => negb (existsb (fun kv' => pystr_eqb (fst kv) (fst kv')) acc)) d.

(** How a string was scanned, by what its text opens with. *)
Inductive scanned : pystr -> pystr -> pystr -> Prop :=
| scanned_end s1 : scanned (34 :: s1) [] s1
| scanned_raw c s1 t rest :
    c <> 34 -> c <> 92 -> 31 < c ->
    scanstring s1 = Some (t, rest) ->
    scanned (c :: s1) (c :: t) rest
| scanned_simple e c s2 t rest :
    e <> 117 -> simple_escape e = Some c ->
    scanstring s2 = Some (t, rest) ->
    scanned (92 :: e :: s2) (c :: t) rest
| scanned_single h1 h2 h3 h4 x s3 u t rest :
    decode_hex4 h1 h2 h3 h4 = Some u ->
    (is_high_surrogate u = true ->
     match second_escape (x :: s3) with
     | Some (g1, g2, g3, g4, _) =>
         exists u2, decode_hex4 g1 g2 g3 g4 = Some u2 /\ is_low_surrogate u2 = false
     | None => True
     end) ->
    scanstring (x :: s3) = Some (t, rest) ->
    scanned (92 :: 117 :: h1 :: h2 :: h3 :: h4 :: x :: s3) (u :: t) rest
| scanned_pair h1 h2 h3 h4 g1 g2 g3 g4 x s4 u u2 t rest :
    decode_hex4 h1 h2 h3 h4 = Some u -> is_high_surrogate u = true ->
    decode_hex4 g1 g2 g3 g4 = Some u2 -> is_low_surrogate u2 = true ->
    scanstring (x :: s4) = Some (t, rest) ->
    scanned (92 :: 117 :: h1 :: h2 :: h3 :: h4
               :: 92 :: 117 :: g1 :: g2 :: g3 :: g4 :: x :: s4)
            (join_surrogates u u2 :: t) rest.

(** The text opens with the escape of a low surrogate. *)
Definition opens_low (s : pystr) : Prop :=
  exists g1 g2 g3 g4 x s4 u,
    s = 92 :: 117 :: g1 :: g2 :: g3 :: g4 :: x :: s4 /\
    decode_hex4 g1 g2 g3 g4 = Some u /\ is_low_surrogate u = true.

(** What the three scanners build from a decoded text. *)
Definition scanners_ok (f : nat) : Prop :=
  (forall s v rest,
      scan_once f s = Parsed v rest -> decoded s = true ->
      value_ok v = true /\ decoded rest = true)
  /\ (forall acc s d rest,
         parse_members f acc s = Parsed d rest -> decoded s = true ->
         value_ok (VDict acc) = true ->
         value_ok (VDict d) = true /\ decoded rest = true)
  /\ (forall acc s l rest,
         parse_items f acc s = Parsed l rest -> decoded s = true ->
         value_ok (VList acc) = true ->
         value_ok (VList l) = true /\ decoded rest = true).

(** A scanner that reads a term with some fuel reads it with any fuel that
    is not less than the number of characters it takes. *)
Definition enough_fuel {A} (scan : nat -> pystr -> parse A) (f : nat) : Prop :=
  forall s a rest,
    scan f s = Parsed a rest ->
    (List.length rest < List.length s)%nat /\
    forall f', (List.length s - List.length rest <= f')%nat ->
               scan f' s = Parsed a rest.

End JsonTerms.

(** Modelled from the spec: the reader of [copilot-token.json], which is not
    among the sources.  It parses the JSON document and takes its [token]
    and [expiresAt] fields. *)
Definition read_persisted (text : pystr) : option SecondaryToken :=
  match Json.loads text with
  | Json.Loaded (VDict d) =>
      match lookup (str "token") d, lookup (str "expiresAt") d with
      | Some t, Some e => Some {| token := t; expiresAt := e |}
      | _, _ => None
      end
  | _ => None
  end.

(** ** Runs *)

(** [prefixed t x]: the run [x] after the events [t]. *)
Definition prefixed {A} (t : trace) (x : trace * result A) : trace * result A :=
  (t ++ fst x, snd x).

(** What [make_request] returns for a reply: [json.loads(data) if data else
    {}] on the decoded body. *)
Definition read_json (r : http_reply) : result value :=
  match r with
  | ConnectionFails => Raise NetworkError
  | BadEncoding => Raise UnicodeDecodeError
  | Body [] => Return (VDict [])
  | Body data => json_loads data
  end.

(** The world after the head of the script has been answered. *)
Definition answered (w : world) (a : answer) (rest : list answer) : world :=
  set_clock_net w (now w + latency a) rest.

Definition with_world {A} (r : result A) (w : world) : result (A * world) :=
  match r with
  | Return a => Return (a, w)
  | Raise e => Raise e
  | Unmodelled => Unmodelled
  end.

Section PollingTerms.
Import GetCopilotToken.

(** [if data] in [make_request]. *)
Definition given (data : option value) : result bool :=
  match data with
  | Some d => truthy d
  | None => Return false
  end.

(** [conn.request] takes the headers of [req]. *)
Definition sendable (req : request) : Prop :=
  putheaders (headers req) = Return tt.

(** The request of one poll. *)
Definition poll_request (device_code : value) : request :=
  {| host := str "github.com"; path := str "/login/oauth/access_token";
     method := str "POST"; headers := default_headers;
     body := Some
       (VDict [(str "client_id", VStr CLIENT_ID);
               (str "device_code", device_code);
               (str "grant_type",
                VStr (str "urn:ietf:params:oauth:grant-type:device_code"))]) |}.

(** The state of the loop at its head, about to run one more cycle: the
    deadline has not passed, the sleep is accepted, and [a] is the answer
    the poll will get. *)
Record cycle (interval expires_in : value) (start_time : Z) (w : world)
    (i : Z) (a : answer) (rest : list answer) : Prop := {
  cycle_deadline : exists e, as_number expires_in = Return e /\ now w - start_time < e;
  cycle_interval : as_number interval = Return i /\ 0 <= i <= max_sleep;
  cycle_net : net w = a :: rest
}.

(** The world after the cycle. *)
Definition after_cycle (w : world) (i : Z) (a : answer) (rest : list answer) : world :=
  set_clock_net w (now w + i + overslept a + latency a) rest.

(** The sleep and the poll of the cycle. *)
Definition cycle_events (device_code : value) (w : world) (i : Z) (a : answer) : trace :=
  [Sleep i; Send (now w + i + overslept a) (poll_request device_code)].

(** Lines 123-132 with the rest of the loop as [continue]. *)
Definition handle_result (continue : M value) (result : value) : M value :=
  has_token <- lift (py_in (str "access_token") result) ;;
  if has_token : bool then
    github_token <- lift (getitem result (str "access_token")) ;;
    print (Line Copilot 125 []) ;;
    ret github_token
  else
    error <- lift (py_get result (str "error") VNone) ;;
    if eq_str error (str "authorization_pending") then
      print (Line Copilot 128 []) ;;
      continue
    else
      fatal <- lift (truthy error) ;;
      if fatal : bool then
        print (Line Copilot 130 []) ;;
        fallback <- lift (getitem result (str "error")) ;;
        description <- lift (py_get result (str "error_description") fallback) ;;
        print (Line Copilot 131 [description]) ;;
        sys_exit 1
      else continue.

(** The run of the loop on answers that all say [authorization_pending]:
    every cycle is entered with the deadline ahead, and the poll is sent
    [interval] seconds or more after that check. *)
Inductive cycles (device_code : value) (start_time e i : Z)
    : Z -> list answer -> trace -> Prop :=
| cycles_stop t answers :
    e <= t - start_time ->
    cycles device_code start_time e i t answers []
| cycles_poll t a answers tr :
    t - start_time < e ->
    cycles device_code start_time e i
      (t + i + overslept a + latency a) answers tr ->
    cycles device_code start_time e i t (a :: answers)
      (Sleep i :: Send (t + i + overslept a) (poll_request device_code)
         :: Print (Line Copilot 128 []) :: tr).

(** An answer that takes no negative time and says
    [authorization_pending]. *)
Definition pending (a : answer) : Prop :=
  0 <= overslept a /\ 0 <= latency a /\
  exists d, read_json (reply a) = Return (VDict d) /\
            lookup (str "access_token") d = None /\
            lookup (str "error") d = Some (VStr (str "authorization_pending")).

(** The lines and the exit of a timeout (lines 135-137). *)
Definition timeout_exit : trace :=
  [Print (Line Copilot 135 []); Print (Line Copilot 136 [])].

End PollingTerms.

(** The request [start_device_flow] sends. *)
Definition device_code_request : request :=
  {| host := str "github.com"; path := str "/login/device/code";
     method := str "POST"; headers := GetCopilotToken.default_headers;
     body := Some
       (VDict [(str "client_id", VStr GetCopilotToken.CLIENT_ID);
               (str "scope", VStr GetCopilotToken.SCOPES)]) |}.

(** The request both scripts send for the exchange. *)
Definition exchange_request (github_token : value) : request :=
  {| host := str "api.github.com"; path := str "/copilot_internal/v2/token";
     method := str "POST";
     headers :=
       [(str "Authorization", [Lit (str "token "); Interp github_token]);
        (str "Accept", [Lit (str "application/json")]);
        (str "Content-Type", [Lit (str "application/json")]);
        (str "User-Agent", [Lit (str "GitHubCopilotChat/0.26.7")]);
        (str "Editor-Version", [Lit (str "vscode/1.85.1")])];
     body := None |}.

(** ** Runs of the rest of the scripts *)

(** The lines [ns] of [src], printed in this order; they interpolate
    nothing. *)
Definition lines (src : script) (ns : list N) : trace :=
  map (fun n => Print (Line src n [])) ns.

(** The requests of a run, in the order they were sent. *)
Definition requests (tr : trace) : list request :=
  flat_map (fun e => match e with Send _ r => [r] | _ => [] end) tr.

(** Nothing but white space. *)
Definition blank (s : pystr) : bool := forallb is_space s.

(** A [str] that neither starts nor ends with white space, and is not
    empty. *)
Definition trimmed (s : pystr) : bool :=
  match s, rev s with
  | c :: _, c' :: _ => negb (is_space c) && negb (is_space c')
  | _, _ => false
  end.

(** [gh] gives no token: it cannot be run, it fails, or it prints nothing
    but white space. *)
Definition gh_unusable (g : gh_run) : Prop :=
  match g with
  | GhRaises => True
  | GhExits returncode stdout => returncode <> 0 \/ blank stdout = true
  end.

(** The lines that ask for a token (lines 76-86) and the prompt of
    [input]. *)
Definition asks_for_token : trace :=
  map (fun n => Print (Line Enterprise n []))
      [76; 77; 78; 79; 80; 81; 82; 83; 84; 85; 86]%N ++ [Input].



(** A value [time.localtime] takes in this world: [None], or a number it
    can convert. *)
Definition timestamp_ok (w : world) (v : value) : Prop :=
  v = VNone \/ exists n, as_number v = Return n /\ localtime_ok w n = true.

(** A value [time.localtime] raises [TypeError] for: neither [None] nor a
    number. *)
Definition not_a_timestamp (v : value) : Prop :=
  v <> VNone /\ as_number v = Raise TypeError.

(** What [get_copilot_token.py] prints of the tokens (lines 149-160): both
    in full. *)
Definition copilot_shows_tokens (github_token : pystr) (t : SecondaryToken)
    : trace :=
  lines Copilot [149; 150; 151; 152; 153; 154; 155]%N ++
  Print (Line Copilot 156 [VStr github_token]) ::
  lines Copilot [157; 158]%N ++
  Print (Line Copilot 159 [token t]) ::
  lines Copilot [160]%N.

(** The expiry and the usage notes (lines 161-176). *)
Definition copilot_shows_usage (github_token : pystr) (t : SecondaryToken)
    : trace :=
  Print (Line Copilot 161 [expiresAt t]) ::
  lines Copilot [162; 163; 164; 165; 166; 167; 168; 169]%N ++
  Print (Line Copilot 170 [VStr (firstn 10 github_token)]) ::
  lines Copilot [171; 172; 173; 174; 175; 176]%N.

(** What [get_enterprise_token.py] prints of the GitHub token (lines
    103-112): its first ten characters and its [tail_of]. *)
Definition enterprise_shows_github (github_token : pystr) : trace :=
  lines Enterprise [103; 104; 105; 106; 107; 108; 109]%N ++
  Print (Line Enterprise 110
           [VStr (firstn 10 github_token);
            VStr (GetEnterpriseToken.tail_of github_token)]) ::
  lines Enterprise [111; 112]%N.

(** And of the Copilot token (lines 113-114): its first twenty
    characters. *)
Definition enterprise_shows_copilot (copilot_token : pystr) : trace :=
  Print (Line Enterprise 113 [VStr (firstn 20 copilot_token)]) ::
  lines Enterprise [114]%N.

(** [time.sleep] raises [x] for this interval: it does not fit, it is
    negative, or it is not a number. *)
Definition sleep_rejected (interval : value) (x : exn) : Prop :=
  (exists i, as_number interval = Return i
             /\ ((i < - max_sleep \/ max_sleep < i) /\ x = OverflowError
                 \/ (- max_sleep <= i < 0 /\ x = ValueError)))
  \/ as_number interval = Raise x.

(** A trace of the loop: dots and messages, and polls for [device_code],
    each straight after a sleep. *)
Inductive paced (device_code : value) : trace -> Prop :=
| paced_done : paced device_code []
| paced_line l tr :
    paced device_code tr -> paced device_code (Print l :: tr)
| paced_cycle i t tr :
    0 <= i ->
    paced device_code tr ->
    paced device_code (Sleep i :: Send t (poll_request device_code) :: tr).


(** The banner, the device code request and the instructions (lines 95-108)
    for a device code response with the fields [main] reads. *)
Definition device_flow_opening (w : world) (verification_uri user_code
    expires_in : value) : trace :=
  lines Copilot [95; 96; 97; 98; 48; 49]%N ++
  Send (now w) device_code_request ::
  Print (Line Copilot 103 [verification_uri]) ::
  Print (Line Copilot 104 [user_code]) ::
  lines Copilot [105; 106]%N ++
  Print (Line Copilot 107 [expires_in]) ::
  lines Copilot [108]%N.

(** A computation that sends nothing. *)
Definition silent {A} (m : M A) : Prop :=
  forall w, requests (fst (m w)) = [].

(** ** Sample worlds *)

(** A world at time [0] where nothing fails and [answers] are scripted. *)
Definition quiet (answers : list answer) : world :=
  {| now := 0; net := answers; localtime_ok := fun _ => true;
     fs_ok := fun _ => true; environ_token := None; gh := GhRaises;
     stdin := None |}.

(** An immediate answer whose body is the JSON text of [v]. *)
Definition says (v : value) : answer :=
  {| overslept := 0; latency := 0; reply := Body (Json.dumps v) |}.

Definition sample_code : value := VStr (str "sample_device_code").

Definition says_pending : answer :=
  says (VDict [(str "error", VStr (str "authorization_pending"))]).

Definition says_token : answer :=
  says (VDict [(str "access_token", VStr (str "gho_sample_token"));
               (str "token_type", VStr (str "bearer"))]).

(** A JSON text written with ['] where JSON has the double quote. *)
Definition json_text (s : string) : pystr :=
  map (fun c => if (c =? 39)%N then 34%N else c) (str s).

Definition says_text (s : string) : answer :=
  {| overslept := 0; latency := 0; reply := Body (json_text s) |}.

Definition says_denied : answer :=
  says (VDict [(str "error", VStr (str "access_denied"));
               (str "error_description",
                VStr (str "The authorization request was denied."))]).

Definition says_garbage : answer :=
  {| overslept := 0; latency := 0; reply := Body (str "<html>502 Bad Gateway</html>") |}.

Definition says_nothing : answer :=
  {| overslept := 0; latency := 0; reply := Body [] |}.

(** An answer that says [authorization_pending] after 100 seconds. *)
Definition says_slowly : answer :=
  {| overslept := 0; latency := 100;
     reply := Body (Json.dumps
                      (VDict [(str "error", VStr (str "authorization_pending"))])) |}.

Definition says_bad_client : answer :=
  says (VDict [(str "error", VStr (str "incorrect_client_credentials"))]).

Definition sample_token : value := VStr (str "gho_sample_token").

(** A world where nothing fails, with a token in the environment, a run of
    [gh] and a line on the terminal. *)
Definition at_terminal (env : option pystr) (g : gh_run) (typed : option pystr)
    (answers : list answer) : world :=
  {| now := 0; net := answers; localtime_ok := fun _ => true;
     fs_ok := fun _ => true; environ_token := env; gh := g;
     stdin := typed |}.

(** A world where [copilot-token.json] cannot be opened. *)
Definition token_file_locked (answers : list answer) : world :=
  {| now := 0; net := answers; localtime_ok := fun _ => true;
     fs_ok := fun op => match op with
                        | OpOpen CopilotTokenFile => false
                        | _ => true
                        end;
     environ_token := None; gh := GhRaises; stdin := None |}.

Definition sample_secondary : SecondaryToken :=
  {| token := VStr (str "tid=abc;exp=1700000000"); expiresAt := VInt 1700000000 |}.


Definition says_copilot : answer :=
  says (VDict [(str "token", VStr (str "tid=abc;exp=1700000000"));
               (str "expires_at", VInt 1700000000)]).

(** ** Tactics *)

Ltac lia_div := zify; Z.to_euclidean_division_equations; lia.

Ltac no_match h :=
  repeat match goal with
         | |- context [N.eqb ?k h] =>
             replace (N.eqb k h) with false by (symmetry; apply N.eqb_neq; lia)
         | |- context [N.eqb h ?k] =>
             replace (N.eqb h k) with false by (symmetry; apply N.eqb_neq; lia)
         end.

Ltac at_loop_head e :=
  constructor;
  [ exists e; split; [reflexivity | cbn; lia]
  | split; [reflexivity | unfold max_sleep; lia]
  | reflexivity ].

(** * Properties *)

(** ** Python strings *)

Lemma pystr_eqb_eq (a b : pystr) : pystr_eqb a b = true <-> a = b.
Proof.
  revert b; induction a as [|x a IH]; intros [|y b]; simpl;
    try (split; [discriminate | congruence]); [tauto|].
  rewrite andb_true_iff, N.eqb_eq, IH.
  split; [intros [-> ->]; reflexivity | intros H; inversion H; auto].
Qed.

Lemma pystr_eqb_refl (a : pystr) : pystr_eqb a a = true.
Proof. apply pystr_eqb_eq; reflexivity. Qed.

Lemma pystr_eqb_neq (a b : pystr) : pystr_eqb a b = false <-> a <> b.
Proof.
  rewrite <- pystr_eqb_eq. destruct (pystr_eqb a b); split; congruence.
Qed.

(** ** The [json] module: what is written reads back *)

Section JsonFacts.
Import Json.
Local Open Scope N_scope.

Lemma lor_disjoint (a b : N) : N.land a b = 0 -> N.lor a b = a + b.
Proof.
  intros H. rewrite <- N.lxor_lor by assumption.
  symmetry. apply N.add_nocarry_lxor. assumption.
Qed.

Lemma land_shifted (x y k : N) : y < 2 ^ k -> N.land (x * 2 ^ k) y = 0.
Proof.
  intros Hy. apply N.bits_inj. intros m.
  rewrite N.land_spec, N.bits_0.
  destruct (N.lt_ge_cases m k) as [Hm|Hm].
  - rewrite N.mul_pow2_bits_low by assumption. reflexivity.
  - rewrite <- (N.mod_small y (2 ^ k)) by assumption.
    rewrite N.mod_pow2_bits_high by assumption. apply andb_false_r.
Qed.

Lemma lor_shiftl (x y k : N) :
  y < 2 ^ k -> N.lor (N.shiftl x k) y = x * 2 ^ k + y.
Proof.
  intros Hy. rewrite N.shiftl_mul_pow2.
  apply lor_disjoint. apply land_shifted. assumption.
Qed.

Lemma lor_shiftl_4 (x y : N) : y < 16 -> N.lor (N.shiftl x 4) y = 16 * x + y.
Proof.
  intros Hy. rewrite (lor_shiftl x y 4) by exact Hy.
  change (2 ^ 4) with 16. lia.
Qed.

Lemma lor_shiftl_10 (x y : N) : y < 1024 -> N.lor (N.shiftl x 10) y = 1024 * x + y.
Proof.
  intros Hy. rewrite (lor_shiftl x y 10) by exact Hy.
  change (2 ^ 10) with 1024. lia.
Qed.

Lemma hex_val_hex_digit (d : N) : d < 16 -> hex_val (hex_digit d) = Some d.
Proof.
  intros Hd. unfold hex_val, hex_digit.
  destruct (N.ltb_spec d 10).
  - replace ((48 <=? 48 + d) && (48 + d <=? 57)) with true
      by (symmetry; apply andb_true_intro; split; apply N.leb_le; lia).
    f_equal. lia.
  - replace ((48 <=? 87 + d) && (87 + d <=? 57)) with false
      by (symmetry; apply andb_false_iff; right; apply N.leb_gt; lia).
    replace ((97 <=? 87 + d) && (87 + d <=? 102)) with true
      by (symmetry; apply andb_true_intro; split; apply N.leb_le; lia).
    f_equal. lia.
Qed.

Lemma decode_hex4_hex4 (n : N) :
  n < 0x10000 ->
  decode_hex4 (hex_digit (n / 4096 mod 16)) (hex_digit (n / 256 mod 16))
              (hex_digit (n / 16 mod 16)) (hex_digit (n mod 16)) = Some n.
Proof.
  intros Hn. unfold decode_hex4.
  rewrite !hex_val_hex_digit by lia_div.
  f_equal. rewrite !lor_shiftl_4 by lia_div. lia_div.
Qed.

Lemma land_3ff (x : N) : N.land x 0x3ff = x mod 1024.
Proof. change 0x3ff with (N.ones 10). rewrite N.land_ones. reflexivity. Qed.

Lemma lor_d800 (y : N) : y < 1024 -> N.lor 0xd800 y = 0xd800 + y.
Proof.
  intros Hy. apply lor_disjoint.
  change 0xd800 with (54 * 2 ^ 10). apply land_shifted. exact Hy.
Qed.

Lemma lor_dc00 (y : N) : y < 1024 -> N.lor 0xdc00 y = 0xdc00 + y.
Proof.
  intros Hy. apply lor_disjoint.
  change 0xdc00 with (55 * 2 ^ 10). apply land_shifted. exact Hy.
Qed.

Lemma high_half_eq (c : N) : high_half c = 0xd800 + (c - 0x10000) / 1024 mod 1024.
Proof.
  unfold high_half. rewrite land_3ff, N.shiftr_div_pow2.
  change (2 ^ 10) with 1024. apply lor_d800. lia_div.
Qed.

Lemma low_half_eq (c : N) : low_half c = 0xdc00 + (c - 0x10000) mod 1024.
Proof.
  unfold low_half. rewrite land_3ff. apply lor_dc00. lia_div.
Qed.

Lemma join_halves (c : N) :
  0x10000 <= c -> c < 0x110000 ->
  join_surrogates (high_half c) (low_half c) = c.
Proof.
  intros Hlo Hhi. unfold join_surrogates.
  rewrite high_half_eq, low_half_eq, !land_3ff.
  rewrite lor_shiftl_10 by lia_div. lia_div.
Qed.

Lemma high_half_high (c : N) : is_high_surrogate (high_half c) = true.
Proof.
  rewrite high_half_eq. unfold is_high_surrogate.
  apply andb_true_intro; split; apply N.leb_le; lia_div.
Qed.

Lemma high_half_not_low (c : N) : is_low_surrogate (high_half c) = false.
Proof.
  rewrite high_half_eq. unfold is_low_surrogate.
  apply andb_false_iff. left. apply N.leb_gt. lia_div.
Qed.

Lemma low_half_low (c : N) : is_low_surrogate (low_half c) = true.
Proof.
  rewrite low_half_eq. unfold is_low_surrogate.
  apply andb_true_intro; split; apply N.leb_le; lia_div.
Qed.

Lemma scanstring_u_escape (u h1 h2 h3 h4 x : N) (s3 : pystr) :
  decode_hex4 h1 h2 h3 h4 = Some u ->
  scanstring (92 :: 117 :: h1 :: h2 :: h3 :: h4 :: x :: s3) =
  match (if is_high_surrogate u then second_escape (x :: s3) else None) with
  | Some (g1, g2, g3, g4, s4) =>
      match decode_hex4 g1 g2 g3 g4 with
      | None => None
      | Some u2 =>
          if is_low_surrogate u2
          then cons_char (join_surrogates u u2) (scanstring s4)
          else cons_char u (scanstring (x :: s3))
      end
  | None => cons_char u (scanstring (x :: s3))
  end.
Proof.
  intros Hu. cbn [scanstring]. change (92 =? 34) with false.
  change (92 =? 92) with true. change (117 =? 117) with true. cbv iota.
  rewrite Hu. fold cons_char.
  destruct (is_high_surrogate u); cbn [andb].
  - cbn [second_escape].
    destruct s3 as [|u' [|g1 [|g2 [|g3 [|g4 [|y s4]]]]]]; try (rewrite ?andb_false_r; reflexivity);
      try (destruct ((x =? 92) && (u' =? 117)); reflexivity).
  - destruct s3 as [|u' [|g1 [|g2 [|g3 [|g4 [|y s4]]]]]]; reflexivity.
Qed.

Lemma escape_char_cases (c : N) :
  (exists e, escape_char c = [92; e] /\ simple_escape e = Some c /\ e <> 117)
  \/ (escape_char c = [c] /\ 32 <= c <= 126 /\ c <> 34 /\ c <> 92)
  \/ (escape_char c = u_escape c /\ c < 0x10000)
  \/ (escape_char c = u_escape (high_half c) ++ u_escape (low_half c)
      /\ 0x10000 <= c).
Proof.
  unfold escape_char.
  destruct (N.eqb_spec c 34) as [->|H34]; [left; exists 34; repeat split; discriminate|].
  destruct (N.eqb_spec c 92) as [->|H92]; [left; exists 92; repeat split; discriminate|].
  destruct (N.eqb_spec c 10) as [->|H10]; [left; exists 110; repeat split; discriminate|].
  destruct (N.eqb_spec c 13) as [->|H13]; [left; exists 114; repeat split; discriminate|].
  destruct (N.eqb_spec c 9) as [->|H9]; [left; exists 116; repeat split; discriminate|].
  destruct (N.eqb_spec c 12) as [->|H12]; [left; exists 102; repeat split; discriminate|].
  destruct (N.eqb_spec c 8) as [->|H8]; [left; exists 98; repeat split; discriminate|].
  destruct (N.leb_spec 32 c); cbn [andb].
  - destruct (N.leb_spec c 126).
    + right; left. repeat split; assumption.
    + destruct (N.ltb_spec c 0x10000).
      * right; right; left. split; [reflexivity | assumption].
      * right; right; right. split; [reflexivity | assumption].
  - destruct (N.ltb_spec c 0x10000).
    + right; right; left. split; [reflexivity | assumption].
    + lia.
Qed.

Lemma u_escape_eq (n : N) :
  u_escape n = [92; 117; hex_digit (n / 4096 mod 16); hex_digit (n / 256 mod 16);
                hex_digit (n / 16 mod 16); hex_digit (n mod 16)].
Proof. reflexivity. Qed.

(** Reading back the escape of one character. *)
Lemma scanstring_escape_char (c x : N) (tail : pystr) :
  c < 0x110000 ->
  (is_high_surrogate c = true -> no_low_next (x :: tail)) ->
  scanstring (escape_char c ++ x :: tail) = cons_char c (scanstring (x :: tail)).
Proof.
  intros Hc Hnext.
  destruct (escape_char_cases c)
    as [[e [-> [He Hne]]] | [[-> [Hr [H34 H92]]] | [[-> Hb] | [-> Hb]]]].
  - cbn [app scanstring]. change (92 =? 34) with false. change (92 =? 92) with true.
    cbv iota. apply N.eqb_neq in Hne. rewrite Hne. rewrite He. reflexivity.
  - cbn [app scanstring].
    apply N.eqb_neq in H34, H92. rewrite H34, H92.
    replace (c <=? 31) with false by (symmetry; apply N.leb_gt; lia).
    reflexivity.
  - rewrite u_escape_eq. cbn [app].
    rewrite (scanstring_u_escape c) by (apply decode_hex4_hex4; assumption).
    destruct (is_high_surrogate c) eqn:Hh; [|reflexivity].
    specialize (Hnext eq_refl). unfold no_low_next in Hnext.
    destruct (second_escape (x :: tail)) as [[[[[g1 g2] g3] g4] s4]|]; [|reflexivity].
    destruct Hnext as [u2 [-> ->]]. reflexivity.
  - rewrite !u_escape_eq. cbn [app].
    rewrite (scanstring_u_escape (high_half c))
      by (apply decode_hex4_hex4; rewrite high_half_eq; lia_div).
    rewrite high_half_high. cbn [second_escape].
    change (92 =? 92) with true. change (117 =? 117) with true. cbn [andb].
    rewrite decode_hex4_hex4 by (rewrite low_half_eq; lia_div).
    rewrite low_half_low. rewrite join_halves by assumption. reflexivity.
Qed.

(** What a written string starts with is never the escape of a low
    surrogate, unless the string itself starts with one. *)
Lemma no_low_next_written (s : pystr) (rest : pystr) :
  match s with
  | c :: _ => is_low_surrogate c = false
  | [] => True
  end ->
  no_low_next (flat_map escape_char s ++ 34 :: rest).
Proof.
  intros Hhead. unfold no_low_next.
  destruct s as [|c s]; [destruct rest; exact I|].
  cbn [flat_map]. rewrite <- app_assoc.
  set (tail := flat_map escape_char s ++ 34 :: rest).
  assert (Htail : exists y tl, tail = y :: tl).
  { subst tail. destruct (flat_map escape_char s); eexists; eexists; reflexivity. }
  destruct Htail as [y [tl Htail]]. rewrite Htail. clear Htail tail.
  destruct (escape_char_cases c)
    as [[e [-> [He Hne]]] | [[-> [Hr [H34 H92]]] | [[-> Hb] | [-> Hb]]]].
  - cbn [app second_escape]. apply N.eqb_neq in Hne. rewrite Hne.
    rewrite andb_false_r. exact I.
  - cbn [app second_escape]. apply N.eqb_neq in H92. rewrite H92. exact I.
  - rewrite u_escape_eq. cbn [app second_escape].
    change (92 =? 92) with true. change (117 =? 117) with true. cbn [andb].
    exists c. split; [apply decode_hex4_hex4; assumption | assumption].
  - rewrite !u_escape_eq. cbn [app second_escape].
    change (92 =? 92) with true. change (117 =? 117) with true. cbn [andb].
    exists (high_half c). split.
    + apply decode_hex4_hex4. rewrite high_half_eq. lia_div.
    + apply high_half_not_low.
Qed.

(** A written string reads back. *)
Lemma scanstring_written (s : pystr) (rest : pystr) :
  str_ok s = true ->
  scanstring (flat_map escape_char s ++ 34 :: rest) = Some (s, rest).
Proof.
  induction s as [|c s IH]; intros Hok; [reflexivity|].
  cbn [str_ok] in Hok. apply andb_prop in Hok. destruct Hok as [Hok Hs].
  apply andb_prop in Hok. destruct Hok as [Hc Hpair].
  apply N.ltb_lt in Hc.
  cbn [flat_map]. rewrite <- app_assoc.
  pose proof (no_low_next_written s rest) as Hnext.
  specialize (IH Hs).
  set (tail := flat_map escape_char s ++ 34 :: rest) in *.
  assert (Htail : exists y tl, tail = y :: tl).
  { subst tail. destruct (flat_map escape_char s); eexists; eexists; reflexivity. }
  destruct Htail as [y [tl Htail]]. rewrite Htail in *.
  rewrite scanstring_escape_char.
  - rewrite IH. reflexivity.
  - assumption.
  - intros Hh. apply Hnext. rewrite Hh in Hpair. cbn [andb] in Hpair.
    destruct s as [|c' s']; [exact I|].
    apply negb_true_iff in Hpair. exact Hpair.
Qed.

Lemma digits_from_app (fuel : nat) (n : N) (acc : pystr) :
  digits_from fuel n acc = digits_from fuel n [] ++ acc.
Proof.
  revert n acc. induction fuel as [|f IH]; intros n acc; [reflexivity|].
  cbn [digits_from]. destruct (n <? 10); [reflexivity|].
  rewrite IH. rewrite (IH _ [_]). rewrite <- app_assoc. reflexivity.
Qed.

Lemma is_digit_digit (d : N) : d < 10 -> is_digit (48 + d) = true.
Proof.
  intros Hd. unfold is_digit. apply andb_true_intro; split; apply N.leb_le; lia.
Qed.

Lemma pow10_succ (k : nat) : 10 ^ N.of_nat (S k) = 10 * 10 ^ N.of_nat k.
Proof. rewrite Nat2N.inj_succ. apply N.pow_succ_r'. Qed.

(** Scanning the digits of [n] adds [n] below what was scanned before. *)
Lemma scan_digits_from (fuel : nat) :
  forall n acc, n < 10 ^ N.of_nat (S fuel) ->
  exists m, forall a,
    scan_digits a (digits_from fuel n acc) = scan_digits (a * m + n) acc.
Proof.
  induction fuel as [|f IH]; intros n acc Hn.
  - exists 10. intros a. cbn [digits_from scan_digits].
    change (10 ^ N.of_nat 1) with 10 in Hn.
    rewrite is_digit_digit by lia_div. f_equal. lia_div.
  - cbn [digits_from]. destruct (N.ltb_spec n 10) as [Hs|Hb].
    + exists 10. intros a. cbn [scan_digits].
      rewrite is_digit_digit by lia_div. f_equal. lia_div.
    + rewrite pow10_succ in Hn.
      destruct (IH (n / 10) ((48 + n mod 10) :: acc)) as [m Hm].
      { apply N.Div0.div_lt_upper_bound. exact Hn. }
      exists (10 * m). intros a. rewrite Hm. cbn [scan_digits].
      rewrite is_digit_digit by lia_div. f_equal. lia_div.
Qed.

(** The digits of a positive number open with a digit other than [0]. *)
Lemma digits_from_head (fuel : nat) :
  forall n acc, 0 < n -> n < 10 ^ N.of_nat (S fuel) ->
  exists h t, digits_from fuel n acc = h :: t /\ is_digit h = true /\ h <> 48.
Proof.
  induction fuel as [|f IH]; intros n acc Hpos Hn.
  - change (10 ^ N.of_nat 1) with 10 in Hn. cbn [digits_from].
    exists (48 + n mod 10), acc. split; [reflexivity|]. split.
    + apply is_digit_digit. lia_div.
    + lia_div.
  - cbn [digits_from]. destruct (N.ltb_spec n 10) as [Hs|Hb].
    + exists (48 + n mod 10), acc. split; [reflexivity|]. split.
      * apply is_digit_digit. lia_div.
      * lia_div.
    + rewrite pow10_succ in Hn. apply IH.
      * lia_div.
      * apply N.Div0.div_lt_upper_bound. exact Hn.
Qed.

Lemma log2_fuel (n : N) : n < 10 ^ N.of_nat (S (N.to_nat (N.log2 n))).
Proof.
  rewrite Nat2N.inj_succ, N2Nat.id.
  destruct n as [|p].
  - reflexivity.
  - apply N.lt_le_trans with (2 ^ N.succ (N.log2 (N.pos p))).
    + apply N.log2_spec. reflexivity.
    + apply N.pow_le_mono_l. lia.
Qed.

Lemma ends_number_scan (a : N) (rest : pystr) :
  ends_number rest = true -> scan_digits a rest = (a, rest).
Proof.
  destruct rest as [|c rest]; [reflexivity|]. cbn [ends_number scan_digits].
  destruct (is_digit c); [discriminate | reflexivity].
Qed.

Lemma ends_number_fraction (rest : pystr) :
  ends_number rest = true -> take_fraction rest = ([], rest).
Proof.
  destruct rest as [|c [|d rest]]; try reflexivity;
    cbn [ends_number take_fraction].
  destruct (c =? 46); [rewrite andb_false_r; discriminate | reflexivity].
Qed.

Lemma ends_number_exponent (rest : pystr) :
  ends_number rest = true -> take_exponent rest = ([], rest).
Proof.
  destruct rest as [|c rest]; [reflexivity|]. cbn [ends_number take_exponent].
  destruct (c =? 101); [rewrite andb_false_r; discriminate|].
  destruct (c =? 69); [rewrite andb_false_r; discriminate | reflexivity].
Qed.

(** A written int reads back. *)
Lemma match_number_written (z : Z) (rest : pystr) :
  ends_number rest = true ->
  match_number (repr_int z ++ rest) = Parsed (VInt z) rest.
Proof.
  intros Hend. unfold repr_int.
  set (n := Z.abs_N z). set (fuel := N.to_nat (N.log2 n)).
  pose proof (log2_fuel n) as Hfuel. fold fuel in Hfuel.
  assert (Hscan : scan_digits 0 (digits_from fuel n [] ++ rest) = (n, rest)).
  { rewrite <- digits_from_app.
    destruct (scan_digits_from fuel n rest Hfuel) as [m Hm].
    rewrite Hm. rewrite N.mul_0_l, N.add_0_l. apply ends_number_scan. exact Hend. }
  destruct (N.eq_0_gt_0_cases n) as [Hz|Hpos].
  - assert (z = 0%Z) by lia. subst z. subst fuel. rewrite Hz in *.
    change (match_number (48 :: rest) = Parsed (VInt 0) rest).
    unfold match_number. change (48 =? 45) with false. cbv iota. cbn [fst snd].
    change (48 =? 48) with true. cbv iota.
    rewrite (ends_number_fraction _ Hend). cbn [fst snd].
    rewrite (ends_number_exponent _ Hend). reflexivity.
  - destruct (digits_from_head fuel n [] Hpos Hfuel) as [h [t [Hd [Hdig Hnz]]]].
    rewrite Hd in *. apply N.eqb_neq in Hnz.
    assert (H45 : (h =? 45) = false).
    { unfold is_digit in Hdig. apply andb_prop in Hdig. destruct Hdig as [Hlo _].
      apply N.leb_le in Hlo. apply N.eqb_neq. lia. }
    destruct (Z.ltb_spec z 0) as [Hneg|Hnn].
    + unfold match_number. cbn [app fst snd].
      change (45 =? 45) with true. cbv iota. cbn [fst snd].
      rewrite Hnz, Hdig. change ((h :: t) ++ rest) with (h :: t ++ rest) in Hscan.
      rewrite Hscan. cbn [fst snd].
      rewrite (ends_number_fraction _ Hend). cbn [fst snd].
      rewrite (ends_number_exponent _ Hend). cbn [fst snd].
      f_equal. f_equal. subst n. lia.
    + unfold match_number. cbn [app fst snd]. rewrite H45. cbn [fst snd].
      rewrite Hnz, Hdig. change ((h :: t) ++ rest) with (h :: t ++ rest) in Hscan.
      rewrite Hscan. cbn [fst snd].
      rewrite (ends_number_fraction _ Hend). cbn [fst snd].
      rewrite (ends_number_exponent _ Hend). cbn [fst snd].
      f_equal. f_equal. subst n. lia.
Qed.

Lemma is_digit_range (h : N) : is_digit h = true -> 48 <= h <= 57.
Proof.
  unfold is_digit. intros H. apply andb_prop in H. destruct H as [H1 H2].
  apply N.leb_le in H1, H2. lia.
Qed.

(** A written int opens with a digit, or with a minus sign and a digit. *)
Lemma repr_int_shape (z : Z) :
  exists h t, is_digit h = true /\
              (repr_int z = h :: t \/ repr_int z = 45 :: h :: t).
Proof.
  unfold repr_int. set (n := Z.abs_N z). set (fuel := N.to_nat (N.log2 n)).
  assert (Hd : exists h t, digits_from fuel n [] = h :: t /\ is_digit h = true).
  { destruct (N.eq_0_gt_0_cases n) as [Hz|Hpos].
    - subst fuel. rewrite Hz. exists 48, []. split; reflexivity.
    - destruct (digits_from_head fuel n [] Hpos (log2_fuel n)) as [h [t [H1 [H2 _]]]].
      exists h, t. split; assumption. }
  destruct Hd as [h [t [-> Hdig]]]. exists h, t. split; [exact Hdig|].
  destruct (z <? 0)%Z; [right | left]; reflexivity.
Qed.

Lemma scan_once_number (f : nat) (z : Z) (rest : pystr) :
  scan_once (S f) (repr_int z ++ rest) = match_number (repr_int z ++ rest).
Proof.
  destruct (repr_int_shape z) as [h [t [Hdig [-> | ->]]]];
    apply is_digit_range in Hdig.
  - cbn [app scan_once].
    change (str "null") with [110; 117; 108; 108].
    change (str "true") with [116; 114; 117; 101].
    change (str "false") with [102; 97; 108; 115; 101].
    change (str "NaN") with [78; 97; 78].
    change (str "Infinity") with [73; 110; 102; 105; 110; 105; 116; 121].
    change (str "-Infinity") with [45; 73; 110; 102; 105; 110; 105; 116; 121].
    cbn [prefix_of]. no_match h. reflexivity.
  - cbn [app scan_once].
    change (str "null") with [110; 117; 108; 108].
    change (str "true") with [116; 114; 117; 101].
    change (str "false") with [102; 97; 108; 115; 101].
    change (str "NaN") with [78; 97; 78].
    change (str "Infinity") with [73; 110; 102; 105; 110; 105; 116; 121].
    change (str "-Infinity") with [45; 73; 110; 102; 105; 110; 105; 116; 121].
    cbn [prefix_of]. no_match h. reflexivity.
Qed.

Lemma dumps_head (v : value) :
  float_free v = true -> exists c t, dumps v = c :: t /\ opens_value c.
Proof.
  destruct v as [| [|] | z | literal | s | l | d]; intros Hfree;
    try discriminate Hfree; cbn [dumps];
    try (eexists; eexists; split; [reflexivity | repeat split; discriminate]).
  destruct (repr_int_shape z) as [h [t [Hdig [-> | ->]]]].
  - apply is_digit_range in Hdig. exists h, t. split; [reflexivity|].
    unfold opens_value, is_ws. no_match h. repeat split; lia.
  - eexists; eexists; split; [reflexivity | repeat split; discriminate].
Qed.

Lemma skip_ws_opens (c : N) (s : pystr) :
  is_ws c = false -> skip_ws (c :: s) = c :: s.
Proof. intros H. cbn [skip_ws]. rewrite H. reflexivity. Qed.

Lemma dict_set_new (k : pystr) (v : value) (acc : dict) :
  existsb (fun kv => pystr_eqb k (fst kv)) acc = false ->
  dict_set k v acc = acc ++ [(k, v)].
Proof.
  induction acc as [|[k' v'] acc IH]; [reflexivity|].
  cbn [existsb dict_set fst app]. intros H. apply orb_false_iff in H.
  destruct H as [Hk Hacc]. rewrite Hk. rewrite IH by assumption. reflexivity.
Qed.

Lemma items_text_cons (v v' : value) (l : list value) :
  items_text (v :: v' :: l) = dumps v ++ 44 :: 32 :: items_text (v' :: l).
Proof. reflexivity. Qed.

Lemma members_text_cons (kv kv' : pystr * value) (d : dict) :
  members_text (kv :: kv' :: d) = member_text kv ++ 44 :: 32 :: members_text (kv' :: d).
Proof. reflexivity. Qed.

Lemma member_text_eq (k : pystr) (v : value) (tail : pystr) :
  member_text (k, v) ++ tail =
  34 :: flat_map escape_char k ++ 34 :: 58 :: 32 :: dumps v ++ tail.
Proof.
  unfold member_text, encode_basestring_ascii. cbn [fst snd].
  change (str ": ") with [58; 32]. cbn [app].
  rewrite <- !app_assoc. reflexivity.
Qed.

Lemma items_text_head (v : value) (l : list value) :
  float_free v = true ->
  exists c t, items_text (v :: l) = c :: t /\ opens_value c.
Proof.
  intros Hfree. destruct (dumps_head v Hfree) as [c [t [Hd Hc]]].
  destruct l as [|v' l].
  - exists c, t. split; [exact Hd | exact Hc].
  - rewrite items_text_cons, Hd. eexists; eexists. split; [reflexivity | exact Hc].
Qed.

Lemma members_text_head (kv : pystr * value) (d : dict) :
  exists t, members_text (kv :: d) = 34 :: t.
Proof.
  destruct kv as [k v]. destruct d as [|kv' d].
  - eexists. reflexivity.
  - rewrite members_text_cons. eexists. reflexivity.
Qed.

Lemma items_written (l : list value) :
  Forall reads_back l ->
  forall v0 f acc rest,
    (need_items (v0 :: l) <= f)%nat ->
    reads_back v0 ->
    forallb float_free l = true ->
    parse_items f acc (items_text (v0 :: l) ++ 93 :: rest) =
    Parsed (acc ++ v0 :: l) rest.
Proof.
  induction 1 as [|v l Hv Hl IH]; intros v0 f acc rest Hf Hv0 Hfree.
  - destruct f as [|f]; [cbn in Hf; lia|].
    cbn [need_items fold_right] in Hf.
    cbn [parse_items]. change (items_text [v0]) with (dumps v0).
    rewrite Hv0 by (try reflexivity; lia). reflexivity.
  - destruct f as [|f]; [cbn in Hf; lia|].
    change (need_items (v0 :: v :: l))
      with (S (Nat.max (need v0) (need_items (v :: l)))) in Hf.
    cbn [parse_items]. rewrite items_text_cons. rewrite <- app_assoc.
    cbn [app]. rewrite Hv0 by (try reflexivity; lia).
    cbn [skip_ws is_ws N.eqb Pos.eqb orb].
    change (44 =? 93) with false. change (44 =? 44) with true. cbv iota.
    cbn [forallb] in Hfree. apply andb_prop in Hfree. destruct Hfree as [Hfv Hfl].
    destruct (items_text_head v l Hfv) as [c [t [Hhead [Hws _]]]].
    rewrite Hhead. cbn [app]. rewrite skip_ws_opens by exact Hws.
    change (c :: t ++ 93 :: rest) with ((c :: t) ++ 93 :: rest).
    rewrite <- Hhead. rewrite IH by (try assumption; lia).
    rewrite <- app_assoc. reflexivity.
Qed.

Lemma existsb_app_one (k k' : pystr) (v' : value) (acc : dict) :
  existsb (fun kv' => pystr_eqb k (fst kv')) (acc ++ [(k', v')]) =
  existsb (fun kv' => pystr_eqb k (fst kv')) acc || pystr_eqb k k'.
Proof. rewrite existsb_app. cbn. rewrite orb_false_r. reflexivity. Qed.

Lemma pystr_eqb_sym (a b : pystr) : pystr_eqb a b = pystr_eqb b a.
Proof.
  destruct (pystr_eqb a b) eqn:H.
  - apply pystr_eqb_eq in H. subst. symmetry. apply pystr_eqb_refl.
  - symmetry. apply pystr_eqb_neq. apply pystr_eqb_neq in H. congruence.
Qed.

Lemma fresh_keys_step (k : pystr) (v : value) (acc d : dict) :
  fresh_keys acc d = true ->
  existsb (fun kv => pystr_eqb k (fst kv)) d = false ->
  fresh_keys (acc ++ [(k, v)]) d = true.
Proof.
  unfold fresh_keys. induction d as [|[k1 v1] d IH]; [reflexivity|].
  cbn [forallb existsb fst]. intros H1 H2.
  apply andb_prop in H1. destruct H1 as [Hk1 Hd].
  apply orb_false_iff in H2. destruct H2 as [Hne Hrest].
  rewrite existsb_app_one. rewrite (pystr_eqb_sym k1 k), Hne.
  rewrite orb_false_r, Hk1. cbn [andb]. apply IH; assumption.
Qed.

Lemma members_written (d : dict) :
  Forall (fun kv => reads_back (snd kv)) d ->
  forall kv0 f acc rest,
    (need_members (kv0 :: d) <= f)%nat ->
    reads_back (snd kv0) ->
    forallb (fun kv => str_ok (fst kv)) (kv0 :: d) = true ->
    distinct_keys (kv0 :: d) = true ->
    fresh_keys acc (kv0 :: d) = true ->
    forallb (fun kv => float_free (snd kv)) (kv0 :: d) = true ->
    parse_members f acc (members_text (kv0 :: d) ++ 125 :: rest) =
    Parsed (acc ++ kv0 :: d) rest.
Proof.
  induction 1 as [|kv d Hv Hd IH];
    intros [k0 v0] f acc rest Hf Hv0 Hok Hdist Hfresh Hfree;
    cbn [forallb snd] in Hfree; apply andb_prop in Hfree;
    destruct Hfree as [Hfv Hfree].
  - destruct f as [|f]; [cbn in Hf; lia|].
    cbn [need_members fold_right snd] in Hf.
    cbn [forallb fst] in Hok. rewrite andb_true_r in Hok.
    cbn [fresh_keys forallb fst] in Hfresh. rewrite andb_true_r in Hfresh.
    apply negb_true_iff in Hfresh.
    change (members_text [(k0, v0)]) with (member_text (k0, v0)).
    rewrite member_text_eq. cbn [parse_members].
    change (34 =? 34) with true. cbv iota.
    rewrite scanstring_written by exact Hok.
    cbn [skip_ws is_ws N.eqb Pos.eqb orb].
    change (58 =? 58) with true. cbv iota.
    destruct (dumps_head v0 Hfv) as [c [t [Hhead [Hws _]]]].
    rewrite Hhead. cbn [app]. rewrite skip_ws_opens by exact Hws.
    change (c :: t ++ 125 :: rest) with ((c :: t) ++ 125 :: rest).
    rewrite <- Hhead. cbn [snd] in Hv0.
    rewrite Hv0 by (try reflexivity; lia).
    cbn [skip_ws is_ws N.eqb Pos.eqb orb].
    change (125 =? 125) with true. cbv iota.
    rewrite dict_set_new by exact Hfresh. reflexivity.
  - destruct f as [|f]; [cbn in Hf; lia|].
    change (need_members ((k0, v0) :: kv :: d))
      with (S (Nat.max (need v0) (need_members (kv :: d)))) in Hf.
    cbn [forallb fst] in Hok. apply andb_prop in Hok. destruct Hok as [Hk0 Hok].
    cbn [distinct_keys] in Hdist. apply andb_prop in Hdist.
    destruct Hdist as [Hk0d Hdist]. apply negb_true_iff in Hk0d.
    unfold fresh_keys in Hfresh. cbn [forallb fst] in Hfresh.
    apply andb_prop in Hfresh. destruct Hfresh as [Hk0acc Hfresh].
    apply negb_true_iff in Hk0acc.
    rewrite members_text_cons. rewrite <- app_assoc. rewrite member_text_eq.
    cbn [parse_members]. change (34 =? 34) with true. cbv iota.
    rewrite scanstring_written by exact Hk0.
    cbn [skip_ws is_ws N.eqb Pos.eqb orb].
    change (58 =? 58) with true. cbv iota.
    destruct (dumps_head v0 Hfv) as [c [t [Hhead [Hws _]]]].
    rewrite Hhead. cbn [app]. rewrite skip_ws_opens by exact Hws.
    change (c :: t ++ 44 :: 32 :: members_text (kv :: d) ++ 125 :: rest)
      with ((c :: t) ++ 44 :: 32 :: members_text (kv :: d) ++ 125 :: rest).
    rewrite <- Hhead. cbn [snd] in Hv0.
    rewrite Hv0 by (try reflexivity; lia).
    cbn [skip_ws is_ws N.eqb Pos.eqb orb].
    change (44 =? 125) with false. change (44 =? 44) with true. cbv iota.
    rewrite dict_set_new by exact Hk0acc.
    destruct (members_text_head kv d) as [t' Hm].
    rewrite Hm. cbn [app]. rewrite skip_ws_opens by reflexivity.
    change (34 :: t' ++ 125 :: rest) with ((34 :: t') ++ 125 :: rest).
    rewrite <- Hm.
    rewrite IH; try assumption; try lia.
    + rewrite <- app_assoc. reflexivity.
    + apply fresh_keys_step; assumption.
Qed.

Lemma dumps_list (l : list value) :
  dumps (VList l) = 91 :: items_text l ++ [93].
Proof. reflexivity. Qed.

Lemma dumps_dict (d : dict) :
  dumps (VDict d) = 123 :: members_text d ++ [125].
Proof. reflexivity. Qed.

Lemma fresh_keys_nil (d : dict) : fresh_keys [] d = true.
Proof. unfold fresh_keys. induction d as [|kv d IH]; [reflexivity | exact IH]. Qed.

(** Every value [json.loads] can build reads back from the text
    [json.dumps] writes for it. *)
Lemma scan_once_written (v : value) :
  value_ok v = true -> float_free v = true -> reads_back v.
Proof.
  induction v as [| b | z | literal | s | l IH | d IH] using value_induction;
    intros Hok Hfree f rest Hf Hend.
  - destruct f as [|f]; [cbn in Hf; lia|]. reflexivity.
  - destruct f as [|f]; [cbn in Hf; lia|]. destruct b; reflexivity.
  - destruct f as [|f]; [cbn in Hf; lia|]. cbn [dumps].
    rewrite scan_once_number. apply match_number_written. exact Hend.
  - discriminate Hfree.
  - destruct f as [|f]; [cbn in Hf; lia|]. cbn [dumps value_ok] in *.
    unfold encode_basestring_ascii. cbn [app]. rewrite <- app_assoc. cbn [app].
    cbn [scan_once]. change (34 =? 34) with true. cbv iota.
    rewrite scanstring_written by exact Hok. reflexivity.
  - destruct f as [|f]; [cbn in Hf; lia|].
    cbn [value_ok] in Hok. rewrite forallb_forall in Hok.
    cbn [float_free] in Hfree.
    assert (Hall : Forall reads_back l).
    { apply Forall_forall. intros x Hx. rewrite Forall_forall in IH.
      rewrite forallb_forall in Hfree.
      apply IH; [exact Hx | apply Hok; exact Hx | apply Hfree; exact Hx]. }
    destruct l as [|v0 l].
    + reflexivity.
    + inversion Hall as [|x l' Hv0 Hl]; subst x l'.
      cbn [forallb] in Hfree. apply andb_prop in Hfree.
      destruct Hfree as [Hfv Hfree].
      rewrite dumps_list.
      cbn [app]. rewrite <- app_assoc. cbn [app].
      cbn [scan_once]. change (91 =? 34) with false. change (91 =? 123) with false.
      change (91 =? 91) with true. cbv iota.
      destruct (items_text_head v0 l Hfv) as [c [t [Hhead [Hws [H93 _]]]]].
      rewrite Hhead. cbn [app]. rewrite skip_ws_opens by exact Hws.
      apply N.eqb_neq in H93. rewrite H93.
      change (c :: t ++ 93 :: rest) with ((c :: t) ++ 93 :: rest).
      rewrite <- Hhead.
      rewrite (items_written l Hl v0 f [] rest);
        [reflexivity | | exact Hv0 | exact Hfree].
      cbn [need] in Hf. fold (need_items (v0 :: l)) in Hf. lia.
  - destruct f as [|f]; [cbn in Hf; lia|].
    cbn [value_ok] in Hok. apply andb_prop in Hok. destruct Hok as [Hmem Hdist].
    assert (Hkeys : forallb (fun kv => str_ok (fst kv)) d = true).
    { rewrite forallb_forall in *. intros kv Hkv.
      specialize (Hmem kv Hkv). apply andb_prop in Hmem. tauto. }
    cbn [float_free] in Hfree.
    assert (Hall : Forall (fun kv => reads_back (snd kv)) d).
    { apply Forall_forall. intros kv Hkv. rewrite Forall_forall in IH.
      apply IH; [exact Hkv | |].
      - rewrite forallb_forall in Hmem.
        specialize (Hmem kv Hkv). apply andb_prop in Hmem. tauto.
      - rewrite forallb_forall in Hfree. apply (Hfree kv Hkv). }
    destruct d as [|kv0 d].
    + reflexivity.
    + inversion Hall as [|x d' Hv0 Hd]; subst x d'.
      rewrite dumps_dict.
      cbn [app]. rewrite <- app_assoc. cbn [app].
      cbn [scan_once]. change (123 =? 34) with false.
      change (123 =? 123) with true. cbv iota.
      destruct (members_text_head kv0 d) as [t Hhead].
      rewrite Hhead. cbn [app]. rewrite skip_ws_opens by reflexivity.
      change (34 =? 125) with false. cbv iota.
      change (34 :: t ++ 125 :: rest) with ((34 :: t) ++ 125 :: rest).
      rewrite <- Hhead.
      rewrite (members_written d Hd kv0 f [] rest);
        [reflexivity | | exact Hv0 | exact Hkeys | exact Hdist
         | apply fresh_keys_nil | exact Hfree].
      cbn [need] in Hf. fold (need_members (kv0 :: d)) in Hf. lia.
Qed.

Lemma need_items_length (l : list value) :
  Forall (fun v => (need v <= List.length (dumps v))%nat) l ->
  (need_items l <= S (List.length (items_text l)))%nat.
Proof.
  induction 1 as [|v l Hv Hl IH]; [cbn; lia|].
  destruct l as [|v' l].
  - cbn [need_items fold_right]. change (items_text [v]) with (dumps v). lia.
  - change (need_items (v :: v' :: l))
      with (S (Nat.max (need v) (need_items (v' :: l)))).
    rewrite items_text_cons. rewrite length_app. cbn [List.length]. lia.
Qed.

Lemma need_members_length (d : dict) :
  Forall (fun kv => (need (snd kv) <= List.length (dumps (snd kv)))%nat) d ->
  (need_members d <= S (List.length (members_text d)))%nat.
Proof.
  assert (Hm : forall kv, (List.length (dumps (snd kv)) <= List.length (member_text kv))%nat).
  { intros kv. unfold member_text. rewrite !length_app. lia. }
  induction 1 as [|kv d Hv Hd IH]; [cbn; lia|].
  destruct d as [|kv' d].
  - cbn [need_members fold_right]. change (members_text [kv]) with (member_text kv).
    specialize (Hm kv). lia.
  - change (need_members (kv :: kv' :: d))
      with (S (Nat.max (need (snd kv)) (need_members (kv' :: d)))).
    rewrite members_text_cons. rewrite length_app. cbn [List.length].
    specialize (Hm kv). lia.
Qed.

Lemma need_length (v : value) :
  float_free v = true -> (need v <= List.length (dumps v))%nat.
Proof.
  induction v as [| b | z | literal | s | l IH | d IH] using value_induction;
    intros Hfree.
  - cbn. lia.
  - destruct b; cbn; lia.
  - destruct (dumps_head (VInt z) eq_refl) as [c [t [Hd _]]]. rewrite Hd. cbn. lia.
  - discriminate Hfree.
  - destruct (dumps_head (VStr s) eq_refl) as [c [t [Hd _]]]. rewrite Hd. cbn. lia.
  - rewrite dumps_list. cbn [need List.length]. fold (need_items l).
    rewrite length_app. cbn [List.length].
    cbn [float_free] in Hfree. rewrite forallb_forall in Hfree.
    assert (Hall : Forall (fun v => (need v <= List.length (dumps v))%nat) l).
    { rewrite Forall_forall in *. intros x Hx. apply IH; [exact Hx|].
      apply Hfree. exact Hx. }
    pose proof (need_items_length l Hall). lia.
  - rewrite dumps_dict. cbn [need List.length]. fold (need_members d).
    rewrite length_app. cbn [List.length].
    cbn [float_free] in Hfree. rewrite forallb_forall in Hfree.
    assert (Hall : Forall (fun kv => (need (snd kv) <=
                                      List.length (dumps (snd kv)))%nat) d).
    { rewrite Forall_forall in *. intros x Hx. apply IH; [exact Hx|].
      apply Hfree. exact Hx. }
    pose proof (need_members_length d Hall). lia.
Qed.

(** [json.loads(json.dumps(v)) == v]. *)
Lemma loads_dumps (v : value) :
  value_ok v = true -> float_free v = true -> loads (dumps v) = Loaded v.
Proof.
  intros Hok Hfree. unfold loads.
  destruct (dumps_head v Hfree) as [c [t [Hd [Hws [_ [_ Hbom]]]]]].
  pose proof (need_length v Hfree) as Hneed.
  pose proof (scan_once_written v Hok Hfree (S (List.length (dumps v))) []
                ltac:(lia) eq_refl) as Hscan.
  rewrite app_nil_r in Hscan.
  rewrite Hd in *. cbn [prefix_of].
  replace (65279 =? c) with false by (symmetry; apply N.eqb_neq; lia).
  cbn [andb]. rewrite skip_ws_opens by exact Hws. rewrite Hscan. reflexivity.
Qed.

Lemma scanstring_u_unfold (h1 h2 h3 h4 x : N) (s3 : pystr) :
  scanstring (92 :: 117 :: h1 :: h2 :: h3 :: h4 :: x :: s3) =
  match decode_hex4 h1 h2 h3 h4 with
  | None => None
  | Some u =>
      match (if is_high_surrogate u then second_escape (x :: s3) else None) with
      | Some (g1, g2, g3, g4, s4) =>
          match decode_hex4 g1 g2 g3 g4 with
          | None => None
          | Some u2 =>
              if is_low_surrogate u2
              then cons_char (join_surrogates u u2) (scanstring s4)
              else cons_char u (scanstring (x :: s3))
          end
      | None => cons_char u (scanstring (x :: s3))
      end
  end.
Proof.
  destruct (decode_hex4 h1 h2 h3 h4) as [u|] eqn:Hu.
  - apply scanstring_u_escape. exact Hu.
  - cbn [scanstring]. change (92 =? 34) with false.
    change (92 =? 92) with true. change (117 =? 117) with true. cbv iota.
    rewrite Hu. reflexivity.
Qed.

Lemma cons_char_some (c : N) r t rest :
  cons_char c r = Some (t, rest) ->
  exists t', t = c :: t' /\ r = Some (t', rest).
Proof.
  destruct r as [[t' rest']|]; [|discriminate]. cbn. intros H.
  inversion H; subst. exists t'. split; reflexivity.
Qed.

Lemma second_escape_some (s : pystr) g1 g2 g3 g4 s4 :
  second_escape s = Some (g1, g2, g3, g4, s4) ->
  exists x s4', s4 = x :: s4' /\ s = 92 :: 117 :: g1 :: g2 :: g3 :: g4 :: x :: s4'.
Proof.
  destruct s as [|b [|u t]]; try discriminate. cbn [second_escape].
  destruct (N.eqb_spec b 92) as [->|]; [|discriminate].
  destruct (N.eqb_spec u 117) as [->|]; [|discriminate]. cbn [andb].
  destruct t as [|a1 [|a2 [|a3 [|a4 [|x s4']]]]]; try discriminate.
  intros H. inversion H; subst. exists x, s4'. split; reflexivity.
Qed.

Lemma scanstring_scanned (s t rest : pystr) :
  scanstring s = Some (t, rest) -> scanned s t rest.
Proof.
  destruct s as [|c s1]; [discriminate|].
  destruct (N.eqb_spec c 34) as [->|H34].
  { cbn. intros H. inversion H; subst. constructor. }
  destruct (N.eqb_spec c 92) as [->|H92].
  - destruct s1 as [|e s2]; [discriminate|].
    destruct (N.eqb_spec e 117) as [->|H117].
    + destruct s2 as [|h1 [|h2 [|h3 [|h4 [|x s3]]]]]; try discriminate.
      rewrite scanstring_u_unfold.
      destruct (decode_hex4 h1 h2 h3 h4) as [u|] eqn:Hu; [|discriminate].
      destruct (is_high_surrogate u) eqn:Hh.
      * destruct (second_escape (x :: s3)) as [[[[[g1 g2] g3] g4] s4]|] eqn:Hse.
        -- destruct (decode_hex4 g1 g2 g3 g4) as [u2|] eqn:Hu2; [|discriminate].
           destruct (is_low_surrogate u2) eqn:Hl; intros H;
             apply cons_char_some in H; destruct H as [t' [-> H]].
           ++ apply second_escape_some in Hse.
              destruct Hse as [y [s4' [-> Hs]]]. inversion Hs; subst.
              apply scanned_pair; assumption.
           ++ apply scanned_single; try assumption.
              intros _. rewrite Hse. exists u2. split; assumption.
        -- intros H. apply cons_char_some in H. destruct H as [t' [-> H]].
           apply scanned_single; try assumption. intros _. rewrite Hse. exact I.
      * intros H. apply cons_char_some in H. destruct H as [t' [-> H]].
        apply scanned_single; try assumption. intros Habs. congruence.
    + cbn [scanstring]. change (92 =? 34) with false. change (92 =? 92) with true.
      cbv iota. apply N.eqb_neq in H117. rewrite H117.
      destruct (simple_escape e) as [c'|] eqn:He; [|discriminate].
      fold cons_char. intros H. apply cons_char_some in H.
      destruct H as [t' [-> H]]. apply N.eqb_neq in H117.
      apply scanned_simple; assumption.
  - cbn [scanstring]. apply N.eqb_neq in H34, H92. rewrite H34, H92.
    destruct (N.leb_spec c 31) as [Hc|Hc]; [discriminate|].
    fold cons_char. intros H. apply cons_char_some in H.
    destruct H as [t' [-> H]]. apply N.eqb_neq in H34, H92.
    apply scanned_raw; assumption.
Qed.

Lemma hex_val_lt (c d : N) : hex_val c = Some d -> d < 16.
Proof.
  unfold hex_val.
  destruct ((48 <=? c) && (c <=? 57)) eqn:H1.
  { apply andb_prop in H1. destruct H1 as [Ha Hb]. apply N.leb_le in Ha, Hb.
    intros H. inversion H. lia. }
  destruct ((97 <=? c) && (c <=? 102)) eqn:H2.
  { apply andb_prop in H2. destruct H2 as [Ha Hb]. apply N.leb_le in Ha, Hb.
    intros H. inversion H. lia. }
  destruct ((65 <=? c) && (c <=? 70)) eqn:H3; [|discriminate].
  apply andb_prop in H3. destruct H3 as [Ha Hb]. apply N.leb_le in Ha, Hb.
  intros H. inversion H. lia.
Qed.

Lemma decode_hex4_lt (h1 h2 h3 h4 u : N) :
  decode_hex4 h1 h2 h3 h4 = Some u -> u < 0x10000.
Proof.
  unfold decode_hex4.
  destruct (hex_val h1) as [a|] eqn:Ha; [|discriminate].
  destruct (hex_val h2) as [b|] eqn:Hb; [|discriminate].
  destruct (hex_val h3) as [c|] eqn:Hc; [|discriminate].
  destruct (hex_val h4) as [d|] eqn:Hd; [|discriminate].
  apply hex_val_lt in Ha, Hb, Hc, Hd.
  intros H. inversion H. rewrite !lor_shiftl_4 by lia. lia.
Qed.

Lemma join_surrogates_range (u u2 : N) :
  0x10000 <= join_surrogates u u2 < 0x110000.
Proof.
  unfold join_surrogates. rewrite !land_3ff.
  rewrite lor_shiftl_10 by lia_div. lia_div.
Qed.

Lemma simple_escape_ascii (e c : N) : simple_escape e = Some c -> c < 128.
Proof.
  unfold simple_escape.
  repeat match goal with
         | |- context [if ?b then _ else _] => destruct b
         end; intros H; inversion H; lia.
Qed.

Lemma not_surrogate_high (c : N) : is_surrogate c = false -> is_high_surrogate c = false.
Proof. unfold is_surrogate. intros H. apply orb_false_iff in H. tauto. Qed.

Lemma not_surrogate_low (c : N) : is_surrogate c = false -> is_low_surrogate c = false.
Proof. unfold is_surrogate. intros H. apply orb_false_iff in H. tauto. Qed.

Lemma out_of_surrogates (c : N) : c < 0xd800 \/ 0xdfff < c -> is_surrogate c = false.
Proof.
  intros H. unfold is_surrogate, is_high_surrogate, is_low_surrogate.
  apply orb_false_iff. split; apply andb_false_iff.
  - destruct H; [left; apply N.leb_gt; lia | right; apply N.leb_gt; lia].
  - destruct H; [left; apply N.leb_gt; lia | right; apply N.leb_gt; lia].
Qed.

Lemma decoded_cons (c : N) (s : pystr) :
  decoded (c :: s) = true ->
  c < 0x110000 /\ is_surrogate c = false /\ decoded s = true.
Proof.
  unfold decoded. cbn [forallb]. intros H. apply andb_prop in H.
  destruct H as [Hc Hs]. apply andb_prop in Hc. destruct Hc as [Hlt Hns].
  apply N.ltb_lt in Hlt. apply negb_true_iff in Hns. tauto.
Qed.

Lemma decoded_tail (c : N) (s : pystr) : decoded (c :: s) = true -> decoded s = true.
Proof. intros H. apply decoded_cons in H. tauto. Qed.

Lemma str_ok_cons (c : N) (t : pystr) :
  c < 0x110000 ->
  (is_high_surrogate c = true ->
   match t with c' :: _ => is_low_surrogate c' = false | [] => True end) ->
  str_ok t = true ->
  str_ok (c :: t) = true.
Proof.
  intros Hc Hpair Ht. cbn [str_ok]. rewrite Ht, andb_true_r.
  apply andb_true_intro. split; [apply N.ltb_lt; exact Hc|].
  apply negb_true_iff. destruct (is_high_surrogate c); [|reflexivity].
  specialize (Hpair eq_refl). destruct t as [|c' t]; [reflexivity | exact Hpair].
Qed.

(** A string scanned from a decoded text is [str_ok], and a low surrogate
    at its head was written as an escape. *)
Lemma scanstring_ok (t : pystr) :
  forall s rest,
    scanstring s = Some (t, rest) -> decoded s = true ->
    str_ok t = true /\ decoded rest = true /\
    (match t with
     | c :: _ => is_low_surrogate c = true -> opens_low s
     | [] => True
     end).
Proof.
  induction t as [|c0 t IH]; intros s rest Hscan Hdec;
    apply scanstring_scanned in Hscan; inversion Hscan; subst.
  - split; [reflexivity|]. split; [|exact I]. apply decoded_tail in Hdec. exact Hdec.
  - apply decoded_cons in Hdec. destruct Hdec as [Hlt [Hns Hs1]].
    destruct (IH _ _ ltac:(eassumption) Hs1) as [Hok [Hrest _]].
    split; [|split; [exact Hrest|]].
    + apply str_ok_cons; [exact Hlt | | exact Hok].
      rewrite (not_surrogate_high _ Hns). discriminate.
    + rewrite (not_surrogate_low _ Hns). discriminate.
  - do 2 apply decoded_tail in Hdec.
    destruct (IH _ _ ltac:(eassumption) Hdec) as [Hok [Hrest _]].
    match goal with H : simple_escape _ = Some _ |- _ =>
      apply simple_escape_ascii in H; rename H into Hc end.
    assert (Hns : is_surrogate c0 = false) by (apply out_of_surrogates; lia).
    split; [|split; [exact Hrest|]].
    + apply str_ok_cons; [lia | | exact Hok].
      rewrite (not_surrogate_high _ Hns). discriminate.
    + rewrite (not_surrogate_low _ Hns). discriminate.
  - do 6 apply decoded_tail in Hdec.
    destruct (IH _ _ ltac:(eassumption) Hdec) as [Hok [Hrest Hlow]].
    match goal with H : decode_hex4 h1 h2 h3 h4 = Some _ |- _ =>
      pose proof (decode_hex4_lt _ _ _ _ _ H) as Hlt; rename H into Hu end.
    split; [|split; [exact Hrest|]].
    + apply str_ok_cons; [lia | | exact Hok].
      intros Hh. destruct t as [|c' t']; [exact I|].
      destruct (is_low_surrogate c') eqn:Hc'; [|reflexivity].
      destruct (Hlow eq_refl) as [g1 [g2 [g3 [g4 [y [s4 [u2 [Hs [Hu2 Hl2]]]]]]]]].
      match goal with H : is_high_surrogate c0 = true -> _ |- _ =>
        specialize (H Hh); rename H into Hnot end.
      rewrite Hs in Hnot. cbn [second_escape] in Hnot.
      change (92 =? 92) with true in Hnot. change (117 =? 117) with true in Hnot.
      cbn [andb] in Hnot. destruct Hnot as [u3 [Hu3 Hl3]]. congruence.
    + intros Hl. exists h1, h2, h3, h4, x, s3, c0. repeat split; assumption.
  - do 12 apply decoded_tail in Hdec.
    destruct (IH _ _ ltac:(eassumption) Hdec) as [Hok [Hrest _]].
    pose proof (join_surrogates_range u u2) as Hr.
    assert (Hns : is_surrogate (join_surrogates u u2) = false)
      by (apply out_of_surrogates; lia).
    split; [|split; [exact Hrest|]].
    + apply str_ok_cons; [lia | | exact Hok].
      rewrite (not_surrogate_high _ Hns). discriminate.
    + rewrite (not_surrogate_low _ Hns). discriminate.
Qed.

Lemma skip_ws_decoded (s : pystr) : decoded s = true -> decoded (skip_ws s) = true.
Proof.
  induction s as [|c s IH]; [trivial|]. cbn [skip_ws]. intros H.
  destruct (is_ws c); [|exact H]. apply IH. apply decoded_tail in H. exact H.
Qed.

Lemma skipn_decoded (n : nat) (s : pystr) : decoded s = true -> decoded (skipn n s) = true.
Proof.
  revert s. induction n as [|n IH]; intros s H; [exact H|].
  destruct s as [|c s]; [exact H|]. cbn [skipn]. apply IH.
  apply decoded_tail in H. exact H.
Qed.

Lemma scan_digits_decoded (a : N) (s : pystr) :
  decoded s = true -> decoded (snd (scan_digits a s)) = true.
Proof.
  revert a. induction s as [|c s IH]; intros a H; [reflexivity|].
  cbn [scan_digits]. destruct (is_digit c); [|exact H].
  apply IH. apply decoded_tail in H. exact H.
Qed.

Lemma decoded_app (p s : pystr) : decoded (p ++ s) = true -> decoded s = true.
Proof.
  unfold decoded. rewrite forallb_app. intros H. apply andb_prop in H. tauto.
Qed.

Lemma scan_digits_split (a : N) (s : pystr) :
  exists p, s = p ++ snd (scan_digits a s).
Proof.
  revert a. induction s as [|c s IH]; intros a; [exists []; reflexivity|].
  cbn [scan_digits]. destruct (is_digit c); [|exists []; reflexivity].
  destruct (IH (10 * a + (c - 48))) as [p Hp]. exists (c :: p).
  cbn [app]. rewrite <- Hp. reflexivity.
Qed.

Lemma take_digits_split (s : pystr) :
  fst (take_digits s) ++ snd (take_digits s) = s.
Proof.
  induction s as [|c s IH]; [reflexivity|]. cbn [take_digits].
  destruct (is_digit c); [|reflexivity]. cbn [fst snd app]. rewrite IH.
  reflexivity.
Qed.

Lemma take_fraction_split (s : pystr) :
  fst (take_fraction s) ++ snd (take_fraction s) = s.
Proof.
  destruct s as [|c [|d s]]; try reflexivity. cbn [take_fraction].
  destruct ((c =? 46) && is_digit d); [|reflexivity].
  cbn [fst snd app]. rewrite take_digits_split. reflexivity.
Qed.

Lemma take_exponent_split (s : pystr) :
  fst (take_exponent s) ++ snd (take_exponent s) = s.
Proof.
  destruct s as [|c s1]; [reflexivity|]. cbn [take_exponent].
  destruct ((c =? 101) || (c =? 69)); [|reflexivity].
  match goal with |- context [take_digits (snd ?x)] => set (signed := x) end.
  assert (Hsigned : fst signed ++ snd signed = s1).
  { subst signed. destruct s1 as [|d [|d' s2]]; try reflexivity.
    destruct ((d =? 45) || (d =? 43)); reflexivity. }
  pose proof (take_digits_split (snd signed)) as Hd.
  destruct (fst (take_digits (snd signed))) as [|x xs] eqn:Hfst; [reflexivity|].
  cbn [fst snd]. cbn [app]. f_equal. rewrite <- app_assoc. rewrite Hd.
  exact Hsigned.
Qed.

(** What [match_number] makes of the text after the digits. *)
Lemma number_end_parsed (neg : bool) (n : N) (s tail : pystr) (v : value)
    (rest : pystr) :
  match fst (take_fraction tail),
        fst (take_exponent (snd (take_fraction tail))) with
  | [], [] => Parsed (VInt (if neg then (- Z.of_N n)%Z else Z.of_N n)) tail
  | _, _ =>
      Parsed
        (VFloat
           (firstn (List.length s -
                    List.length (snd (take_exponent (snd (take_fraction tail)))))
                   s))
        (snd (take_exponent (snd (take_fraction tail))))
  end = Parsed v rest ->
  value_ok v = true /\ exists p, tail = p ++ rest.
Proof.
  intros H.
  pose proof (take_fraction_split tail) as Hf.
  pose proof (take_exponent_split (snd (take_fraction tail))) as He.
  assert (Hfloat : exists p,
             tail = p ++ snd (take_exponent (snd (take_fraction tail)))).
  { exists (fst (take_fraction tail) ++
            fst (take_exponent (snd (take_fraction tail)))).
    rewrite <- app_assoc, He, Hf. reflexivity. }
  destruct (fst (take_fraction tail));
    destruct (fst (take_exponent (snd (take_fraction tail))));
    injection H as <- <-; (split; [reflexivity|]); try exact Hfloat.
  exists []. reflexivity.
Qed.

Lemma nonempty_prefix (q : pystr) (c : N) (p rest : pystr) :
  exists c0 p0, q ++ c :: p ++ rest = c0 :: p0 ++ rest.
Proof.
  destruct q as [|x q]; [exists c, p; reflexivity|].
  exists x, (q ++ c :: p). cbn [app]. rewrite <- app_assoc. reflexivity.
Qed.

(** A number is an int or a float, and takes at least one character. *)
Lemma match_number_parsed (s : pystr) (v : value) (rest : pystr) :
  match_number s = Parsed v rest ->
  value_ok v = true /\ exists c p, s = c :: p ++ rest.
Proof.
  unfold match_number.
  set (signed := match s with
                 | c :: s' => if c =? 45 then (true, s') else (false, s)
                 | [] => (false, s)
                 end).
  assert (Hs : exists q, s = q ++ snd signed).
  { subst signed. destruct s as [|c s']; [exists []; reflexivity|].
    destruct (c =? 45); [exists [c] | exists []]; reflexivity. }
  destruct Hs as [q Hq].
  destruct (snd signed) as [|c s2] eqn:Hsnd; [discriminate|].
  destruct (c =? 48).
  - intros H. apply number_end_parsed in H. destruct H as [Hv [p Hp]].
    split; [exact Hv|]. rewrite Hq, Hp. apply nonempty_prefix.
  - destruct (is_digit c) eqn:Hc; [|discriminate].
    intros H. apply number_end_parsed in H. destruct H as [Hv [p Hp]].
    split; [exact Hv|]. cbn [scan_digits] in Hp. rewrite Hc in Hp.
    destruct (scan_digits_split (10 * 0 + (c - 48)) s2) as [p' Hp'].
    rewrite Hp in Hp'. rewrite Hq, Hp'. rewrite app_assoc.
    apply nonempty_prefix.
Qed.

Lemma match_number_ok (s : pystr) (v : value) (rest : pystr) :
  match_number s = Parsed v rest -> decoded s = true ->
  value_ok v = true /\ decoded rest = true.
Proof.
  intros H Hdec. apply match_number_parsed in H.
  destruct H as [Hv [c [p Hs]]]. split; [exact Hv|].
  apply (decoded_app (c :: p)). subst s. exact Hdec.
Qed.

Lemma existsb_dict_set (k0 k : pystr) (v : value) (acc : dict) :
  existsb (fun kv => pystr_eqb k0 (fst kv)) (dict_set k v acc) =
  existsb (fun kv => pystr_eqb k0 (fst kv)) acc || pystr_eqb k0 k.
Proof.
  induction acc as [|[k' v'] acc IH]; cbn [dict_set existsb fst].
  - rewrite orb_false_r. reflexivity.
  - destruct (pystr_eqb k k') eqn:Hk; cbn [existsb fst].
    + apply pystr_eqb_eq in Hk. subst k'.
      destruct (pystr_eqb k0 k); [reflexivity|]. cbn [orb]. rewrite orb_false_r.
      reflexivity.
    + rewrite IH. rewrite orb_assoc. reflexivity.
Qed.

Lemma distinct_keys_dict_set (k : pystr) (v : value) (acc : dict) :
  distinct_keys acc = true -> distinct_keys (dict_set k v acc) = true.
Proof.
  induction acc as [|[k' v'] acc IH]; [reflexivity|].
  cbn [distinct_keys dict_set]. intros H. apply andb_prop in H.
  destruct H as [Hk' Hacc].
  destruct (pystr_eqb k k') eqn:Hk; cbn [distinct_keys].
  - rewrite Hk', Hacc. reflexivity.
  - rewrite existsb_dict_set. rewrite (pystr_eqb_sym k' k), Hk, orb_false_r.
    rewrite Hk'. cbn [andb]. apply IH. exact Hacc.
Qed.

Lemma members_ok_dict_set (k : pystr) (v : value) (acc : dict) :
  str_ok k = true -> value_ok v = true ->
  forallb (fun kv => str_ok (fst kv) && value_ok (snd kv)) acc = true ->
  forallb (fun kv => str_ok (fst kv) && value_ok (snd kv)) (dict_set k v acc) = true.
Proof.
  intros Hk Hv. induction acc as [|[k' v'] acc IH]; cbn [dict_set forallb fst snd].
  - intros _. rewrite Hk, Hv. reflexivity.
  - intros H. apply andb_prop in H. destruct H as [Hkv Hacc].
    apply andb_prop in Hkv. destruct Hkv as [Hk' Hv'].
    destruct (pystr_eqb k k'); cbn [forallb fst snd].
    + rewrite Hk', Hv, Hacc. reflexivity.
    + rewrite Hk', Hv', (IH Hacc). reflexivity.
Qed.

Lemma dict_set_ok (k : pystr) (v : value) (acc : dict) :
  str_ok k = true -> value_ok v = true ->
  value_ok (VDict acc) = true -> value_ok (VDict (dict_set k v acc)) = true.
Proof.
  intros Hk Hv Hacc. cbn [value_ok] in *. apply andb_prop in Hacc.
  destruct Hacc as [Hm Hd]. apply andb_true_intro. split.
  - apply members_ok_dict_set; assumption.
  - apply distinct_keys_dict_set. exact Hd.
Qed.

Lemma scanners_ok_all (f : nat) : scanners_ok f.
Proof.
  induction f as [|f [IHonce [IHmembers IHitems]]].
  { repeat split; discriminate. }
  split; [|split].
  - intros s v rest H Hdec. cbn [scan_once] in H.
    destruct s as [|c s']; [discriminate|].
    pose proof (decoded_tail _ _ Hdec) as Hdec'.
    destruct (c =? 34).
    { destruct (scanstring s') as [[t r]|] eqn:Hs; [|discriminate].
      inversion H; subst. destruct (scanstring_ok _ _ _ Hs Hdec') as [Hok [Hr _]].
      split; assumption. }
    destruct (c =? 123).
    { pose proof (skip_ws_decoded _ Hdec') as Hws.
      destruct (skip_ws s') as [|c' s'']; [discriminate|].
      destruct (c' =? 125).
      - inversion H; subst. split; [reflexivity|]. apply decoded_tail in Hws. exact Hws.
      - destruct (parse_members f [] (c' :: s'')) as [d r|] eqn:Hm; try discriminate.
        inversion H; subst. apply (IHmembers [] _ _ _ Hm Hws). reflexivity. }
    destruct (c =? 91).
    { pose proof (skip_ws_decoded _ Hdec') as Hws.
      destruct (skip_ws s') as [|c' s'']; [discriminate|].
      destruct (c' =? 93).
      - inversion H; subst. split; [reflexivity|]. apply decoded_tail in Hws. exact Hws.
      - destruct (parse_items f [] (c' :: s'')) as [l r|] eqn:Hi; try discriminate.
        inversion H; subst. apply (IHitems [] _ _ _ Hi Hws). reflexivity. }
    destruct (prefix_of (str "null") (c :: s')).
    { inversion H; subst. split; [reflexivity|].
      exact (skipn_decoded 4 (c :: s') Hdec). }
    destruct (prefix_of (str "true") (c :: s')).
    { inversion H; subst. split; [reflexivity|].
      exact (skipn_decoded 4 (c :: s') Hdec). }
    destruct (prefix_of (str "false") (c :: s')).
    { inversion H; subst. split; [reflexivity|].
      exact (skipn_decoded 5 (c :: s') Hdec). }
    destruct (prefix_of (str "NaN") (c :: s')).
    { inversion H; subst. split; [reflexivity|].
      exact (skipn_decoded 3 (c :: s') Hdec). }
    destruct (prefix_of (str "Infinity") (c :: s')).
    { inversion H; subst. split; [reflexivity|].
      exact (skipn_decoded 8 (c :: s') Hdec). }
    destruct (prefix_of (str "-Infinity") (c :: s')).
    { inversion H; subst. split; [reflexivity|].
      exact (skipn_decoded 9 (c :: s') Hdec). }
    apply match_number_ok with (s := c :: s'); assumption.
  - intros acc s d rest H Hdec Hacc. cbn [parse_members] in H.
    destruct s as [|c s1]; [discriminate|].
    destruct (c =? 34); [|discriminate].
    apply decoded_tail in Hdec.
    destruct (scanstring s1) as [[key s2]|] eqn:Hs; [|discriminate].
    destruct (scanstring_ok _ _ _ Hs Hdec) as [Hkey [Hs2 _]].
    apply skip_ws_decoded in Hs2.
    destruct (skip_ws s2) as [|c2 s3]; [discriminate|].
    destruct (c2 =? 58); [|discriminate].
    apply decoded_tail in Hs2. apply skip_ws_decoded in Hs2.
    destruct (scan_once f (skip_ws s3)) as [v s4|] eqn:Hv; try discriminate.
    destruct (IHonce _ _ _ Hv Hs2) as [Hvok Hs4].
    apply skip_ws_decoded in Hs4.
    destruct (skip_ws s4) as [|c4 s5]; [discriminate|].
    pose proof (dict_set_ok key v acc Hkey Hvok Hacc) as Hacc'.
    apply decoded_tail in Hs4.
    destruct (c4 =? 125).
    + inversion H; subst. split; assumption.
    + destruct (c4 =? 44); [|discriminate].
      apply (IHmembers _ _ _ _ H); [apply skip_ws_decoded; exact Hs4 | exact Hacc'].
  - intros acc s l rest H Hdec Hacc. cbn [parse_items] in H.
    destruct (scan_once f s) as [v s1|] eqn:Hv; try discriminate.
    destruct (IHonce _ _ _ Hv Hdec) as [Hvok Hs1].
    apply skip_ws_decoded in Hs1.
    destruct (skip_ws s1) as [|c s2]; [discriminate|].
    apply decoded_tail in Hs1.
    assert (Hacc' : value_ok (VList (acc ++ [v])) = true).
    { cbn [value_ok] in *. rewrite forallb_app, Hacc. cbn [forallb].
      rewrite Hvok. reflexivity. }
    destruct (c =? 93).
    + inversion H; subst. split; assumption.
    + destruct (c =? 44); [|discriminate].
      apply (IHitems _ _ _ _ H); [apply skip_ws_decoded; exact Hs1 | exact Hacc'].
Qed.

(** What [json.loads] builds from a decoded text can be written and read
    back. *)
Lemma loads_ok (s : pystr) (v : value) :
  decoded s = true -> loads s = Loaded v -> value_ok v = true.
Proof.
  intros Hdec. unfold loads. destruct (prefix_of [65279] s); [discriminate|].
  destruct (scan_once _ _) as [v' rest|] eqn:Hscan; try discriminate.
  destruct (skip_ws rest); [|discriminate]. intros H. inversion H; subst.
  destruct (scanners_ok_all (S (List.length s))) as [Honce _].
  apply (Honce _ _ _ Hscan). apply skip_ws_decoded. exact Hdec.
Qed.

Lemma scanstring_shorter (t : pystr) :
  forall s rest,
    scanstring s = Some (t, rest) -> (List.length rest < List.length s)%nat.
Proof.
  induction t as [|c0 t IH]; intros s rest Hscan;
    apply scanstring_scanned in Hscan; inversion Hscan; subst; cbn [List.length];
    try match goal with H : scanstring _ = Some (t, rest) |- _ =>
          apply IH in H; cbn [List.length] in H end; lia.
Qed.

Lemma skip_ws_length (s : pystr) : (List.length (skip_ws s) <= List.length s)%nat.
Proof.
  induction s as [|c s IH]; [reflexivity|]. cbn [skip_ws].
  destruct (is_ws c); cbn [List.length]; lia.
Qed.

Lemma scan_digits_length (a : N) (s : pystr) :
  (List.length (snd (scan_digits a s)) <= List.length s)%nat.
Proof.
  revert a. induction s as [|c s IH]; intros a; [reflexivity|].
  cbn [scan_digits]. destruct (is_digit c); [|reflexivity].
  specialize (IH (10 * a + (c - 48))). cbn [List.length]. lia.
Qed.

Lemma scan_digits_digit (a c : N) (s : pystr) :
  is_digit c = true ->
  (List.length (snd (scan_digits a (c :: s))) <= List.length s)%nat.
Proof.
  intros Hc. cbn [scan_digits]. rewrite Hc. apply scan_digits_length.
Qed.

Lemma match_number_shorter (s : pystr) (v : value) (rest : pystr) :
  match_number s = Parsed v rest -> (List.length rest < List.length s)%nat.
Proof.
  intros H. apply match_number_parsed in H. destruct H as [_ [c [p Hs]]].
  rewrite Hs. cbn [List.length]. rewrite length_app. lia.
Qed.

Lemma prefix_of_skipn (p s : pystr) :
  prefix_of p s = true ->
  (List.length (skipn (List.length p) s) + List.length p = List.length s)%nat.
Proof.
  revert s. induction p as [|x p IH]; intros s H; [cbn; lia|].
  destruct s as [|y s]; [discriminate|]. cbn [prefix_of] in H.
  apply andb_prop in H. destruct H as [_ H]. apply IH in H.
  cbn [List.length skipn]. lia.
Qed.

Lemma scanners_fuel (f : nat) :
  enough_fuel scan_once f
  /\ (forall acc, enough_fuel (fun f s => parse_members f acc s) f)
  /\ (forall acc, enough_fuel (fun f s => parse_items f acc s) f).
Proof.
  induction f as [|f [IHonce [IHmembers IHitems]]].
  { repeat split; discriminate. }
  split; [|split].
  - intros s v rest H. cbn [scan_once] in H.
    destruct s as [|c s']; [discriminate|].
    destruct (c =? 34) eqn:H34.
    { destruct (scanstring s') as [[t r]|] eqn:Hs; [|discriminate].
      inversion H; subst. apply scanstring_shorter in Hs as Hlen.
      split; [cbn [List.length]; lia|]. intros [|f'] Hf'; [cbn [List.length] in Hf'; lia|].
      cbn [scan_once]. rewrite H34, Hs. reflexivity. }
    destruct (c =? 123) eqn:H123.
    { pose proof (skip_ws_length s') as Hws.
      destruct (skip_ws s') as [|c' s''] eqn:Hskip; [discriminate|].
      cbn [List.length] in Hws.
      destruct (c' =? 125) eqn:H125.
      - inversion H; subst. split; [cbn [List.length]; lia|].
        intros [|f'] Hf'; [cbn [List.length] in Hf'; lia|].
        cbn [scan_once]. rewrite H34, H123, Hskip, H125. reflexivity.
      - destruct (parse_members f [] (c' :: s'')) as [d r|] eqn:Hm; try discriminate.
        inversion H; subst. destruct (IHmembers [] _ _ _ Hm) as [Hlen Hfuel].
        cbn [List.length] in Hlen. split; [cbn [List.length]; lia|].
        intros [|f'] Hf'; [cbn [List.length] in Hf'; lia|].
        cbn [scan_once]. rewrite H34, H123, Hskip, H125.
        cbn beta in Hfuel. rewrite Hfuel; [reflexivity|].
        cbn [List.length] in *. lia. }
    destruct (c =? 91) eqn:H91.
    { pose proof (skip_ws_length s') as Hws.
      destruct (skip_ws s') as [|c' s''] eqn:Hskip; [discriminate|].
      cbn [List.length] in Hws.
      destruct (c' =? 93) eqn:H93.
      - inversion H; subst. split; [cbn [List.length]; lia|].
        intros [|f'] Hf'; [cbn [List.length] in Hf'; lia|].
        cbn [scan_once]. rewrite H34, H123, H91, Hskip, H93. reflexivity.
      - destruct (parse_items f [] (c' :: s'')) as [l r|] eqn:Hi; try discriminate.
        inversion H; subst. destruct (IHitems [] _ _ _ Hi) as [Hlen Hfuel].
        cbn [List.length] in Hlen. split; [cbn [List.length]; lia|].
        intros [|f'] Hf'; [cbn [List.length] in Hf'; lia|].
        cbn [scan_once]. rewrite H34, H123, H91, Hskip, H93.
        cbn beta in Hfuel. rewrite Hfuel; [reflexivity|].
        cbn [List.length] in *. lia. }
    assert (Hrest : (List.length rest < List.length (c :: s'))%nat).
    { destruct (prefix_of (str "null") (c :: s')) eqn:Hp.
      { injection H as _ <-. apply prefix_of_skipn in Hp.
        change (List.length (str "null")) with 4%nat in Hp.
        change (List.length (skipn 4 (c :: s')) < List.length (c :: s'))%nat.
        lia. }
      destruct (prefix_of (str "true") (c :: s')) eqn:Hp1.
      { injection H as _ <-. apply prefix_of_skipn in Hp1.
        change (List.length (str "true")) with 4%nat in Hp1.
        change (List.length (skipn 4 (c :: s')) < List.length (c :: s'))%nat.
        lia. }
      destruct (prefix_of (str "false") (c :: s')) eqn:Hp2.
      { injection H as _ <-. apply prefix_of_skipn in Hp2.
        change (List.length (str "false")) with 5%nat in Hp2.
        change (List.length (skipn 5 (c :: s')) < List.length (c :: s'))%nat.
        lia. }
      destruct (prefix_of (str "NaN") (c :: s')) eqn:Hp3.
      { injection H as _ <-. apply prefix_of_skipn in Hp3.
        change (List.length (str "NaN")) with 3%nat in Hp3.
        change (List.length (skipn 3 (c :: s')) < List.length (c :: s'))%nat.
        lia. }
      destruct (prefix_of (str "Infinity") (c :: s')) eqn:Hp4.
      { injection H as _ <-. apply prefix_of_skipn in Hp4.
        change (List.length (str "Infinity")) with 8%nat in Hp4.
        change (List.length (skipn 8 (c :: s')) < List.length (c :: s'))%nat.
        lia. }
      destruct (prefix_of (str "-Infinity") (c :: s')) eqn:Hp5.
      { injection H as _ <-. apply prefix_of_skipn in Hp5.
        change (List.length (str "-Infinity")) with 9%nat in Hp5.
        change (List.length (skipn 9 (c :: s')) < List.length (c :: s'))%nat.
        lia. }
      apply match_number_shorter in H. exact H. }
    split; [exact Hrest|].
    intros [|f'] Hf'; [lia|].
    cbn [scan_once]. rewrite H34, H123, H91. exact H.
  - intros acc s d rest H. cbn beta in H. cbn [parse_members] in H.
    destruct s as [|c s1]; [discriminate|].
    destruct (c =? 34) eqn:H34; [|discriminate].
    destruct (scanstring s1) as [[key s2]|] eqn:Hs; [|discriminate].
    apply scanstring_shorter in Hs as Hlen2.
    pose proof (skip_ws_length s2) as Hws2.
    destruct (skip_ws s2) as [|c2 s3] eqn:Hskip2; [discriminate|].
    cbn [List.length] in Hws2.
    destruct (c2 =? 58) eqn:H58; [|discriminate].
    pose proof (skip_ws_length s3) as Hws3.
    destruct (scan_once f (skip_ws s3)) as [v s4|] eqn:Hv; try discriminate.
    destruct (IHonce _ _ _ Hv) as [Hlen4 Hfuel4].
    pose proof (skip_ws_length s4) as Hws4.
    destruct (skip_ws s4) as [|c4 s5] eqn:Hskip4; [discriminate|].
    cbn [List.length] in Hws4.
    destruct (c4 =? 125) eqn:H125.
    + inversion H; subst. split; [cbn [List.length]; lia|].
      intros [|f'] Hf'; [cbn [List.length] in Hf'; lia|].
      cbn [parse_members]. rewrite H34, Hs, Hskip2, H58.
      rewrite Hfuel4 by (cbn [List.length] in Hf'; lia).
      rewrite Hskip4, H125. reflexivity.
    + destruct (c4 =? 44) eqn:H44; [|discriminate].
      pose proof (skip_ws_length s5) as Hws5.
      destruct (IHmembers _ _ _ _ H) as [Hlen Hfuel]. cbn beta in Hfuel.
      split; [cbn [List.length]; lia|].
      intros [|f'] Hf'; [cbn [List.length] in Hf'; lia|].
      cbn [parse_members]. rewrite H34, Hs, Hskip2, H58.
      rewrite Hfuel4 by (cbn [List.length] in Hf'; lia).
      rewrite Hskip4, H125, H44.
      apply Hfuel. cbn [List.length] in Hf'. lia.
  - intros acc s l rest H. cbn beta in H. cbn [parse_items] in H.
    destruct (scan_once f s) as [v s1|] eqn:Hv; try discriminate.
    destruct (IHonce _ _ _ Hv) as [Hlen1 Hfuel1].
    pose proof (skip_ws_length s1) as Hws1.
    destruct (skip_ws s1) as [|c s2] eqn:Hskip1; [discriminate|].
    cbn [List.length] in Hws1.
    destruct (c =? 93) eqn:H93.
    + inversion H; subst. split; [lia|].
      intros [|f'] Hf'; [lia|].
      cbn [parse_items]. rewrite Hfuel1 by lia. rewrite Hskip1, H93. reflexivity.
    + destruct (c =? 44) eqn:H44; [|discriminate].
      pose proof (skip_ws_length s2) as Hws2.
      destruct (IHitems _ _ _ _ H) as [Hlen Hfuel]. cbn beta in Hfuel.
      split; [lia|].
      intros [|f'] Hf'; [lia|].
      cbn [parse_items]. rewrite Hfuel1 by lia. rewrite Hskip1, H93, H44.
      apply Hfuel. lia.
Qed.

(** The fuel [json.loads] gives [scan_once] is enough: a term that any fuel
    reads is read with the length of the text. *)
Lemma scan_once_fuel (f : nat) (s : pystr) (v : value) (rest : pystr) :
  scan_once f s = Parsed v rest ->
  scan_once (List.length s) s = Parsed v rest.
Proof.
  intros H. destruct (scanners_fuel f) as [Honce _].
  destruct (Honce _ _ _ H) as [_ Hfuel]. apply Hfuel. lia.
Qed.

(** [json.loads] reports no error for want of fuel: when some fuel reads a
    term, [loads] reads that term. *)
Lemma loads_fuel (f : nat) (s : pystr) (v : value) (rest : pystr) :
  prefix_of [0xfeff] s = false ->
  scan_once f (skip_ws s) = Parsed v rest ->
  loads s = match skip_ws rest with
            | [] => Loaded v
            | _ :: _ => DecodeError
            end.
Proof.
  intros Hbom H. unfold loads. rewrite Hbom.
  destruct (scanners_fuel f) as [Honce _].
  destruct (Honce _ _ _ H) as [_ Hfuel].
  rewrite Hfuel; [reflexivity|].
  pose proof (skip_ws_length s). lia.
Qed.

(** Numbers with a fraction or an exponent are read as floats. *)
Example loads_floats :
  loads (str "[1.5e3, -0.25, 1E+2, 7, NaN]") =
  Loaded (VList [VFloat (str "1.5e3"); VFloat (str "-0.25");
                 VFloat (str "1E+2"); VInt 7%Z; VFloat (str "NaN")]).
Proof. vm_compute. reflexivity. Qed.

(** A point or an [e] with no digit after it does not belong to the number,
    and neither does a digit after a leading [0]. *)
Example loads_bad_numbers :
  loads (str "1.") = DecodeError /\ loads (str "1e+") = DecodeError
  /\ loads (str "01") = DecodeError.
Proof. repeat split; vm_compute; reflexivity. Qed.

End JsonFacts.

(** ** The monad and the requests *)

Lemma set_clock_net_twice (w : world) (t t' : Z) (n n' : list answer) :
  set_clock_net (set_clock_net w t n) t' n' = set_clock_net w t' n'.
Proof. reflexivity. Qed.


Lemma bind_emit {B} (e : event) (k : unit -> M B) (w : world) :
  bind (emit e) k w = (e :: fst (k tt w), snd (k tt w)).
Proof. unfold bind, emit. destruct (k tt w) as [t r]. reflexivity. Qed.

Lemma bind_lift_return {A B} (a : A) (f : A -> M B) (w : world) :
  bind (lift (Return a)) f w = f a w.
Proof. unfold bind, lift. destruct (f a w) as [t r]. reflexivity. Qed.


Lemma prefixed_pair {A} (t t' : trace) (r : result A) :
  prefixed t (t', r) = (t ++ t', r).
Proof. reflexivity. Qed.

Lemma prefixed_prefixed {A} (t1 t2 : trace) (x : trace * result A) :
  prefixed t1 (prefixed t2 x) = prefixed (t1 ++ t2) x.
Proof. unfold prefixed. cbn [fst snd]. rewrite app_assoc. reflexivity. Qed.

Lemma bind_emit_prefixed {B} (e : event) (k : unit -> M B) (w : world) :
  bind (emit e) k w = prefixed [e] (k tt w).
Proof. unfold bind, emit, prefixed. destruct (k tt w) as [t r]. reflexivity. Qed.

Lemma bind_run {A B} (m : M A) (f : A -> M B) (w : world) t a w1 :
  m w = (t, Return (a, w1)) -> bind m f w = prefixed t (f a w1).
Proof.
  intros H. unfold bind, prefixed. rewrite H. destruct (f a w1). reflexivity.
Qed.

Lemma bind_raises {A B} (m : M A) (f : A -> M B) (w : world) t x :
  m w = (t, Raise x) -> bind m f w = (t, Raise x).
Proof. intros H. unfold bind. rewrite H. reflexivity. Qed.

Lemma prints_run (src : script) (ns : list N) (w : world) :
  prints src ns w = (map (fun n => Print (Line src n [])) ns, Return (tt, w)).
Proof.
  revert w. induction ns as [|n ns IH]; intros w; [reflexivity|].
  cbn [prints map]. unfold print. rewrite bind_emit_prefixed.
  rewrite IH. reflexivity.
Qed.

Lemma bind_prints {B} (src : script) (ns : list N) (k : unit -> M B) (w : world) :
  bind (prints src ns) k w =
  prefixed (map (fun n => Print (Line src n [])) ns) (k tt w).
Proof. apply bind_run. apply prints_run. Qed.

(** ** The polling loop *)

Section Polling.
Import GetCopilotToken.

Lemma make_request_run host path data hdrs method (w : world) a rest sent :
  net w = a :: rest ->
  given data = Return sent ->
  putheaders (match hdrs with None => default_headers | Some h => h end) =
    Return tt ->
  make_request host path data hdrs method w =
  ([Send (now w)
      {| host := host; path := path; method := method;
         headers := match hdrs with None => default_headers | Some h => h end;
         body := if sent then data else None |}],
   with_world (read_json (reply a)) (answered w a rest)).
Proof.
  intros Hnet Hsent Hput. unfold make_request. fold (given data). rewrite Hsent.
  rewrite bind_lift_return. unfold bind, https. cbn [headers].
  rewrite Hput, Hnet.
  destruct (reply a) as [| |[|c txt]]; try reflexivity.
  simpl. unfold lift, read_json. destruct (json_loads (c :: txt)); reflexivity.
Qed.

Lemma make_request_down host path data hdrs method (w : world) sent :
  net w = [] ->
  given data = Return sent ->
  putheaders (match hdrs with None => default_headers | Some h => h end) =
    Return tt ->
  make_request host path data hdrs method w =
  ([Send (now w)
      {| host := host; path := path; method := method;
         headers := match hdrs with None => default_headers | Some h => h end;
         body := if sent then data else None |}],
   Raise NetworkError).
Proof.
  intros Hnet Hsent Hput. unfold make_request. fold (given data). rewrite Hsent.
  rewrite bind_lift_return. unfold bind, https. cbn [headers].
  rewrite Hput, Hnet. reflexivity.
Qed.

(** A request [conn.request] refuses: nothing is sent. *)
Lemma make_request_refused host path data hdrs method (w : world) :
  putheaders (match hdrs with None => default_headers | Some h => h end) <>
    Return tt ->
  fst (make_request host path data hdrs method w) = []
  /\ forall v w1,
       snd (make_request host path data hdrs method w) <> Return (v, w1).
Proof.
  intros Hput. unfold make_request. fold (given data).
  destruct (given data) as [sent|x|]; [|split; [reflexivity | discriminate]..].
  rewrite bind_lift_return. unfold bind, https. cbn [headers].
  destruct (putheaders _) as [[]|x|]; [contradiction|..];
    split; try reflexivity; discriminate.
Qed.

Lemma truthy_total (v : value) (x : exn) : truthy v <> Raise x.
Proof. destruct v; discriminate. Qed.

Lemma poll_loop_unfold f device_code interval expires_in start_time :
  poll_loop (S f) device_code interval expires_in start_time =
  (t <- time_time ;;
   running <- lift (lt_number (t - start_time) expires_in) ;;
   if running : bool then
     time_sleep interval ;;
     result <- poll_for_token device_code ;;
     handle_result (poll_loop f device_code interval expires_in start_time) result
   else ret VNone).
Proof. reflexivity. Qed.

(** One cycle of the loop: the sleep, the poll, and what the answer leads
    to. *)
Lemma poll_loop_step f device_code interval expires_in start_time w i a rest :
  cycle interval expires_in start_time w i a rest ->
  poll_loop (S f) device_code interval expires_in start_time w =
  match read_json (reply a) with
  | Return result =>
      let r := handle_result
                 (poll_loop f device_code interval expires_in start_time)
                 result (after_cycle w i a rest) in
      (cycle_events device_code w i a ++ fst r, snd r)
  | Raise x => (cycle_events device_code w i a, Raise x)
  | Unmodelled => (cycle_events device_code w i a, Unmodelled)
  end.
Proof.
  intros [[e [He Hlt]] [Hi [Hi0 Himax]] Hnet].
  rewrite poll_loop_unfold. unfold time_time at 1. unfold bind at 1.
  unfold lt_number. rewrite He.
  apply Z.ltb_lt in Hlt. rewrite Hlt. rewrite bind_lift_return.
  unfold bind at 1. unfold time_sleep. rewrite Hi.
  replace ((i <? - max_sleep) || (max_sleep <? i)) with false
    by (symmetry; apply orb_false_intro;
        [apply Z.ltb_ge; unfold max_sleep; lia | apply Z.ltb_ge; exact Himax]).
  apply Z.ltb_ge in Hi0. rewrite Hi0. rewrite Hnet.
  unfold poll_for_token. unfold bind at 1.
  rewrite (make_request_run _ _ _ _ _ _ a rest true) by reflexivity.
  destruct (read_json (reply a)) as [v|x|]; cbn [with_world]; try reflexivity.
  unfold answered. rewrite set_clock_net_twice. cbn [now].
  fold (after_cycle w i a rest).
  destruct (handle_result _ v _) as [t r]. reflexivity.
Qed.

(** What [handle_result] does with a dict. *)
Lemma handle_result_dict (continue : M value) (d : dict) (w : world) :
  handle_result continue (VDict d) w =
  match lookup (str "access_token") d with
  | Some github_token =>
      ([Print (Line Copilot 125 [])], Return (github_token, w))
  | None =>
      let error := match lookup (str "error") d with Some x => x | None => VNone end in
      if eq_str error (str "authorization_pending") then
        (Print (Line Copilot 128 []) :: fst (continue w), snd (continue w))
      else
        match truthy error with
        | Return true =>
            ([Print (Line Copilot 130 []);
              Print (Line Copilot 131
                       [match lookup (str "error_description") d with
                        | Some x => x
                        | None => error
                        end])],
             Raise (SystemExit 1))
        | Return false => continue w
        | Raise x => ([], Raise x)
        | Unmodelled => ([], Unmodelled)
        end
  end.
Proof.
  unfold handle_result. cbn [py_in].
  destruct (lookup (str "access_token") d) as [tok|] eqn:Htok.
  - rewrite bind_lift_return. cbn [getitem]. rewrite Htok. rewrite bind_lift_return.
    unfold print. rewrite bind_emit. reflexivity.
  - rewrite bind_lift_return. cbn [py_get]. rewrite bind_lift_return.
    set (error := match lookup (str "error") d with Some x => x | None => VNone end).
    destruct (eq_str error (str "authorization_pending")).
    + unfold print. rewrite bind_emit. reflexivity.
    + destruct (truthy error) as [[|]|x|] eqn:Htr; try reflexivity;
        rewrite bind_lift_return; [|reflexivity].
      unfold print. rewrite bind_emit. cbn [getitem].
      destruct (lookup (str "error") d) as [x|] eqn:Herr.
      * rewrite bind_lift_return. rewrite bind_lift_return. rewrite bind_emit.
        reflexivity.
      * subst error. discriminate.
Qed.

(** What [handle_result] does with a JSON term that is not an object. *)
Lemma handle_result_not_dict (continue : M value) (v : value) (w : world) :
  (forall d, v <> VDict d) ->
  exists x, (x = TypeError \/ x = AttributeError) /\
    handle_result continue v w = ([], Raise x).
Proof.
  intros Hv. unfold handle_result.
  destruct v as [| b | n | literal | s | l | d]; cbn [py_in];
    try (exists TypeError; split; [left; reflexivity | reflexivity]).
  - rewrite bind_lift_return.
    destruct (substring (str "access_token") s).
    + exists TypeError; split; [left; reflexivity | reflexivity].
    + exists AttributeError; split; [right; reflexivity | reflexivity].
  - rewrite bind_lift_return.
    destruct (existsb _ l).
    + exists TypeError; split; [left; reflexivity | reflexivity].
    + exists AttributeError; split; [right; reflexivity | reflexivity].
  - exfalso. apply (Hv d). reflexivity.
Qed.

Lemma poll_loop_deadline f device_code interval expires_in start_time w e :
  as_number expires_in = Return e ->
  e <= now w - start_time ->
  poll_loop (S f) device_code interval expires_in start_time w =
  ([], Return (VNone, w)).
Proof.
  intros He Hle. rewrite poll_loop_unfold. unfold time_time at 1. unfold bind at 1.
  unfold lt_number. rewrite He. apply Z.ltb_ge in Hle. rewrite Hle.
  rewrite bind_lift_return. reflexivity.
Qed.

Lemma handle_result_ext (k1 k2 : M value) (v : value) (w : world) :
  k1 w = k2 w -> handle_result k1 v w = handle_result k2 v w.
Proof.
  intros Hk. destruct v as [| b | n | literal | s | l | d].
  - reflexivity.
  - reflexivity.
  - reflexivity.
  - reflexivity.
  - unfold handle_result. cbn [py_in]. rewrite !bind_lift_return.
    destruct (substring _ s); reflexivity.
  - unfold handle_result. cbn [py_in]. rewrite !bind_lift_return.
    destruct (existsb _ l); reflexivity.
  - rewrite !handle_result_dict. rewrite Hk. reflexivity.
Qed.

Lemma bind_ext {A B} (m : M A) (f g : A -> M B) (w : world) :
  (forall a w1, snd (m w) = Return (a, w1) -> f a w1 = g a w1) ->
  bind m f w = bind m g w.
Proof.
  intros H. unfold bind. destruct (m w) as [t1 [[a w1]|x|]]; try reflexivity.
  rewrite (H a w1 eq_refl). reflexivity.
Qed.

Lemma lift_world {A} (r : result A) (w : world) a w1 :
  snd (lift r w) = Return (a, w1) -> w1 = w.
Proof. destruct r; simpl; congruence. Qed.

Lemma time_sleep_net (secs : value) (w : world) a w1 :
  snd (time_sleep secs w) = Return (a, w1) -> net w1 = net w.
Proof.
  unfold time_sleep. destruct (as_number secs) as [i|x|]; try discriminate.
  destruct ((i <? - max_sleep) || (max_sleep <? i)); [discriminate|].
  destruct (i <? 0); [discriminate|]. simpl. intros H. inversion H. reflexivity.
Qed.

Lemma make_request_net host path data hdrs method (w : world) v w1 :
  snd (make_request host path data hdrs method w) = Return (v, w1) ->
  S (List.length (net w1)) = List.length (net w).
Proof.
  destruct (putheaders (match hdrs with None => default_headers | Some h => h end))
    as [[]|x|] eqn:Hput;
    [|intros H;
      destruct (make_request_refused host path data hdrs method w) as [_ Hno];
      [rewrite Hput; discriminate | destruct (Hno _ _ H)]..].
  destruct (given data) as [sent|x|] eqn:Hsent.
  - destruct (net w) as [|a rest] eqn:Hnet.
    + rewrite (make_request_down _ _ _ _ _ _ sent) by assumption. discriminate.
    + rewrite (make_request_run _ _ _ _ _ _ a rest sent) by assumption.
      destruct (read_json (reply a)); simpl; try discriminate.
      intros H. inversion H. reflexivity.
  - unfold make_request. fold (given data). rewrite Hsent. discriminate.
  - unfold make_request. fold (given data). rewrite Hsent. discriminate.
Qed.

(** The fuel of [poll_until] is never used up: any fuel above the number of
    scripted answers gives the same run. *)
Lemma poll_loop_fuel device_code interval expires_in start_time f1 :
  forall f2 w,
    (List.length (net w) < f1)%nat -> (List.length (net w) < f2)%nat ->
    poll_loop f1 device_code interval expires_in start_time w =
    poll_loop f2 device_code interval expires_in start_time w.
Proof.
  induction f1 as [|f1 IH]; intros f2 w H1 H2; [lia|].
  destruct f2 as [|f2]; [lia|].
  rewrite !poll_loop_unfold.
  apply bind_ext. intros t w1 Ht. simpl in Ht. inversion Ht; subst t w1. clear Ht.
  apply bind_ext. intros running w2 Hr. apply lift_world in Hr. subst w2.
  destruct running; [|reflexivity].
  apply bind_ext. intros [] w3 Hs. apply time_sleep_net in Hs.
  apply bind_ext. intros result w4 Hp. apply make_request_net in Hp.
  rewrite Hs in Hp. apply handle_result_ext. apply IH; lia.
Qed.

(** The loop on answers that say [authorization_pending] runs the cycles of
    [cycles] and leaves without a token. *)
Lemma cycles_run device_code interval expires_in start_time e i :
  as_number expires_in = Return e ->
  as_number interval = Return i ->
  0 <= i <= max_sleep ->
  forall t answers tr,
    cycles device_code start_time e i t answers tr ->
    forall f w,
      now w = t ->
      net w = answers ->
      (List.length answers < f)%nat ->
      Forall pending answers ->
      exists w',
        poll_loop f device_code interval expires_in start_time w =
        (tr, Return (VNone, w')).
Proof.
  intros He Hi Hi0.
  induction 1 as [t answers Hdone | t a answers tr Hrun Hcyc IH];
    intros f w Hnow Hnet Hf Hall.
  - destruct f as [|f]; [lia|]. exists w.
    apply poll_loop_deadline with (e := e); [assumption | lia].
  - destruct f as [|f]; [lia|].
    inversion Hall as [|a' l' Ha Hrest]; subst a' l'.
    destruct Ha as [Ho [Hl [d [Hread [Htok Herr]]]]].
    assert (Hc : cycle interval expires_in start_time w i a answers).
    { split; [exists e; split; [assumption | lia] | split; assumption
             | assumption]. }
    destruct (IH f (after_cycle w i a answers)) as [w' Hrun'].
    + cbn [now after_cycle set_clock_net]. lia.
    + reflexivity.
    + cbn [List.length] in Hf. lia.
    + assumption.
    + exists w'. rewrite (poll_loop_step _ _ _ _ _ _ _ _ _ Hc). rewrite Hread.
      cbv zeta. rewrite handle_result_dict. rewrite Htok, Herr.
      cbv zeta. cbn [eq_str]. rewrite pystr_eqb_refl.
      rewrite Hrun'. subst t. reflexivity.
Qed.

Lemma poll_loop_opens f device_code interval expires_in start_time w i a rest :
  cycle interval expires_in start_time w i a rest ->
  exists more,
    fst (poll_loop (S f) device_code interval expires_in start_time w) =
    cycle_events device_code w i a ++ more.
Proof.
  intros Hc. rewrite (poll_loop_step _ _ _ _ _ _ _ _ _ Hc).
  destruct (read_json (reply a)) as [v|x|].
  - cbv zeta. eexists. reflexivity.
  - exists []. symmetry. apply app_nil_r.
  - exists []. symmetry. apply app_nil_r.
Qed.

(** C1 (amended).  In a cycle whose answer is an object without
    [access_token]: if its [error] is [authorization_pending] the loop prints
    a dot and goes back to its deadline check; otherwise, if its [error] is
    truthy, the loop ends at once: the provider's [error_description], or
    the [error] itself when there is none, is printed and the script exits
    with status 1; otherwise (no [error], or a falsy one) the loop goes back
    to its deadline check without a word.  (The truth value of a float is
    outside the model.) *)
Theorem poll_error_handling f device_code interval expires_in start_time
    w i a rest d :
  cycle interval expires_in start_time w i a rest ->
  read_json (reply a) = Return (VDict d) ->
  lookup (str "access_token") d = None ->
  let error := match lookup (str "error") d with Some x => x | None => VNone end in
  let continue :=
    poll_loop f device_code interval expires_in start_time
      (after_cycle w i a rest) in
  poll_loop (S f) device_code interval expires_in start_time w =
  if eq_str error (str "authorization_pending") then
    (cycle_events device_code w i a ++ Print (Line Copilot 128 []) :: fst continue,
     snd continue)
  else
    match truthy error with
    | Return true =>
        (cycle_events device_code w i a ++
           [Print (Line Copilot 130 []);
            Print (Line Copilot 131
                     [match lookup (str "error_description") d with
                      | Some description => description
                      | None => error
                      end])],
         Raise (SystemExit 1))
    | Return false =>
        (cycle_events device_code w i a ++ fst continue, snd continue)
    | _ => (cycle_events device_code w i a, Unmodelled)
    end.
Proof.
  intros Hc Hread Htok error continue.
  rewrite (poll_loop_step _ _ _ _ _ _ _ _ _ Hc). rewrite Hread. cbv zeta.
  rewrite handle_result_dict. rewrite Htok. fold error. fold continue.
  cbv zeta.
  destruct (eq_str error (str "authorization_pending")); [reflexivity|].
  destruct (truthy error) as [[|]|x|] eqn:Htruthy.
  - reflexivity.
  - destruct continue. reflexivity.
  - destruct (truthy_total _ _ Htruthy).
  - cbn [fst snd]. rewrite app_nil_r. reflexivity.
Qed.

(** C3.  In a cycle whose answer is an object with an [access_token], the
    loop ends in that cycle: after the one sleep and the one poll of the
    cycle it prints that the token is received and leaves with the value of
    [access_token] as it came, whatever that value is; nothing more is slept
    or sent. *)
Theorem poll_access_token f device_code interval expires_in start_time
    w i a rest d github_token :
  cycle interval expires_in start_time w i a rest ->
  read_json (reply a) = Return (VDict d) ->
  lookup (str "access_token") d = Some github_token ->
  poll_loop (S f) device_code interval expires_in start_time w =
  (cycle_events device_code w i a ++ [Print (Line Copilot 125 [])],
   Return (github_token, after_cycle w i a rest)).
Proof.
  intros Hc Hread Htok.
  rewrite (poll_loop_step _ _ _ _ _ _ _ _ _ Hc).
  rewrite Hread. cbv zeta. rewrite handle_result_dict. rewrite Htok.
  reflexivity.
Qed.

(** C10.  In a cycle whose answer is an object with neither [access_token]
    nor [error], the loop prints nothing, raises nothing and goes on: its
    run is the sleep and the poll of this cycle followed by the run of the
    loop from the world after the cycle, which, the deadline permitting,
    opens with the next sleep and the next poll.  An empty body is read as
    such an object. *)
Theorem poll_neither_field f device_code interval expires_in start_time
    w i a rest d :
  cycle interval expires_in start_time w i a rest ->
  read_json (reply a) = Return (VDict d) ->
  lookup (str "access_token") d = None ->
  lookup (str "error") d = None ->
  let w' := after_cycle w i a rest in
  let continue := poll_loop (S f) device_code interval expires_in start_time w' in
  poll_loop (S (S f)) device_code interval expires_in start_time w =
    (cycle_events device_code w i a ++ fst continue, snd continue)
  /\ (forall i' a' rest',
        cycle interval expires_in start_time w' i' a' rest' ->
        exists more, fst continue = cycle_events device_code w' i' a' ++ more)
  /\ read_json (Body []) = Return (VDict []).
Proof.
  intros Hc Hread Htok Herr w' continue. split; [|split].
  - rewrite (poll_loop_step _ _ _ _ _ _ _ _ _ Hc). rewrite Hread. cbv zeta.
    rewrite handle_result_dict. rewrite Htok, Herr. reflexivity.
  - intros i' a' rest' Hc'. apply poll_loop_opens with (rest := rest'). exact Hc'.
  - reflexivity.
Qed.

(** C7 (amended).  In a cycle whose poll fails -- the connection fails, the
    body is not UTF-8, or the body is not empty and is not JSON -- the loop
    ends at once with the exception of the failure, which nothing in the
    script catches and which is not the [SystemExit] of a provider error; a
    JSON term that is not an object ends it with [TypeError] or
    [AttributeError].  An empty body however is read as the empty object and
    the loop goes on without a word. *)
Theorem poll_transport_failure f device_code interval expires_in start_time
    w i a rest :
  cycle interval expires_in start_time w i a rest ->
  let run := poll_loop (S f) device_code interval expires_in start_time w in
  let continue :=
    poll_loop f device_code interval expires_in start_time
      (after_cycle w i a rest) in
  match reply a with
  | ConnectionFails => run = (cycle_events device_code w i a, Raise NetworkError)
  | BadEncoding => run = (cycle_events device_code w i a, Raise UnicodeDecodeError)
  | Body [] => run = (cycle_events device_code w i a ++ fst continue, snd continue)
  | Body data =>
      match Json.loads data with
      | Json.DecodeError =>
          run = (cycle_events device_code w i a, Raise JSONDecodeError)
      | Json.Loaded (VDict d) =>
          let r := handle_result
                     (poll_loop f device_code interval expires_in start_time)
                     (VDict d) (after_cycle w i a rest) in
          run = (cycle_events device_code w i a ++ fst r, snd r)
      | Json.Loaded _ =>
          run = (cycle_events device_code w i a, Raise TypeError) \/
          run = (cycle_events device_code w i a, Raise AttributeError)
      end
  end.
Proof.
  intros Hc run continue. subst run.
  rewrite (poll_loop_step _ _ _ _ _ _ _ _ _ Hc).
  destruct (reply a) as [| | [|c data]]; cbn [read_json]; try reflexivity.
  - cbv zeta. rewrite handle_result_dict. reflexivity.
  - unfold json_loads.
    destruct (Json.loads (c :: data)) as [v|]; [|reflexivity].
    assert (Hnd : (forall d, v <> VDict d) ->
                  (let r := handle_result
                        (poll_loop f device_code interval expires_in start_time)
                        v (after_cycle w i a rest) in
                   (cycle_events device_code w i a ++ fst r, snd r)) =
                  (cycle_events device_code w i a, Raise TypeError) \/
                  (let r := handle_result
                        (poll_loop f device_code interval expires_in start_time)
                        v (after_cycle w i a rest) in
                   (cycle_events device_code w i a ++ fst r, snd r)) =
                  (cycle_events device_code w i a, Raise AttributeError)).
    { intros Hv.
      destruct (handle_result_not_dict
                  (poll_loop f device_code interval expires_in start_time)
                  v (after_cycle w i a rest) Hv) as [x [[->| ->] Hx]];
        rewrite Hx; cbn [fst snd]; rewrite app_nil_r; [left|right]; reflexivity. }
    destruct v; try (apply Hnd; intros d' Hd'; discriminate). reflexivity.
Qed.

(** C2 (amended).  On answers that say [authorization_pending] and take no
    negative time, with an interval [time.sleep] accepts, in every run that
    reaches the deadline while answers keep coming -- whether the time went
    in sleeping, in oversleeping or in waiting for the answers --: every
    cycle of the loop is entered at a deadline check that reads less than
    [expires_in], its poll is sent [interval] seconds or more after that
    check, and at the first check that reads [expires_in] or more the loop
    stops without another sleep or poll and the script exits with the
    timeout message.  The run is the one [cycles] describes. *)
Theorem poll_deadline device_code interval expires_in start_time e i w tr :
  as_number expires_in = Return e ->
  as_number interval = Return i ->
  0 <= i <= max_sleep ->
  Forall pending (net w) ->
  cycles device_code start_time e i (now w) (net w) tr ->
  (received <- poll_until device_code interval expires_in start_time ;;
   require_token received) w =
  (tr ++ timeout_exit, Raise (SystemExit 1)).
Proof.
  intros He Hi Hi0 Hall Hcyc.
  destruct (cycles_run device_code interval expires_in start_time e i He Hi Hi0
              (now w) (net w) tr Hcyc (S (List.length (net w))) w eq_refl eq_refl
              (Nat.lt_succ_diag_r _) Hall) as [w' Hrun].
  unfold bind at 1. unfold poll_until. rewrite Hrun.
  reflexivity.
Qed.

Lemma poll_error_handling_witness :
  poll_loop 2 sample_code (VInt 5) (VInt 900) 0 (quiet [says_denied; says_token]) =
  ([Sleep 5; Send 5 (poll_request sample_code);
    Print (Line Copilot 130 []);
    Print (Line Copilot 131 [VStr (str "The authorization request was denied.")])],
   Raise (SystemExit 1)).
Proof.
  refine (poll_error_handling 1 sample_code (VInt 5) (VInt 900) 0
            (quiet [says_denied; says_token]) 5 says_denied [says_token]
            [(str "error", VStr (str "access_denied"));
             (str "error_description",
              VStr (str "The authorization request was denied."))]
            _ _ _).
  - at_loop_head 900.
  - reflexivity.
  - reflexivity.
Defined.

(** C1 as stated fails: the answer [{"error": null}] has no [access_token]
    and an [error] other than [authorization_pending], and the loop does not
    end: it sleeps and polls again, and returns the token of the next
    answer. *)
Lemma poll_error_null_retried :
  let d := [(str "error", VNone)] in
  lookup (str "access_token") d = None /\
  eq_str VNone (str "authorization_pending") = false /\
  poll_until sample_code (VInt 5) (VInt 900) 0 (quiet [says (VDict d); says_token]) =
  ([Sleep 5; Send 5 (poll_request sample_code);
    Sleep 5; Send 10 (poll_request sample_code);
    Print (Line Copilot 125 [])],
   Return (VStr (str "gho_sample_token"),
           set_clock_net (quiet []) 10 [])).
Proof. repeat split. Qed.

Lemma poll_access_token_witness :
  poll_loop 3 sample_code (VInt 5) (VInt 900) 0
    (quiet [says_token; says_pending]) =
  ([Sleep 5; Send 5 (poll_request sample_code); Print (Line Copilot 125 [])],
   Return (VStr (str "gho_sample_token"),
           set_clock_net (quiet []) 5 [says_pending])).
Proof.
  refine (poll_access_token 2 sample_code (VInt 5) (VInt 900) 0
            (quiet [says_token; says_pending]) 5 says_token [says_pending]
            [(str "access_token", VStr (str "gho_sample_token"));
             (str "token_type", VStr (str "bearer"))]
            (VStr (str "gho_sample_token")) _ _ _).
  - at_loop_head 900.
  - reflexivity.
  - reflexivity.
Defined.

(** The empty string is such a value: the loop leaves with it, and it is
    the check after the loop (line 134) that takes it for no token. *)
Example poll_empty_token :
  let d := [(str "access_token", VStr [])] in
  poll_until sample_code (VInt 5) (VInt 900) 0 (quiet [says (VDict d)]) =
  ([Sleep 5; Send 5 (poll_request sample_code); Print (Line Copilot 125 [])],
   Return (VStr [], set_clock_net (quiet []) 5 []))
  /\ require_token (VStr []) (set_clock_net (quiet []) 5 []) =
     (timeout_exit, Raise (SystemExit 1)).
Proof. split; reflexivity. Qed.

Lemma poll_neither_field_witness :
  poll_loop 2 sample_code (VInt 5) (VInt 900) 0 (quiet [says (VDict []); says_token]) =
  ([Sleep 5; Send 5 (poll_request sample_code);
    Sleep 5; Send 10 (poll_request sample_code);
    Print (Line Copilot 125 [])],
   Return (VStr (str "gho_sample_token"),
           set_clock_net (quiet []) 10 [])).
Proof.
  refine (proj1 (poll_neither_field 0 sample_code (VInt 5) (VInt 900) 0
                   (quiet [says (VDict []); says_token]) 5 (says (VDict []))
                   [says_token] [] _ _ _ _)).
  - at_loop_head 900.
  - reflexivity.
  - reflexivity.
  - reflexivity.
Defined.

Lemma poll_transport_failure_witness :
  poll_loop 2 sample_code (VInt 5) (VInt 900) 0 (quiet [says_garbage; says_token]) =
  ([Sleep 5; Send 5 (poll_request sample_code)], Raise JSONDecodeError).
Proof.
  refine (poll_transport_failure 1 sample_code (VInt 5) (VInt 900) 0
            (quiet [says_garbage; says_token]) 5 says_garbage [says_token] _).
  at_loop_head 900.
Defined.

(** C7 as stated fails: an empty body is not JSON, and the loop takes it
    for the empty object: nothing is raised or printed, and the loop sleeps
    and polls again. *)
Lemma poll_empty_body_retried :
  Json.loads [] = Json.DecodeError /\
  poll_until sample_code (VInt 5) (VInt 900) 0 (quiet [says_nothing; says_token]) =
  ([Sleep 5; Send 5 (poll_request sample_code);
    Sleep 5; Send 10 (poll_request sample_code);
    Print (Line Copilot 125 [])],
   Return (VStr (str "gho_sample_token"),
           set_clock_net (quiet []) 10 [])).
Proof. split; vm_compute; reflexivity. Qed.

Lemma says_slowly_pending : pending says_slowly.
Proof.
  split; [cbn; lia|]. split; [cbn; lia|].
  exists [(str "error", VStr (str "authorization_pending"))].
  repeat split.
Defined.

Lemma says_pending_pending : pending says_pending.
Proof.
  split; [cbn; lia|]. split; [cbn; lia|].
  exists [(str "error", VStr (str "authorization_pending"))].
  repeat split.
Defined.

Lemma poll_deadline_witness :
  (received <- poll_until sample_code (VInt 5) (VInt 10) 0 ;;
   require_token received) (quiet [says_slowly; says_pending]) =
  ([Sleep 5; Send 5 (poll_request sample_code); Print (Line Copilot 128 [])] ++
   timeout_exit,
   Raise (SystemExit 1)).
Proof.
  refine (poll_deadline sample_code (VInt 5) (VInt 10) 0 10 5
            (quiet [says_slowly; says_pending])
            [Sleep 5; Send 5 (poll_request sample_code);
             Print (Line Copilot 128 [])] _ _ _ _ _).
  - reflexivity.
  - reflexivity.
  - unfold max_sleep. lia.
  - apply Forall_cons; [apply says_slowly_pending|].
    apply Forall_cons; [apply says_pending_pending | apply Forall_nil].
  - apply (cycles_poll sample_code 0 10 5 0 says_slowly [says_pending] []);
      [lia|]. apply cycles_stop. cbn. lia.
Defined.

(** C2 as stated fails: with [interval = 5] and [expires_in = 10] the second
    poll is sent at time 10, when the time elapsed since the start (at time
    0) is no longer below [expires_in]. *)
Lemma poll_sent_at_deadline :
  fst (poll_until sample_code (VInt 5) (VInt 10) 0
         (quiet [says_pending; says_pending])) =
  [Sleep 5; Send 5 (poll_request sample_code); Print (Line Copilot 128 []);
   Sleep 5; Send 10 (poll_request sample_code); Print (Line Copilot 128 [])]
  /\ 10 - 0 >= 10.
Proof. split; [vm_compute; reflexivity | lia]. Qed.

End Polling.

(** ** The device code and the exchange *)

Lemma start_device_flow_run (w : world) a rest d :
  net w = a :: rest ->
  read_json (reply a) = Return (VDict d) ->
  GetCopilotToken.start_device_flow w =
  match lookup (str "error") d with
  | Some _ =>
      ([Print (Line Copilot 48 []); Print (Line Copilot 49 []);
        Send (now w) device_code_request;
        Print (Line Copilot 58 [VDict d])],
       Raise (SystemExit 1))
  | None =>
      ([Print (Line Copilot 48 []); Print (Line Copilot 49 []);
        Send (now w) device_code_request],
       Return (VDict d, answered w a rest))
  end.
Proof.
  intros Hnet Hread. unfold GetCopilotToken.start_device_flow.
  rewrite bind_prints.
  erewrite bind_run
    by (rewrite (make_request_run _ _ _ _ _ _ a rest true)
          by (assumption || reflexivity);
        rewrite Hread; reflexivity).
  cbn [py_in]. rewrite bind_lift_return.
  destruct (lookup (str "error") d).
  - unfold print. rewrite bind_emit_prefixed. reflexivity.
  - reflexivity.
Qed.

(** C6.  When the answer to the device code request is an object with an
    [error] field, [start_device_flow] prints it and exits with status 1,
    and so does [main], which has then sent that one request and no poll;
    when the object has no [error] field, [start_device_flow] returns it as
    it is. *)
Theorem start_device_flow_error (w : world) a rest d :
  net w = a :: rest ->
  read_json (reply a) = Return (VDict d) ->
  match lookup (str "error") d with
  | Some _ =>
      GetCopilotToken.start_device_flow w =
      ([Print (Line Copilot 48 []); Print (Line Copilot 49 []);
        Send (now w) device_code_request;
        Print (Line Copilot 58 [VDict d])],
       Raise (SystemExit 1))
      /\ GetCopilotToken.main w =
         ([Print (Line Copilot 95 []); Print (Line Copilot 96 []);
           Print (Line Copilot 97 []); Print (Line Copilot 98 []);
           Print (Line Copilot 48 []); Print (Line Copilot 49 []);
           Send (now w) device_code_request;
           Print (Line Copilot 58 [VDict d])],
          Raise (SystemExit 1))
  | None =>
      GetCopilotToken.start_device_flow w =
      ([Print (Line Copilot 48 []); Print (Line Copilot 49 []);
        Send (now w) device_code_request],
       Return (VDict d, answered w a rest))
  end.
Proof.
  intros Hnet Hread.
  pose proof (start_device_flow_run w a rest d Hnet Hread) as Hrun.
  destruct (lookup (str "error") d) as [x|]; [|exact Hrun].
  split; [exact Hrun|].
  unfold GetCopilotToken.main. rewrite bind_prints.
  erewrite bind_raises by exact Hrun. reflexivity.
Qed.

Lemma start_device_flow_error_witness :
  GetCopilotToken.main (quiet [says_bad_client; says_token]) =
  ([Print (Line Copilot 95 []); Print (Line Copilot 96 []);
    Print (Line Copilot 97 []); Print (Line Copilot 98 []);
    Print (Line Copilot 48 []); Print (Line Copilot 49 []);
    Send 0 device_code_request;
    Print (Line Copilot 58
             [VDict [(str "error", VStr (str "incorrect_client_credentials"))]])],
   Raise (SystemExit 1)).
Proof.
  refine (proj2 (start_device_flow_error (quiet [says_bad_client; says_token])
                   says_bad_client [says_token]
                   [(str "error", VStr (str "incorrect_client_credentials"))] _ _)).
  - reflexivity.
  - reflexivity.
Defined.

Lemma copilot_get_copilot_token_run (github_token : value) (w : world) a rest :
  net w = a :: rest ->
  sendable (exchange_request github_token) ->
  GetCopilotToken.get_copilot_token github_token w =
  ([Send (now w) (exchange_request github_token)],
   with_world (read_json (reply a)) (answered w a rest)).
Proof.
  intros Hnet Hput. unfold GetCopilotToken.get_copilot_token.
  rewrite (make_request_run _ _ _ _ _ _ a rest false)
    by (assumption || reflexivity).
  reflexivity.
Qed.

Lemma enterprise_get_copilot_token_run (github_token : value) (w : world) a rest :
  net w = a :: rest ->
  sendable (exchange_request github_token) ->
  GetEnterpriseToken.get_copilot_token github_token w =
  ([Send (now w) (exchange_request github_token)],
   with_world (read_json (reply a)) (answered w a rest)).
Proof.
  intros Hnet Hput. unfold GetEnterpriseToken.get_copilot_token, bind, https.
  cbn [headers]. unfold sendable in Hput. cbn [headers exchange_request] in Hput.
  rewrite Hput, Hnet.
  destruct (reply a) as [| |[|c txt]]; try reflexivity.
  simpl. unfold lift, read_json. destruct (json_loads (c :: txt)); reflexivity.
Qed.

(** C9.  The two [get_copilot_token] functions do the same in every world:
    they send the same request -- same host, path, method and headers, no
    body -- and return the same result; with a token [http.client] does not
    take in a header, neither sends anything and both raise the same. *)
Theorem get_copilot_token_same (github_token : value) (w : world) :
  GetCopilotToken.get_copilot_token github_token w =
  GetEnterpriseToken.get_copilot_token github_token w
  /\ fst (GetCopilotToken.get_copilot_token github_token w) =
     match putheaders (headers (exchange_request github_token)) with
     | Return _ => [Send (now w) (exchange_request github_token)]
     | _ => []
     end.
Proof.
  destruct (putheaders (headers (exchange_request github_token)))
    as [[]|x|] eqn:Hput.
  - destruct (net w) as [|a rest] eqn:Hnet.
    + unfold GetCopilotToken.get_copilot_token.
      rewrite (make_request_down _ _ _ _ _ _ false)
        by (assumption || reflexivity).
      unfold GetEnterpriseToken.get_copilot_token, bind, https.
      cbn [headers exchange_request] in *. rewrite Hput, Hnet.
      split; reflexivity.
    + rewrite (copilot_get_copilot_token_run _ _ _ _ Hnet Hput).
      rewrite (enterprise_get_copilot_token_run _ _ _ _ Hnet Hput).
      split; reflexivity.
  - unfold GetCopilotToken.get_copilot_token, GetCopilotToken.make_request.
    rewrite bind_lift_return.
    unfold GetEnterpriseToken.get_copilot_token, bind, https.
    cbn [headers exchange_request] in *. rewrite Hput. split; reflexivity.
  - unfold GetCopilotToken.get_copilot_token, GetCopilotToken.make_request.
    rewrite bind_lift_return.
    unfold GetEnterpriseToken.get_copilot_token, bind, https.
    cbn [headers exchange_request] in *. rewrite Hput. split; reflexivity.
Qed.

(** C4.  When the answer to the exchange request is an object with a
    [token] field, both scripts get from it the token under [token] and the
    expiry under [expires_at], or [0] when there is no [expires_at]. *)
Theorem exchange_token (github_token : value) (w : world) a rest d copilot_token :
  net w = a :: rest ->
  sendable (exchange_request github_token) ->
  read_json (reply a) = Return (VDict d) ->
  lookup (str "token") d = Some copilot_token ->
  let t := {| token := copilot_token;
              expiresAt := match lookup (str "expires_at") d with
                           | Some expires_at => expires_at
                           | None => VInt 0
                           end |} in
  (copilot_data <- GetCopilotToken.get_copilot_token github_token ;;
   lift (secondary_token copilot_data)) w =
  ([Send (now w) (exchange_request github_token)],
   Return (Some t, answered w a rest))
  /\
  (copilot_data <- GetEnterpriseToken.get_copilot_token github_token ;;
   lift (secondary_token copilot_data)) w =
  ([Send (now w) (exchange_request github_token)],
   Return (Some t, answered w a rest)).
Proof.
  intros Hnet Hput Hread Htok t.
  assert (Hst : secondary_token (VDict d) = Return (Some t)).
  { unfold secondary_token. cbn [py_in getitem py_get]. rewrite Htok. reflexivity. }
  split.
  - erewrite bind_run
      by (rewrite (copilot_get_copilot_token_run _ _ _ _ Hnet Hput);
          rewrite Hread; reflexivity).
    rewrite Hst. reflexivity.
  - erewrite bind_run
      by (rewrite (enterprise_get_copilot_token_run _ _ _ _ Hnet Hput);
          rewrite Hread; reflexivity).
    rewrite Hst. reflexivity.
Qed.

Lemma exchange_token_witness :
  let w := quiet [says_text "{'token':'abc','expires_at':1700000000}"] in
  let t := {| token := VStr (str "abc"); expiresAt := VInt 1700000000 |} in
  (copilot_data <- GetCopilotToken.get_copilot_token sample_token ;;
   lift (secondary_token copilot_data)) w =
  ([Send 0 (exchange_request sample_token)], Return (Some t, quiet []))
  /\
  (copilot_data <- GetEnterpriseToken.get_copilot_token sample_token ;;
   lift (secondary_token copilot_data)) w =
  ([Send 0 (exchange_request sample_token)], Return (Some t, quiet [])).
Proof.
  refine (exchange_token sample_token
            (quiet [says_text "{'token':'abc','expires_at':1700000000}"])
            (says_text "{'token':'abc','expires_at':1700000000}") []
            [(str "token", VStr (str "abc")); (str "expires_at", VInt 1700000000)]
            (VStr (str "abc")) _ _ _ _).
  - reflexivity.
  - reflexivity.
  - reflexivity.
  - reflexivity.
Defined.

(** The expiry defaults to [0]. *)
Example exchange_token_no_expiry :
  secondary_token (VDict [(str "token", VStr (str "abc"))]) =
  Return (Some {| token := VStr (str "abc"); expiresAt := VInt 0 |}).
Proof. reflexivity. Qed.

(** C5 (the code departs from the claim in one script).  When the answer to
    the exchange request is an object without a [token] field, no
    [SecondaryToken] is made, and both scripts print the failure with the
    object as it was received and write nothing to the disk.
    [get_enterprise_token.py] then fails: it exits with status 1.
    [get_copilot_token.py] does not: it shows the GitHub token and returns
    as after a success. *)
Theorem exchange_rejected (github_token : pystr) (w : world) a rest d :
  net w = a :: rest ->
  sendable (exchange_request (VStr github_token)) ->
  read_json (reply a) = Return (VDict d) ->
  lookup (str "token") d = None ->
  secondary_token (VDict d) = Return None
  /\ GetCopilotToken.exchange (VStr github_token) w =
     ([Send (now w) (exchange_request (VStr github_token));
       Print (Line Copilot 199 [VDict d]);
       Print (Line Copilot 200 []); Print (Line Copilot 201 []);
       Print (Line Copilot 202 [VStr github_token])],
      Return (tt, answered w a rest))
  /\ GetEnterpriseToken.exchange github_token w =
     ([Send (now w) (exchange_request (VStr github_token));
       Print (Line Enterprise 136 [VDict d]);
       Print (Line Enterprise 137 []); Print (Line Enterprise 138 []);
       Print (Line Enterprise 139 []); Print (Line Enterprise 140 []);
       Print (Line Enterprise 141 [])],
      Raise (SystemExit 1)).
Proof.
  intros Hnet Hput Hread Htok.
  assert (Hst : secondary_token (VDict d) = Return None).
  { unfold secondary_token. cbn [py_in]. rewrite Htok. reflexivity. }
  split; [exact Hst|]. split.
  - unfold GetCopilotToken.exchange.
    erewrite bind_run
      by (rewrite (copilot_get_copilot_token_run _ _ _ _ Hnet Hput);
          rewrite Hread; reflexivity).
    rewrite Hst. rewrite bind_lift_return.
    unfold print. rewrite bind_emit_prefixed. rewrite bind_prints.
    reflexivity.
  - unfold GetEnterpriseToken.exchange.
    erewrite bind_run
      by (rewrite (enterprise_get_copilot_token_run _ _ _ _ Hnet Hput);
          rewrite Hread; reflexivity).
    rewrite Hst. rewrite bind_lift_return.
    unfold print. rewrite bind_emit_prefixed. rewrite bind_prints.
    reflexivity.
Qed.

Lemma exchange_rejected_witness :
  let w := quiet [says_text "{'error':'not_authorized'}"] in
  let d := [(str "error", VStr (str "not_authorized"))] in
  secondary_token (VDict d) = Return None
  /\ GetCopilotToken.exchange (VStr (str "gho_abc")) w =
     ([Send 0 (exchange_request (VStr (str "gho_abc")));
       Print (Line Copilot 199 [VDict d]);
       Print (Line Copilot 200 []); Print (Line Copilot 201 []);
       Print (Line Copilot 202 [VStr (str "gho_abc")])],
      Return (tt, quiet []))
  /\ GetEnterpriseToken.exchange (str "gho_abc") w =
     ([Send 0 (exchange_request (VStr (str "gho_abc")));
       Print (Line Enterprise 136 [VDict d]);
       Print (Line Enterprise 137 []); Print (Line Enterprise 138 []);
       Print (Line Enterprise 139 []); Print (Line Enterprise 140 []);
       Print (Line Enterprise 141 [])],
      Raise (SystemExit 1)).
Proof.
  refine (exchange_rejected (str "gho_abc")
            (quiet [says_text "{'error':'not_authorized'}"])
            (says_text "{'error':'not_authorized'}") []
            [(str "error", VStr (str "not_authorized"))] _ _ _ _).
  - reflexivity.
  - reflexivity.
  - reflexivity.
  - reflexivity.
Defined.

(** ** The persisted token *)

Lemma lookup_ok (k : pystr) (d : dict) (x : value) :
  value_ok (VDict d) = true -> lookup k d = Some x -> value_ok x = true.
Proof.
  cbn [value_ok]. intros H. apply andb_prop in H. destruct H as [H _].
  induction d as [|[k' v'] d IH]; [discriminate|].
  cbn [forallb lookup fst snd] in *. apply andb_prop in H. destruct H as [Hkv Hd].
  apply andb_prop in Hkv. destruct Hkv as [_ Hv'].
  destruct (pystr_eqb k k').
  - intros Hx. inversion Hx; subst. exact Hv'.
  - apply IH. exact Hd.
Qed.

(** The token and the expiry the scripts get from a decoded body are as
    [json.loads] builds them. *)
Lemma secondary_token_ok (body : pystr) (copilot_data : value) (t : SecondaryToken) :
  decoded body = true ->
  read_json (Body body) = Return copilot_data ->
  secondary_token copilot_data = Return (Some t) ->
  value_ok (token t) = true /\ value_ok (expiresAt t) = true.
Proof.
  intros Hdec Hread Hst.
  assert (Hok : value_ok copilot_data = true).
  { destruct body as [|c body]; cbn [read_json] in Hread.
    - inversion Hread. reflexivity.
    - unfold json_loads in Hread.
      destruct (Json.loads (c :: body)) as [v|] eqn:Hl; try discriminate.
      inversion Hread; subst. exact (loads_ok _ _ Hdec Hl). }
  unfold secondary_token in Hst.
  destruct copilot_data as [| b | n | literal | s | l | d]; try discriminate.
  - cbn [py_in] in Hst. destruct (substring _ s); discriminate.
  - cbn [py_in] in Hst. destruct (existsb _ l); discriminate.
  - cbn [py_in getitem py_get] in Hst.
    destruct (lookup (str "token") d) as [tok|] eqn:Htok; [|discriminate].
    inversion Hst; subst. cbn [token expiresAt]. split.
    + exact (lookup_ok _ _ _ Hok Htok).
    + destruct (lookup (str "expires_at") d) as [e|] eqn:He; [|reflexivity].
      exact (lookup_ok _ _ _ Hok He).
Qed.

(** The persisted document of a token whose fields are as [json.loads]
    builds them, and hold no float, reads back as that token. *)
Lemma read_persisted_dumps (t : SecondaryToken) :
  value_ok (token t) = true -> value_ok (expiresAt t) = true ->
  float_free (persisted t) = true ->
  read_persisted (Json.dumps (persisted t)) = Some t.
Proof.
  intros Ht He Hfree. unfold read_persisted. rewrite loads_dumps.
  - destruct t as [tok e]. reflexivity.
  - unfold persisted. cbn [value_ok forallb fst snd distinct_keys existsb].
    rewrite Ht, He. reflexivity.
  - exact Hfree.
Qed.

(** C8.  Every token the scripts get from the exchange -- from the decoded
    body of an answer, by [secondary_token] -- and that holds no float comes
    back with the same [token] and the same [expiresAt] when the document
    [json.dump] writes for it is parsed again. *)
Theorem persisted_round_trip (body : pystr) (copilot_data : value)
    (t : SecondaryToken) :
  decoded body = true ->
  read_json (Body body) = Return copilot_data ->
  secondary_token copilot_data = Return (Some t) ->
  float_free (persisted t) = true ->
  read_persisted (Json.dumps (persisted t)) = Some t.
Proof.
  intros Hdec Hread Hst Hfree.
  destruct (secondary_token_ok body copilot_data t Hdec Hread Hst) as [Ht He].
  apply read_persisted_dumps; assumption.
Qed.

Lemma persisted_round_trip_witness :
  let t := {| token := VStr (str "tid=abc;exp=1700000000"); expiresAt := VInt 1700000000 |} in
  Json.dumps (persisted t) =
    json_text "{'token': 'tid=abc;exp=1700000000', 'expiresAt': 1700000000}"
  /\ read_persisted (Json.dumps (persisted t)) = Some t.
Proof.
  split; [vm_compute; reflexivity|].
  refine (persisted_round_trip
            (json_text "{'token':'tid=abc;exp=1700000000','expires_at':1700000000}")
            (VDict [(str "token", VStr (str "tid=abc;exp=1700000000"));
                    (str "expires_at", VInt 1700000000)])
            {| token := VStr (str "tid=abc;exp=1700000000");
               expiresAt := VInt 1700000000 |} _ _ _ _).
  - vm_compute. reflexivity.
  - vm_compute. reflexivity.
  - vm_compute. reflexivity.
  - reflexivity.
Defined.

(** A [str] that is not [str_ok] does not read back: the two surrogates are
    joined into one code point.  [json.loads] never builds such a [str]
    ([scanstring_ok]). *)
Example surrogates_joined :
  Json.loads (Json.dumps (VStr [0xd83d; 0xde00]%N)) = Json.Loaded (VStr [0x1f600%N]).
Proof. vm_compute. reflexivity. Qed.

(** ** Runs and their traces *)

Lemma bind_fst {A B} (m : M A) (f : A -> M B) (w : world) :
  fst (bind m f w) =
  fst (m w) ++ match snd (m w) with
               | Return (a, w1) => fst (f a w1)
               | _ => []
               end.
Proof.
  unfold bind. destruct (m w) as [t1 [[a w1]|x|]]; cbn [fst snd];
    try (symmetry; apply app_nil_r).
  destruct (f a w1). reflexivity.
Qed.

Lemma bind_time_time {B} (f : Z -> M B) (w : world) :
  bind time_time f w = f (now w) w.
Proof. unfold bind, time_time. destruct (f (now w) w). reflexivity. Qed.

Lemma bind_raises_prefixed {A B} (m : M A) (f : A -> M B) (w : world) t x :
  m w = (t, Raise x) -> bind m f w = prefixed t ([], Raise x).
Proof.
  intros H. rewrite (bind_raises _ _ _ _ _ H). unfold prefixed.
  cbn [fst snd]. rewrite app_nil_r. reflexivity.
Qed.

Lemma requests_app (t1 t2 : trace) :
  requests (t1 ++ t2) = requests t1 ++ requests t2.
Proof. apply flat_map_app. Qed.

(** ** Finding a token *)

Lemma lstrip_blank (pre s : pystr) :
  blank pre = true -> lstrip (pre ++ s) = lstrip s.
Proof.
  induction pre as [|c pre IH]; [reflexivity|]. cbn [blank forallb app lstrip].
  intros H. apply andb_prop in H. destruct H as [Hc Hpre]. rewrite Hc.
  apply IH. exact Hpre.
Qed.

Lemma blank_rev (s : pystr) : blank s = true -> blank (rev s) = true.
Proof.
  unfold blank. rewrite !forallb_forall. intros H c Hc. apply H.
  apply in_rev. exact Hc.
Qed.

Lemma strip_blank (s : pystr) : blank s = true -> strip s = [].
Proof.
  intros H. unfold strip. rewrite <- (app_nil_r s).
  rewrite lstrip_blank by exact H. reflexivity.
Qed.

Lemma strip_padded (pre tok post : pystr) :
  blank pre = true -> blank post = true -> trimmed tok = true ->
  strip (pre ++ tok ++ post) = tok.
Proof.
  intros Hpre Hpost Htok. unfold strip. rewrite lstrip_blank by exact Hpre.
  unfold trimmed in Htok. destruct tok as [|c tok]; [discriminate|].
  destruct (rev (c :: tok)) as [|c' r] eqn:Hrev; [discriminate|].
  apply andb_prop in Htok. destruct Htok as [Hc Hc'].
  apply negb_true_iff in Hc, Hc'.
  cbn [app lstrip]. rewrite Hc.
  change (c :: tok ++ post) with ((c :: tok) ++ post).
  rewrite rev_app_distr. rewrite lstrip_blank by (apply blank_rev; exact Hpost).
  rewrite Hrev. cbn [lstrip]. rewrite Hc'. rewrite <- Hrev. apply rev_involutive.
Qed.

Lemma lstrip_nil (s : pystr) : lstrip s = [] -> blank s = true.
Proof.
  induction s as [|c s IH]; [reflexivity|]. cbn [lstrip blank forallb].
  destruct (is_space c); [exact IH | discriminate].
Qed.

Lemma lstrip_kept (s : pystr) : blank (lstrip s) = true -> lstrip s = [].
Proof.
  induction s as [|c s IH]; [reflexivity|]. cbn [lstrip].
  destruct (is_space c) eqn:Hc; [exact IH|].
  cbn [blank forallb]. rewrite Hc. discriminate.
Qed.

Lemma strip_nil (s : pystr) : strip s = [] -> blank s = true.
Proof.
  unfold strip. intros H.
  assert (Hl : lstrip (rev (lstrip s)) = []).
  { rewrite <- (rev_involutive (lstrip _)). rewrite H. reflexivity. }
  apply lstrip_nil in Hl. apply blank_rev in Hl. rewrite rev_involutive in Hl.
  apply lstrip_kept in Hl. apply lstrip_nil. exact Hl.
Qed.

Section FindToken.
Import GetEnterpriseToken.

(** X1.  A token in the environment wins: when [GITHUB_TOKEN] is set and
    not empty it is taken as it is, white space and all; [gh] is not run and
    nothing is asked. *)
Theorem find_token_env_first (w : world) (tok : pystr) :
  environ_token w = Some tok -> tok <> [] ->
  find_token w =
  ([Print (Line Enterprise 74 [VStr (firstn 10 tok)])], Return (tok, w)).
Proof.
  intros Henv Hne. destruct tok as [|c tok]; [contradiction|].
  unfold find_token, bind. rewrite Henv. reflexivity.
Qed.

(** X2.  Without a token in the environment, the token is what
    [gh auth token] prints when it exits with status 0, without the white
    space around it (the newline at its end, for one). *)
Theorem find_token_gh (w : world) (pre tok post : pystr) :
  nonempty (environ_token w) = false ->
  gh w = GhExits 0 (pre ++ tok ++ post) ->
  blank pre = true -> blank post = true -> trimmed tok = true ->
  find_token w =
  ([Print (Line Enterprise 70 []); RunGh;
    Print (Line Enterprise 74 [VStr (firstn 10 tok)])],
   Return (tok, w)).
Proof.
  intros Henv Hgh Hpre Hpost Htok.
  pose proof (strip_padded pre tok post Hpre Hpost Htok) as Hstrip.
  unfold find_token, bind. rewrite Henv. cbn -[strip]. rewrite Hgh.
  cbn -[strip]. rewrite Hstrip. destruct tok as [|c tok]; [discriminate|].
  reflexivity.
Qed.

Lemma get_gh_token_unusable (w : world) :
  gh_unusable (gh w) ->
  exists r, get_gh_token w = ([RunGh], Return (r, w)) /\ nonempty r = false.
Proof.
  unfold get_gh_token, gh_unusable. destruct (gh w) as [|returncode stdout].
  - intros _. exists None. split; reflexivity.
  - intros [Hrc | Hblank].
    + apply Z.eqb_neq in Hrc. rewrite Hrc. exists None. split; reflexivity.
    + destruct (returncode =? 0); [|exists None; split; reflexivity].
      exists (Some (strip stdout)). rewrite (strip_blank _ Hblank).
      split; reflexivity.
Qed.

(** Without a token from the environment or from [gh], the script asks for
    one. *)
Lemma find_token_asks (w : world) :
  nonempty (environ_token w) = false ->
  gh_unusable (gh w) ->
  find_token w =
  prefixed (Print (Line Enterprise 70 []) :: RunGh :: asks_for_token)
    (match stdin w with
     | Some l =>
         match strip l with
         | [] => ([Print (Line Enterprise 90 [])], Raise (SystemExit 1))
         | c :: s => ([], Return (c :: s, w))
         end
     | None => ([], Raise EOFError)
     end).
Proof.
  intros Henv Hgh. destruct (get_gh_token_unusable w Hgh) as [r [Hrun Hr]].
  unfold find_token, bind at 1. cbn [fst snd]. rewrite Henv.
  unfold bind at 1. unfold print at 1. rewrite bind_emit. rewrite Hrun.
  cbn [fst snd app].
  replace (match r with
           | Some (c :: s) =>
               print (Line Enterprise 74 [VStr (firstn 10 (c :: s))]) ;;
               ret (c :: s)
           | _ =>
               prints Enterprise [76; 77; 78; 79; 80; 81; 82; 83; 84; 85; 86]%N ;;
               typed <- input_stripped ;;
               match typed with
               | [] => print (Line Enterprise 90 []) ;; sys_exit 1
               | _ :: _ => ret typed
               end
           end)
    with (prints Enterprise [76; 77; 78; 79; 80; 81; 82; 83; 84; 85; 86]%N ;;
          typed <- input_stripped ;;
          match typed with
          | [] => print (Line Enterprise 90 []) ;; sys_exit 1
          | _ :: _ => ret typed
          end)
    by (destruct r as [[|c s]|]; try reflexivity; discriminate).
  rewrite bind_prints. unfold bind at 1, input_stripped.
  destruct (stdin w) as [l|]; [|reflexivity].
  destruct (strip l) as [|c s]; reflexivity.
Qed.

(** X3.  Without a token from the environment or from [gh] -- it cannot be
    run, it exits with another status than 0 whatever it prints, or it
    prints white space only -- the script asks for one.  A closed terminal
    raises [EOFError]; a line of white space ends the script with status 1;
    any other line is the token, stripped. *)
Theorem find_token_asked (w : world) :
  nonempty (environ_token w) = false ->
  gh_unusable (gh w) ->
  find_token w =
  prefixed (Print (Line Enterprise 70 []) :: RunGh :: asks_for_token)
    (match stdin w with
     | None => ([], Raise EOFError)
     | Some typed =>
         if blank typed
         then ([Print (Line Enterprise 90 [])], Raise (SystemExit 1))
         else ([], Return (strip typed, w))
     end).
Proof.
  intros Henv Hgh. rewrite (find_token_asks w Henv Hgh).
  destruct (stdin w) as [l|]; [|reflexivity].
  destruct (blank l) eqn:Hblank.
  - rewrite (strip_blank _ Hblank). reflexivity.
  - destruct (strip l) as [|c s] eqn:Hs; [|reflexivity].
    apply strip_nil in Hs. congruence.
Qed.

Lemma find_token_outcome (w : world) :
  requests (fst (find_token w)) = []
  /\ forall tok w', snd (find_token w) = Return (tok, w') -> tok <> [] /\ w' = w.
Proof.
  unfold find_token, bind, print, emit, get_gh_token, input_stripped.
  cbn [fst snd].
  destruct (environ_token w) as [[|c s]|]; cbn [nonempty fst snd ret];
    try (split; [reflexivity|]; intros tok w' H; inversion H; split;
         [discriminate | reflexivity]).
  all: destruct (gh w) as [|returncode stdout]; cbn [fst snd];
    try destruct (returncode =? 0); try destruct (strip stdout) as [|c' s'];
    cbn [fst snd ret prints print emit bind];
    try (split; [reflexivity|]; intros tok w' H; inversion H; split;
         [discriminate | reflexivity]).
  all: destruct (stdin w) as [l|]; cbn [fst snd];
    try destruct (strip l) as [|c'' s'']; cbn [fst snd ret sys_exit raise];
    split; try reflexivity; intros tok w' H; inversion H; split;
      (discriminate || reflexivity).
Qed.

End FindToken.

(** ** Saving the tokens *)




(** X5.  Nothing is rolled back: when [copilot-token.json] cannot be opened
    or written, [github-token] has been written and stays so. *)
Theorem save_tokens_no_rollback (github_token : pystr) (t : SecondaryToken)
    (w : world) :
  float_free (persisted t) = true ->
  fs_ok w OpMakedirs = true ->
  fs_ok w (OpOpen GithubTokenFile) = true ->
  fs_ok w (OpWrite GithubTokenFile) = true ->
  fs_ok w (OpOpen CopilotTokenFile) && fs_ok w (OpWrite CopilotTokenFile) = false ->
  let written :=
    [Makedirs; Open GithubTokenFile; Write GithubTokenFile github_token] ++
    (if fs_ok w (OpOpen CopilotTokenFile) then [Open CopilotTokenFile] else []) in
  GetCopilotToken.save_tokens (VStr github_token) t w =
    (written ++ [Print (ErrLine Copilot 196 OSError)], Return (tt, w))
  /\ GetEnterpriseToken.save_tokens github_token t w =
    (written ++ [Print (ErrLine Enterprise 133 OSError)], Return (tt, w)).
Proof.
  intros Hfree H1 H2 H3 H45 written. subst written.
  unfold GetCopilotToken.save_tokens, GetEnterpriseToken.save_tokens,
    try_except, json_dump.
  rewrite Hfree.
  cbv beta iota zeta delta [bind fs_do file_write raise print prints emit ret].
  rewrite H1, H2, H3. cbv beta iota zeta.
  destruct (fs_ok w (OpOpen CopilotTokenFile)); [|split; reflexivity].
  cbn [andb] in H45. rewrite H45. split; reflexivity.
Qed.

(** ** The exchange, when a token comes back *)

(** X6.  A token is only ever taken from an object: when the scripts get a
    token from a response, the response is an object, the token is its
    [token] field and the expiry its [expires_at] field, or [0] without
    one. *)
Theorem secondary_token_from_object (copilot_data : value) (t : SecondaryToken) :
  secondary_token copilot_data = Return (Some t) ->
  exists d,
    copilot_data = VDict d
    /\ lookup (str "token") d = Some (token t)
    /\ expiresAt t = match lookup (str "expires_at") d with
                     | Some expires_at => expires_at
                     | None => VInt 0
                     end.
Proof.
  unfold secondary_token.
  destruct copilot_data as [| b | n | literal | s | l | d]; cbn [py_in];
    try discriminate.
  - destruct (substring _ s); discriminate.
  - destruct (existsb _ l); discriminate.
  - cbn [getitem py_get].
    destruct (lookup (str "token") d) as [copilot_token|] eqn:Htok;
      [|discriminate].
    intros H. injection H as <-. exists d. cbn [token expiresAt].
    split; [reflexivity|]. split; [exact Htok | reflexivity].
Qed.

Lemma time_localtime_ok (w : world) (v : value) :
  timestamp_ok w v -> time_localtime v w = ([], Return (tt, w)).
Proof.
  intros [-> | [n [Hn Hok]]]; [reflexivity|].
  unfold time_localtime. rewrite Hn, Hok. destruct v; reflexivity.
Qed.

Lemma time_localtime_rejected (w : world) (v : value) :
  not_a_timestamp v -> time_localtime v w = ([], Raise TypeError).
Proof.
  intros [Hv Hx]. unfold time_localtime. rewrite Hx.
  destruct v; try reflexivity. contradiction.
Qed.

Lemma secondary_token_dict (d : dict) (copilot_token : value) :
  lookup (str "token") d = Some copilot_token ->
  secondary_token (VDict d) =
  Return (Some {| token := copilot_token;
                  expiresAt := match lookup (str "expires_at") d with
                               | Some expires_at => expires_at
                               | None => VInt 0
                               end |}).
Proof.
  intros Htok. unfold secondary_token. cbn [py_in getitem py_get].
  rewrite Htok. reflexivity.
Qed.

(** The exchange of [get_copilot_token.py] up to [time.localtime]. *)
Lemma copilot_exchange_shows (github_token : pystr) (w : world) a rest d
    copilot_token :
  net w = a :: rest ->
  sendable (exchange_request (VStr github_token)) ->
  read_json (reply a) = Return (VDict d) ->
  lookup (str "token") d = Some copilot_token ->
  let t := {| token := copilot_token;
              expiresAt := match lookup (str "expires_at") d with
                           | Some expires_at => expires_at
                           | None => VInt 0
                           end |} in
  GetCopilotToken.exchange (VStr github_token) w =
  prefixed (Send (now w) (exchange_request (VStr github_token)) ::
            copilot_shows_tokens github_token t)
    ((time_localtime (expiresAt t) ;;
      print (Line Copilot 161 [expiresAt t]) ;;
      prints Copilot [162; 163; 164; 165; 166; 167; 168; 169]%N ;;
      prefix <- lift (slice_to 10 (VStr github_token)) ;;
      print (Line Copilot 170 [prefix]) ;;
      prints Copilot [171; 172; 173; 174; 175; 176]%N ;;
      GetCopilotToken.save_tokens (VStr github_token) t) (answered w a rest)).
Proof.
  intros Hnet Hput Hread Htok t.
  unfold GetCopilotToken.exchange.
  erewrite bind_run
    by (rewrite (copilot_get_copilot_token_run _ _ _ _ Hnet Hput);
        rewrite Hread; reflexivity).
  rewrite (secondary_token_dict d copilot_token Htok). fold t.
  rewrite bind_lift_return. unfold print at 1 2.
  repeat (rewrite bind_prints || rewrite bind_emit_prefixed).
  rewrite !prefixed_prefixed. reflexivity.
Qed.

(** The exchange of [get_enterprise_token.py] up to [time.localtime]. *)
Lemma enterprise_exchange_shows (github_token : pystr) (w : world) a rest d
    copilot_token :
  net w = a :: rest ->
  sendable (exchange_request (VStr github_token)) ->
  read_json (reply a) = Return (VDict d) ->
  lookup (str "token") d = Some (VStr copilot_token) ->
  let t := {| token := VStr copilot_token;
              expiresAt := match lookup (str "expires_at") d with
                           | Some expires_at => expires_at
                           | None => VInt 0
                           end |} in
  GetEnterpriseToken.exchange github_token w =
  prefixed (Send (now w) (exchange_request (VStr github_token)) ::
            enterprise_shows_github github_token ++
            enterprise_shows_copilot copilot_token)
    ((time_localtime (expiresAt t) ;;
      print (Line Enterprise 115 [expiresAt t]) ;;
      prints Enterprise [116]%N ;;
      GetEnterpriseToken.save_tokens github_token t) (answered w a rest)).
Proof.
  intros Hnet Hput Hread Htok t.
  unfold GetEnterpriseToken.exchange.
  erewrite bind_run
    by (rewrite (enterprise_get_copilot_token_run _ _ _ _ Hnet Hput);
        rewrite Hread; reflexivity).
  rewrite (secondary_token_dict d _ Htok). fold t.
  rewrite bind_lift_return. unfold print at 1 2. cbn [token t slice_to].
  repeat (rewrite bind_prints || rewrite bind_emit_prefixed
          || rewrite bind_lift_return).
  rewrite !prefixed_prefixed. reflexivity.
Qed.

(** X7.  On a response with a token and an expiry [time.localtime] takes
    -- the GitHub token being one that can be sent in a header --,
    [get_copilot_token.py] prints both tokens in full, the GitHub token
    once more cut to ten characters, and then saves them. *)
Theorem copilot_exchange_success (github_token : pystr) (w : world) a rest d
    copilot_token :
  net w = a :: rest ->
  sendable (exchange_request (VStr github_token)) ->
  read_json (reply a) = Return (VDict d) ->
  lookup (str "token") d = Some copilot_token ->
  let t := {| token := copilot_token;
              expiresAt := match lookup (str "expires_at") d with
                           | Some expires_at => expires_at
                           | None => VInt 0
                           end |} in
  timestamp_ok (answered w a rest) (expiresAt t) ->
  GetCopilotToken.exchange (VStr github_token) w =
  prefixed (Send (now w) (exchange_request (VStr github_token)) ::
            copilot_shows_tokens github_token t ++
            copilot_shows_usage github_token t)
    (GetCopilotToken.save_tokens (VStr github_token) t (answered w a rest)).
Proof.
  intros Hnet Hput Hread Htok t Htime.
  rewrite (copilot_exchange_shows github_token w a rest d copilot_token
             Hnet Hput Hread Htok).
  fold t. rewrite (bind_run _ _ _ _ _ _ (time_localtime_ok _ _ Htime)).
  unfold print. cbn [slice_to].
  repeat (rewrite bind_prints || rewrite bind_emit_prefixed
          || rewrite bind_lift_return).
  rewrite !prefixed_prefixed. reflexivity.
Qed.


(** X9.  In a response to a GitHub token that can be sent in a header, an
    expiry that is neither [null] nor a number stops both scripts with
    [TypeError] after the tokens have been shown and before anything is
    saved. *)
Theorem exchange_bad_expiry (github_token : pystr) (w : world) a rest d
    copilot_token :
  net w = a :: rest ->
  sendable (exchange_request (VStr github_token)) ->
  read_json (reply a) = Return (VDict d) ->
  lookup (str "token") d = Some (VStr copilot_token) ->
  let t := {| token := VStr copilot_token;
              expiresAt := match lookup (str "expires_at") d with
                           | Some expires_at => expires_at
                           | None => VInt 0
                           end |} in
  not_a_timestamp (expiresAt t) ->
  GetCopilotToken.exchange (VStr github_token) w =
    (Send (now w) (exchange_request (VStr github_token)) ::
     copilot_shows_tokens github_token t,
     Raise TypeError)
  /\ GetEnterpriseToken.exchange github_token w =
    (Send (now w) (exchange_request (VStr github_token)) ::
     enterprise_shows_github github_token ++
     enterprise_shows_copilot copilot_token,
     Raise TypeError).
Proof.
  intros Hnet Hput Hread Htok t Htime. split.
  - rewrite (copilot_exchange_shows github_token w a rest d _
               Hnet Hput Hread Htok).
    fold t.
    rewrite (bind_raises_prefixed _ _ _ _ _ (time_localtime_rejected _ _ Htime)).
    rewrite !prefixed_prefixed. unfold prefixed. cbn [fst snd].
    rewrite !app_nil_r. reflexivity.
  - rewrite (enterprise_exchange_shows github_token w a rest d _
               Hnet Hput Hread Htok).
    fold t.
    rewrite (bind_raises_prefixed _ _ _ _ _ (time_localtime_rejected _ _ Htime)).
    rewrite !prefixed_prefixed. unfold prefixed. cbn [fst snd].
    rewrite !app_nil_r. reflexivity.
Qed.

(** X10.  In a response to a GitHub token that can be sent in a header, a
    token that is [null], a boolean or an int cannot be cut to twenty
    characters: [get_enterprise_token.py] stops with [TypeError] after it
    has shown the GitHub token, and saves nothing. *)
Theorem enterprise_exchange_unsliceable (github_token : pystr) (w : world)
    a rest d copilot_token :
  net w = a :: rest ->
  sendable (exchange_request (VStr github_token)) ->
  read_json (reply a) = Return (VDict d) ->
  lookup (str "token") d = Some copilot_token ->
  match copilot_token with
  | VNone | VBool _ | VInt _ => True
  | _ => False
  end ->
  GetEnterpriseToken.exchange github_token w =
  (Send (now w) (exchange_request (VStr github_token)) ::
   enterprise_shows_github github_token,
   Raise TypeError).
Proof.
  intros Hnet Hput Hread Htok Hkind.
  unfold GetEnterpriseToken.exchange.
  erewrite bind_run
    by (rewrite (enterprise_get_copilot_token_run _ _ _ _ Hnet Hput);
        rewrite Hread; reflexivity).
  rewrite (secondary_token_dict d _ Htok).
  rewrite bind_lift_return. unfold print. cbn [token].
  repeat (rewrite bind_prints || rewrite bind_emit_prefixed).
  assert (Hslice : slice_to 20 copilot_token = Raise TypeError)
    by (destruct copilot_token; try contradiction; reflexivity).
  rewrite Hslice.
  rewrite (bind_raises_prefixed _ _ _ [] TypeError) by reflexivity.
  rewrite !prefixed_prefixed. reflexivity.
Qed.

(** X11.  [get_enterprise_token.py] shows a GitHub token of fourteen
    characters or less in full after its first ten characters; of a longer
    one it shows the first ten and the last four and leaves out what lies
    between. *)
Theorem tail_of_mask (github_token : pystr) :
  if (14 <? List.length github_token)%nat
  then exists hidden,
         github_token =
           firstn 10 github_token ++ hidden ++
           GetEnterpriseToken.tail_of github_token
         /\ List.length (firstn 10 github_token) = 10%nat
         /\ List.length (GetEnterpriseToken.tail_of github_token) = 4%nat
         /\ List.length hidden = (List.length github_token - 14)%nat
  else GetEnterpriseToken.tail_of github_token = github_token.
Proof.
  unfold GetEnterpriseToken.tail_of.
  destruct (14 <? List.length github_token)%nat eqn:Hlen; [|reflexivity].
  apply Nat.ltb_lt in Hlen.
  exists (firstn (List.length github_token - 14) (skipn 10 github_token)).
  split; [|split; [|split]].
  - rewrite <- (firstn_skipn 10 github_token) at 1. f_equal.
    rewrite <- (firstn_skipn (List.length github_token - 14)
                  (skipn 10 github_token)) at 1.
    f_equal. rewrite skipn_skipn. f_equal. lia.
  - rewrite length_firstn. lia.
  - rewrite length_skipn. lia.
  - rewrite length_firstn, length_skipn. lia.
Qed.

(** ** The polling loop at its edges *)

Section PollingEdges.
Import GetCopilotToken.

(** X12.  An [expires_in] that is not above the time already elapsed: the
    loop is not entered, nothing is slept or sent, and the script reports a
    timeout. *)
Theorem poll_expired_at_once device_code interval expires_in start_time e w :
  as_number expires_in = Return e ->
  e <= now w - start_time ->
  (received <- poll_until device_code interval expires_in start_time ;;
   require_token received) w =
  (timeout_exit, Raise (SystemExit 1)).
Proof.
  intros He Hle. unfold bind at 1, poll_until.
  rewrite (poll_loop_deadline _ _ _ _ _ _ e He Hle). reflexivity.
Qed.

(** X13.  An [expires_in] that is not a number: the loop condition raises
    [TypeError] before anything is slept or sent. *)
Theorem poll_bad_expiry device_code interval expires_in start_time w :
  as_number expires_in = Raise TypeError ->
  poll_until device_code interval expires_in start_time w =
  ([], Raise TypeError).
Proof.
  intros He. unfold poll_until. rewrite poll_loop_unfold.
  unfold time_time at 1. unfold bind at 1. unfold lt_number. rewrite He.
  reflexivity.
Qed.

(** X14.  An [interval] that [time.sleep] does not take: the first sleep
    raises and no poll is sent.  The exception is [OverflowError] for an
    int beyond [max_sleep] on either side, [ValueError] for a negative one
    within it, and [TypeError] for what is not a number. *)
Theorem poll_bad_interval device_code interval expires_in start_time e x w :
  as_number expires_in = Return e ->
  now w - start_time < e ->
  sleep_rejected interval x ->
  poll_until device_code interval expires_in start_time w = ([], Raise x).
Proof.
  intros He Hlt Hsleep. unfold poll_until. rewrite poll_loop_unfold.
  unfold time_time at 1. unfold bind at 1. unfold lt_number. rewrite He.
  apply Z.ltb_lt in Hlt. rewrite Hlt. rewrite bind_lift_return.
  unfold bind at 1, time_sleep.
  destruct Hsleep as [[i [Hi [[Hout ->] | [[Hmin Hneg] ->]]]] | Hx].
  - rewrite Hi.
    replace ((i <? - max_sleep) || (max_sleep <? i)) with true; [reflexivity|].
    symmetry. apply orb_true_iff. rewrite !Z.ltb_lt. exact Hout.
  - rewrite Hi.
    replace ((i <? - max_sleep) || (max_sleep <? i)) with false
      by (symmetry; apply orb_false_intro; apply Z.ltb_ge;
          unfold max_sleep in *; lia).
    apply Z.ltb_lt in Hneg. rewrite Hneg. reflexivity.
  - rewrite Hx. reflexivity.
Qed.

Lemma poll_for_token_sends (device_code : value) (w : world) :
  fst (poll_for_token device_code w) =
  [Send (now w) (poll_request device_code)].
Proof.
  unfold poll_for_token. destruct (net w) as [|a rest] eqn:Hnet.
  - rewrite (make_request_down _ _ _ _ _ _ true) by (assumption || reflexivity).
    reflexivity.
  - rewrite (make_request_run _ _ _ _ _ _ a rest true)
      by (assumption || reflexivity).
    reflexivity.
Qed.

Lemma handle_result_paced (device_code : value) (continue : M value)
    (result : value) (w : world) :
  (forall w', paced device_code (fst (continue w'))) ->
  paced device_code (fst (handle_result continue result w)).
Proof.
  intros Hk.
  assert (Hnd : (forall d, result <> VDict d) ->
                paced device_code (fst (handle_result continue result w))).
  { intros Hv. destruct (handle_result_not_dict continue result w Hv)
      as [x [_ ->]]. constructor. }
  destruct result as [| b | n | literal | s | l | d];
    try (apply Hnd; intros d' Hd'; discriminate).
  rewrite handle_result_dict.
  destruct (lookup (str "access_token") d); [repeat constructor|].
  cbv zeta. destruct (eq_str _ _).
  - cbn [fst]. constructor. apply Hk.
  - destruct (truthy _) as [[|]|x|]; try (repeat constructor). apply Hk.
Qed.

Lemma poll_loop_paced device_code interval expires_in start_time f :
  forall w,
    paced device_code
      (fst (poll_loop f device_code interval expires_in start_time w)).
Proof.
  induction f as [|f IH]; intros w; [constructor|].
  rewrite poll_loop_unfold. unfold time_time at 1. rewrite bind_fst.
  cbn [fst snd app]. rewrite bind_fst.
  destruct (lt_number (now w - start_time) expires_in) as [[|]|x|];
    cbn [lift fst snd app]; try constructor.
  rewrite bind_fst. unfold time_sleep at 1 2.
  destruct (as_number interval) as [i|x|]; try constructor.
  destruct ((i <? - max_sleep) || (max_sleep <? i)); [constructor|].
  destruct (i <? 0) eqn:Hi; [constructor|]. apply Z.ltb_ge in Hi.
  cbn [fst snd app]. rewrite bind_fst, poll_for_token_sends. cbn [app].
  apply paced_cycle; [exact Hi|].
  destruct (snd (poll_for_token device_code _)) as [[result w2]|x|];
    try constructor.
  apply handle_result_paced. exact IH.
Qed.

(** X15.  Whatever the answers, the loop sends nothing but polls for the
    device code it was given, each straight after a sleep that is not
    negative, and does nothing else than print. *)
Theorem poll_until_paced device_code interval expires_in start_time w :
  paced device_code
    (fst (poll_until device_code interval expires_in start_time w)).
Proof. unfold poll_until. apply poll_loop_paced. Qed.



End PollingEdges.

(** ** [main] of [get_copilot_token.py] *)

Lemma main_start (w : world) a rest d :
  net w = a :: rest ->
  read_json (reply a) = Return (VDict d) ->
  lookup (str "error") d = None ->
  GetCopilotToken.start_device_flow w =
  (lines Copilot [48; 49]%N ++ [Send (now w) device_code_request],
   Return (VDict d, answered w a rest)).
Proof.
  intros Hnet Hread Herr.
  rewrite (start_device_flow_run w a rest d Hnet Hread). rewrite Herr.
  reflexivity.
Qed.

(** X17.  [main] from the device code response on: the interval and the
    lifetime default to 5 and 900, the lifetime counts from the moment the
    response has arrived, and the exchange follows the loop. *)
Theorem main_after_device (w : world) a rest d verification_uri user_code
    device_code :
  net w = a :: rest ->
  read_json (reply a) = Return (VDict d) ->
  lookup (str "error") d = None ->
  lookup (str "verification_uri") d = Some verification_uri ->
  lookup (str "user_code") d = Some user_code ->
  lookup (str "device_code") d = Some device_code ->
  let interval := match lookup (str "interval") d with
                  | Some interval => interval
                  | None => VInt 5
                  end in
  let expires_in := match lookup (str "expires_in") d with
                    | Some expires_in => expires_in
                    | None => VInt 900
                    end in
  let w' := answered w a rest in
  GetCopilotToken.main w =
  prefixed (device_flow_opening w verification_uri user_code expires_in)
    ((github_token <-
        GetCopilotToken.poll_until device_code interval expires_in (now w') ;;
      GetCopilotToken.require_token github_token ;;
      prints Copilot [139; 142]%N ;;
      GetCopilotToken.exchange github_token) w').
Proof.
  intros Hnet Hread Herr Huri Hcode Hdc interval expires_in w'.
  unfold GetCopilotToken.main. rewrite bind_prints.
  rewrite (bind_run _ _ _ _ _ _ (main_start w a rest d Hnet Hread Herr)).
  fold w'. cbn [getitem py_get]. rewrite Huri, Hcode, Hdc.
  fold interval. fold expires_in. unfold print.
  repeat (rewrite bind_prints || rewrite bind_emit_prefixed
          || rewrite bind_lift_return).
  rewrite bind_time_time.
  rewrite !prefixed_prefixed. reflexivity.
Qed.

(** X18.  A device code response without one of the fields [main] reads
    stops it with [KeyError] at the first that is missing; no poll has been
    sent. *)
Theorem main_missing_key (w : world) a rest d :
  net w = a :: rest ->
  read_json (reply a) = Return (VDict d) ->
  lookup (str "error") d = None ->
  let opening := lines Copilot [95; 96; 97; 98; 48; 49]%N ++
                 [Send (now w) device_code_request] in
  let expires_in := match lookup (str "expires_in") d with
                    | Some expires_in => expires_in
                    | None => VInt 900
                    end in
  match lookup (str "verification_uri") d, lookup (str "user_code") d,
        lookup (str "device_code") d with
  | None, _, _ =>
      GetCopilotToken.main w =
      (opening, Raise (KeyError (str "verification_uri")))
  | Some verification_uri, None, _ =>
      GetCopilotToken.main w =
      (opening ++ [Print (Line Copilot 103 [verification_uri])],
       Raise (KeyError (str "user_code")))
  | Some verification_uri, Some user_code, None =>
      GetCopilotToken.main w =
      (device_flow_opening w verification_uri user_code expires_in,
       Raise (KeyError (str "device_code")))
  | Some _, Some _, Some _ => True
  end.
Proof.
  intros Hnet Hread Herr opening expires_in.
  unfold GetCopilotToken.main. rewrite bind_prints.
  rewrite (bind_run _ _ _ _ _ _ (main_start w a rest d Hnet Hread Herr)).
  cbn [getitem py_get].
  destruct (lookup (str "verification_uri") d) as [verification_uri|];
    [|reflexivity].
  rewrite bind_lift_return. unfold print. rewrite bind_emit_prefixed.
  destruct (lookup (str "user_code") d) as [user_code|]; [|reflexivity].
  destruct (lookup (str "device_code") d) as [device_code|]; [exact I|].
  fold expires_in.
  repeat (rewrite bind_prints || rewrite bind_emit_prefixed
          || rewrite bind_lift_return).
  reflexivity.
Qed.


(** ** What the scripts send *)

Lemma read_json_ok (text : pystr) (v : value) :
  decoded text = true -> read_json (Body text) = Return v -> value_ok v = true.
Proof.
  intros Hdec Hread. destruct text as [|c text]; cbn [read_json] in Hread.
  - inversion Hread. reflexivity.
  - unfold json_loads in Hread.
    destruct (Json.loads (c :: text)) as [v'|] eqn:Hl; try discriminate.
    inversion Hread; subst. exact (loads_ok _ _ Hdec Hl).
Qed.

(** X20.  The device code goes into the body of a poll as data: whatever
    device code the device code response held (a float apart), the body
    that [make_request] writes for the poll is a JSON text that reads back
    as the object of [client_id], that [device_code] and [grant_type], no
    more and no less. *)
Theorem poll_body_reads_back (text : pystr) (d : dict) (device_code : value) :
  decoded text = true ->
  read_json (Body text) = Return (VDict d) ->
  lookup (str "device_code") d = Some device_code ->
  float_free device_code = true ->
  exists data,
    body (poll_request device_code) = Some data
    /\ Json.loads (Json.dumps data) =
       Json.Loaded
         (VDict [(str "client_id", VStr (str "Iv1.b507a08c87ecfe98"));
                 (str "device_code", device_code);
                 (str "grant_type",
                  VStr (str "urn:ietf:params:oauth:grant-type:device_code"))]).
Proof.
  intros Hdec Hread Hdc Hfree.
  pose proof (lookup_ok _ _ _ (read_json_ok _ _ Hdec Hread) Hdc) as Hok.
  eexists. split; [reflexivity|]. apply loads_dumps.
  - cbn [value_ok forallb fst snd]. rewrite Hok. vm_compute. reflexivity.
  - cbn [float_free forallb snd]. rewrite Hfree. reflexivity.
Qed.

Lemma silent_bind {A B} (m : M A) (f : A -> M B) :
  silent m -> (forall a, silent (f a)) -> silent (bind m f).
Proof.
  intros Hm Hf w. rewrite bind_fst, requests_app, Hm.
  destruct (snd (m w)) as [[a w1]|x|]; try reflexivity. apply Hf.
Qed.

Lemma silent_ret {A} (a : A) : silent (ret a).
Proof. intros w. reflexivity. Qed.

Lemma silent_lift {A} (r : result A) : silent (lift r).
Proof. intros w. destruct r; reflexivity. Qed.

Lemma silent_raise {A} (x : exn) : silent (@raise A x).
Proof. intros w. reflexivity. Qed.

Lemma silent_print (l : line) : silent (print l).
Proof. intros w. reflexivity. Qed.

Lemma silent_prints (src : script) (ns : list N) : silent (prints src ns).
Proof. intros w. rewrite prints_run. induction ns; [reflexivity | assumption]. Qed.

Lemma silent_fs_do (op : fs_op) (e : event) :
  match e with Send _ _ => False | _ => True end -> silent (fs_do op e).
Proof.
  intros He w. unfold fs_do. destruct (fs_ok w op); [|reflexivity].
  destruct e; try reflexivity. contradiction.
Qed.

Lemma silent_file_write (f : file) (v : value) : silent (file_write f v).
Proof.
  destruct v; try apply silent_raise. apply silent_fs_do. exact I.
Qed.

Lemma silent_json_dump (f : file) (v : value) : silent (json_dump f v).
Proof.
  unfold json_dump. destruct (float_free v); [|apply silent_lift].
  apply silent_fs_do. exact I.
Qed.

Lemma silent_time_localtime (v : value) : silent (time_localtime v).
Proof.
  intros w. unfold time_localtime.
  destruct v; try reflexivity; cbn [as_number];
    match goal with |- context [localtime_ok w ?n] =>
      destruct (localtime_ok w n); reflexivity end.
Qed.

Lemma silent_try_except {A} (body : M A) (handler : exn -> M A) :
  silent body -> (forall x, silent (handler x)) -> silent (try_except body handler).
Proof.
  intros Hb Hh w. unfold try_except. specialize (Hb w).
  destruct (body w) as [t1 [[a w1]|x|]]; cbn [fst] in *; try exact Hb.
  destruct x; try exact Hb;
    match goal with |- context [handler ?x w] =>
      specialize (Hh x w); destruct (handler x w) as [t2 r]; cbn [fst] in *;
      rewrite requests_app, Hb, Hh; reflexivity end.
Qed.

Lemma copilot_save_tokens_silent (github_token : value) (t : SecondaryToken) :
  silent (GetCopilotToken.save_tokens github_token t).
Proof.
  unfold GetCopilotToken.save_tokens.
  repeat first
    [ apply silent_ret | apply silent_lift | apply silent_raise
    | apply silent_print | apply silent_prints | apply silent_file_write
    | apply silent_json_dump | apply silent_time_localtime
    | apply silent_fs_do; exact I
    | apply silent_try_except; [|intros ?]
    | apply silent_bind; [|intros ?] ].
Qed.

Lemma enterprise_save_tokens_silent (github_token : pystr) (t : SecondaryToken) :
  silent (GetEnterpriseToken.save_tokens github_token t).
Proof.
  unfold GetEnterpriseToken.save_tokens.
  repeat first
    [ apply silent_ret | apply silent_lift | apply silent_raise
    | apply silent_print | apply silent_prints | apply silent_file_write
    | apply silent_json_dump | apply silent_time_localtime
    | apply silent_fs_do; exact I
    | apply silent_try_except; [|intros ?]
    | apply silent_bind; [|intros ?] ].
Qed.

Lemma enterprise_get_copilot_token_sends (github_token : value) (w : world) :
  fst (GetEnterpriseToken.get_copilot_token github_token w) =
    [Send (now w) (exchange_request github_token)]
  \/ (fst (GetEnterpriseToken.get_copilot_token github_token w) = []
      /\ forall v w1,
           snd (GetEnterpriseToken.get_copilot_token github_token w) <>
           Return (v, w1)).
Proof.
  destruct (putheaders (headers (exchange_request github_token)))
    as [[]|x|] eqn:Hput.
  - left. destruct (net w) as [|a rest] eqn:Hnet.
    + unfold GetEnterpriseToken.get_copilot_token, bind, https.
      cbn [headers exchange_request] in *. rewrite Hput, Hnet. reflexivity.
    + rewrite (enterprise_get_copilot_token_run _ _ _ _ Hnet Hput). reflexivity.
  - right. unfold GetEnterpriseToken.get_copilot_token, bind, https.
    cbn [headers exchange_request] in *. rewrite Hput.
    split; [reflexivity | discriminate].
  - right. unfold GetEnterpriseToken.get_copilot_token, bind, https.
    cbn [headers exchange_request] in *. rewrite Hput.
    split; [reflexivity | discriminate].
Qed.

Lemma enterprise_exchange_requests (github_token : pystr) (w : world) :
  requests (fst (GetEnterpriseToken.exchange github_token w)) =
    [exchange_request (VStr github_token)]
  \/ requests (fst (GetEnterpriseToken.exchange github_token w)) = [].
Proof.
  unfold GetEnterpriseToken.exchange. rewrite bind_fst.
  destruct (enterprise_get_copilot_token_sends (VStr github_token) w)
    as [Hsent | [Hnone Hraised]].
  2:{ right. rewrite Hnone.
      destruct (snd _) as [[copilot_data w1]|x|]; try reflexivity.
      destruct (Hraised _ _ eq_refl). }
  left. rewrite Hsent. rewrite requests_app.
  cbn [requests flat_map app].
  destruct (snd _) as [[copilot_data w1]|x|]; try reflexivity.
  f_equal.
  assert (H : silent
            (received <- lift (secondary_token copilot_data) ;;
             match received with
             | Some t =>
                 prints Enterprise [103; 104; 105; 106; 107; 108; 109]%N ;;
                 print (Line Enterprise 110
                          [VStr (firstn 10 github_token);
                           VStr (GetEnterpriseToken.tail_of github_token)]) ;;
                 prints Enterprise [111; 112]%N ;;
                 shown <- lift (slice_to 20 (token t)) ;;
                 print (Line Enterprise 113 [shown]) ;;
                 prints Enterprise [114]%N ;;
                 time_localtime (expiresAt t) ;;
                 print (Line Enterprise 115 [expiresAt t]) ;;
                 prints Enterprise [116]%N ;;
                 GetEnterpriseToken.save_tokens github_token t
             | None =>
                 print (Line Enterprise 136 [copilot_data]) ;;
                 prints Enterprise [137; 138; 139; 140; 141]%N ;;
                 sys_exit 1
             end)).
  { apply silent_bind; [apply silent_lift|]. intros [t|];
      repeat first
        [ apply enterprise_save_tokens_silent
        | apply silent_ret | apply silent_lift | apply silent_raise
        | apply silent_print | apply silent_prints
        | apply silent_time_localtime
        | apply silent_bind; [|intros ?] ]. }
  apply H.
Qed.

(** X21.  [get_enterprise_token.py] sends at most one request, the
    exchange, and never with an empty token. *)
Theorem enterprise_main_requests (w : world) :
  requests (fst (GetEnterpriseToken.main w)) = []
  \/ exists github_token,
       github_token <> []
       /\ requests (fst (GetEnterpriseToken.main w)) =
          [exchange_request (VStr github_token)].
Proof.
  unfold GetEnterpriseToken.main. rewrite bind_fst, requests_app.
  rewrite (silent_prints Enterprise [57; 58; 59; 60]%N w).
  rewrite prints_run. cbn [snd app].
  rewrite bind_fst, requests_app.
  destruct (find_token_outcome w) as [Hsilent Hret]. rewrite Hsilent.
  destruct (snd (GetEnterpriseToken.find_token w)) as [[tok w1]|x|];
    try (left; reflexivity).
  destruct (Hret tok w1 eq_refl) as [Hne _]. cbn [app].
  rewrite bind_fst, requests_app.
  rewrite (silent_prints Enterprise [93; 94]%N w1). rewrite prints_run.
  cbn [snd app].
  destruct (enterprise_exchange_requests tok w1) as [Hone | Hnone].
  - right. exists tok. split; [exact Hne | exact Hone].
  - left. exact Hnone.
Qed.

Lemma paced_requests (device_code : value) (tr : trace) :
  paced device_code tr ->
  exists polls, requests tr = repeat (poll_request device_code) polls.
Proof.
  induction 1 as [|l tr _ [k Hk]|i t tr _ _ [k Hk]].
  - exists 0%nat. reflexivity.
  - exists k. exact Hk.
  - exists (S k). cbn [requests flat_map app repeat]. f_equal. exact Hk.
Qed.

Lemma start_device_flow_requests (w : world) :
  requests (fst (GetCopilotToken.start_device_flow w)) = [device_code_request].
Proof.
  unfold GetCopilotToken.start_device_flow. rewrite bind_prints.
  unfold prefixed. cbn [fst]. rewrite requests_app.
  rewrite bind_fst, requests_app.
  assert (Hsend : fst (GetCopilotToken.make_request (str "github.com")
                         (str "/login/device/code")
                         (Some (VDict [(str "client_id", VStr GetCopilotToken.CLIENT_ID);
                                       (str "scope", VStr GetCopilotToken.SCOPES)]))
                         None (str "POST") w) =
                  [Send (now w) device_code_request]).
  { destruct (net w) as [|a rest] eqn:Hnet.
    - rewrite (make_request_down _ _ _ _ _ _ true)
        by (assumption || reflexivity).
      reflexivity.
    - rewrite (make_request_run _ _ _ _ _ _ a rest true)
        by (assumption || reflexivity).
      reflexivity. }
  rewrite Hsend. cbn [requests flat_map app map].
  destruct (snd _) as [[data w1]|x|]; try reflexivity.
  f_equal.
  assert (H : silent
            (has_error <- lift (py_in (str "error") data) ;;
             if has_error : bool
             then print (Line Copilot 58 [data]) ;; sys_exit 1
             else ret data)).
  { apply silent_bind; [apply silent_lift|]. intros [|].
    - apply silent_bind; [apply silent_print|]. intros _. apply silent_raise.
    - apply silent_ret. }
  apply H.
Qed.

Lemma copilot_get_copilot_token_sends (github_token : value) (w : world) :
  fst (GetCopilotToken.get_copilot_token github_token w) =
    [Send (now w) (exchange_request github_token)]
  \/ (fst (GetCopilotToken.get_copilot_token github_token w) = []
      /\ forall v w1,
           snd (GetCopilotToken.get_copilot_token github_token w) <>
           Return (v, w1)).
Proof.
  destruct (putheaders (headers (exchange_request github_token)))
    as [[]|x|] eqn:Hput.
  - left. destruct (net w) as [|a rest] eqn:Hnet.
    + unfold GetCopilotToken.get_copilot_token.
      rewrite (make_request_down _ _ _ _ _ _ false)
        by (assumption || reflexivity).
      reflexivity.
    + rewrite (copilot_get_copilot_token_run _ _ _ _ Hnet Hput). reflexivity.
  - right. unfold GetCopilotToken.get_copilot_token.
    apply make_request_refused. cbn [headers exchange_request] in Hput.
    rewrite Hput. discriminate.
  - right. unfold GetCopilotToken.get_copilot_token.
    apply make_request_refused. cbn [headers exchange_request] in Hput.
    rewrite Hput. discriminate.
Qed.

Lemma copilot_exchange_requests (github_token : value) (w : world) :
  requests (fst (GetCopilotToken.exchange github_token w)) =
    [exchange_request github_token]
  \/ requests (fst (GetCopilotToken.exchange github_token w)) = [].
Proof.
  unfold GetCopilotToken.exchange. rewrite bind_fst.
  destruct (copilot_get_copilot_token_sends github_token w)
    as [Hsent | [Hnone Hraised]].
  2:{ right. rewrite Hnone.
      destruct (snd _) as [[copilot_data w1]|x|]; try reflexivity.
      destruct (Hraised _ _ eq_refl). }
  left. rewrite Hsent. rewrite requests_app.
  cbn [requests flat_map app].
  destruct (snd _) as [[copilot_data w1]|x|]; try reflexivity.
  f_equal.
  match goal with |- requests (fst (?m w1)) = [] =>
    assert (H : silent m); [|apply H] end.
  apply silent_bind; [apply silent_lift|]. intros [t|];
    repeat first
      [ apply copilot_save_tokens_silent
      | apply silent_ret | apply silent_lift | apply silent_raise
      | apply silent_print | apply silent_prints
      | apply silent_time_localtime
      | apply silent_bind; [|intros ?] ].
Qed.

(** X22.  Whatever the answers, [main] of [get_copilot_token.py] sends the
    device code request first, then polls that all carry one and the same
    device code, and last, at most once, the exchange request. *)
Theorem main_requests (w : world) :
  exists device_code polls last,
    requests (fst (GetCopilotToken.main w)) =
      device_code_request :: repeat (poll_request device_code) polls ++ last
    /\ (last = [] \/ exists github_token, last = [exchange_request github_token]).
Proof.
  unfold GetCopilotToken.main. rewrite bind_prints. unfold prefixed.
  cbn [fst]. rewrite requests_app.
  change (requests (map (fun n => Print (Line Copilot n [])) [95; 96; 97; 98]%N))
    with (@nil request).
  cbn [app]. rewrite bind_fst, requests_app, start_device_flow_requests.
  cbn [app].
  assert (Hstop : exists device_code polls last,
             device_code_request :: [] =
             device_code_request :: repeat (poll_request device_code) polls ++ last
             /\ (last = [] \/ exists github_token,
                    last = [exchange_request github_token])).
  { exists VNone, 0%nat, []. split; [reflexivity | left; reflexivity]. }
  destruct (snd (GetCopilotToken.start_device_flow w)) as [[device_data w1]|x|];
    try exact Hstop.
  repeat (rewrite bind_fst; rewrite requests_app;
          first [ rewrite (silent_lift _ w1) | rewrite (silent_print _ w1)
                | rewrite (silent_prints _ _ w1) ];
          cbn [app];
          match goal with
          | |- context [snd (lift ?r w1)] =>
              destruct r as [?v|?x|]; cbn [lift snd]; try exact Hstop
          | |- context [snd (print ?l w1)] =>
              change (snd (print l w1)) with (@Return (unit * world) (tt, w1));
              cbv iota
          | |- context [snd (prints ?s ?ns w1)] =>
              rewrite (prints_run s ns w1); cbn [snd]
          end).
  rewrite bind_time_time. rewrite bind_fst, requests_app.
  match goal with
  | |- context [GetCopilotToken.poll_until ?dc ?i ?e ?s w1] =>
      unfold GetCopilotToken.poll_until;
      destruct (paced_requests dc _
                  (poll_loop_paced dc i e s (S (List.length (net w1))) w1))
        as [k Hk];
      rewrite Hk;
      destruct (snd (GetCopilotToken.poll_loop (S (List.length (net w1)))
                       dc i e s w1))
        as [[github_token w2]|x|];
      try (exists dc, k, []; split; [reflexivity | left; reflexivity]);
      exists dc, k
  end.
  rewrite bind_fst, requests_app.
  assert (Hreq : silent (GetCopilotToken.require_token github_token)).
  { unfold GetCopilotToken.require_token.
    apply silent_bind; [apply silent_lift|]. intros [|].
    - apply silent_ret.
    - apply silent_bind; [apply silent_prints|]. intros _. apply silent_raise. }
  rewrite Hreq. cbn [app].
  destruct (snd (GetCopilotToken.require_token github_token w2))
    as [[[] w3]|x|]; try (exists []; split; [reflexivity | left; reflexivity]).
  rewrite bind_prints. unfold prefixed. cbn [fst]. rewrite requests_app.
  change (requests (map (fun n => Print (Line Copilot n [])) [139; 142]%N))
    with (@nil request).
  cbn [app].
  destruct (copilot_exchange_requests github_token w3) as [Hone | Hnone].
  - rewrite Hone. exists [exchange_request github_token].
    split; [reflexivity|]. right. exists github_token. reflexivity.
  - rewrite Hnone. exists []. split; [reflexivity | left; reflexivity].
Qed.

(** ** Sample runs *)

Lemma find_token_env_first_witness :
  GetEnterpriseToken.find_token
    (at_terminal (Some (str " gho_sample_token"))
       (GhExits 0 (str "gho_from_gh")) (Some (str "gho_typed")) []) =
  ([Print (Line Enterprise 74 [VStr (str " gho_sampl")])],
   Return (str " gho_sample_token",
           at_terminal (Some (str " gho_sample_token"))
             (GhExits 0 (str "gho_from_gh")) (Some (str "gho_typed")) [])).
Proof.
  refine (find_token_env_first _ (str " gho_sample_token") _ _).
  - reflexivity.
  - discriminate.
Defined.

Lemma find_token_gh_witness :
  GetEnterpriseToken.find_token
    (at_terminal None (GhExits 0 ([] ++ str "gho_sample_token" ++ [10%N])) None []) =
  ([Print (Line Enterprise 70 []); RunGh;
    Print (Line Enterprise 74 [VStr (str "gho_sample")])],
   Return (str "gho_sample_token",
           at_terminal None (GhExits 0 ([] ++ str "gho_sample_token" ++ [10%N]))
             None [])).
Proof.
  refine (find_token_gh _ [] (str "gho_sample_token") [10%N] _ _ _ _ _);
    reflexivity.
Defined.

Lemma find_token_asked_witness :
  GetEnterpriseToken.find_token
    (at_terminal (Some []) (GhExits 1 (str "gho_stale")) (Some (str "  ")) []) =
  (Print (Line Enterprise 70 []) :: RunGh :: asks_for_token ++
     [Print (Line Enterprise 90 [])],
   Raise (SystemExit 1)).
Proof.
  refine (find_token_asked
            (at_terminal (Some []) (GhExits 1 (str "gho_stale"))
               (Some (str "  ")) []) _ _).
  - reflexivity.
  - left. discriminate.
Defined.


Lemma save_tokens_no_rollback_witness :
  GetCopilotToken.save_tokens (VStr (str "gho_sample_token")) sample_secondary
    (token_file_locked []) =
    ([Makedirs; Open GithubTokenFile;
      Write GithubTokenFile (str "gho_sample_token");
      Print (ErrLine Copilot 196 OSError)],
     Return (tt, token_file_locked []))
  /\ GetEnterpriseToken.save_tokens (str "gho_sample_token") sample_secondary
       (token_file_locked []) =
    ([Makedirs; Open GithubTokenFile;
      Write GithubTokenFile (str "gho_sample_token");
      Print (ErrLine Enterprise 133 OSError)],
     Return (tt, token_file_locked [])).
Proof.
  refine (save_tokens_no_rollback (str "gho_sample_token") sample_secondary
            (token_file_locked []) _ _ _ _ _); reflexivity.
Defined.

Lemma secondary_token_from_object_witness :
  exists d,
    VDict [(str "token", VStr (str "abc"))] = VDict d
    /\ lookup (str "token") d = Some (VStr (str "abc"))
    /\ VInt 0 = match lookup (str "expires_at") d with
                | Some expires_at => expires_at
                | None => VInt 0
                end.
Proof.
  refine (secondary_token_from_object (VDict [(str "token", VStr (str "abc"))])
            {| token := VStr (str "abc"); expiresAt := VInt 0 |} _).
  reflexivity.
Defined.

Lemma copilot_exchange_success_witness :
  GetCopilotToken.exchange (VStr (str "gho_sample_token")) (quiet [says_copilot]) =
  prefixed (Send 0 (exchange_request (VStr (str "gho_sample_token"))) ::
            copilot_shows_tokens (str "gho_sample_token") sample_secondary ++
            copilot_shows_usage (str "gho_sample_token") sample_secondary)
    (GetCopilotToken.save_tokens (VStr (str "gho_sample_token"))
       sample_secondary (quiet [])).
Proof.
  refine (copilot_exchange_success (str "gho_sample_token")
            (quiet [says_copilot]) says_copilot []
            [(str "token", VStr (str "tid=abc;exp=1700000000"));
             (str "expires_at", VInt 1700000000)]
            (VStr (str "tid=abc;exp=1700000000")) _ _ _ _ _).
  - reflexivity.
  - reflexivity.
  - vm_compute. reflexivity.
  - reflexivity.
  - right. exists 1700000000. split; reflexivity.
Defined.


Lemma exchange_bad_expiry_witness :
  let w := quiet [says_text "{'token':'abc','expires_at':'tomorrow'}"] in
  let t := {| token := VStr (str "abc"); expiresAt := VStr (str "tomorrow") |} in
  GetCopilotToken.exchange (VStr (str "gho_sample_token")) w =
    (Send 0 (exchange_request (VStr (str "gho_sample_token"))) ::
     copilot_shows_tokens (str "gho_sample_token") t,
     Raise TypeError)
  /\ GetEnterpriseToken.exchange (str "gho_sample_token") w =
    (Send 0 (exchange_request (VStr (str "gho_sample_token"))) ::
     enterprise_shows_github (str "gho_sample_token") ++
     enterprise_shows_copilot (str "abc"),
     Raise TypeError).
Proof.
  refine (exchange_bad_expiry (str "gho_sample_token")
            (quiet [says_text "{'token':'abc','expires_at':'tomorrow'}"])
            (says_text "{'token':'abc','expires_at':'tomorrow'}") []
            [(str "token", VStr (str "abc"));
             (str "expires_at", VStr (str "tomorrow"))]
            (str "abc") _ _ _ _ _).
  - reflexivity.
  - reflexivity.
  - vm_compute. reflexivity.
  - reflexivity.
  - split; [discriminate | reflexivity].
Defined.

Lemma enterprise_exchange_unsliceable_witness :
  GetEnterpriseToken.exchange (str "gho_sample_token")
    (quiet [says_text "{'token':null}"]) =
  (Send 0 (exchange_request (VStr (str "gho_sample_token"))) ::
   enterprise_shows_github (str "gho_sample_token"),
   Raise TypeError).
Proof.
  refine (enterprise_exchange_unsliceable (str "gho_sample_token")
            (quiet [says_text "{'token':null}"])
            (says_text "{'token':null}") []
            [(str "token", VNone)] VNone _ _ _ _ _).
  - reflexivity.
  - reflexivity.
  - vm_compute. reflexivity.
  - reflexivity.
  - exact I.
Defined.

Lemma poll_expired_at_once_witness :
  (received <- GetCopilotToken.poll_until sample_code (VInt 5) (VInt 0) 0 ;;
   GetCopilotToken.require_token received) (quiet [says_token]) =
  (timeout_exit, Raise (SystemExit 1)).
Proof.
  refine (poll_expired_at_once sample_code (VInt 5) (VInt 0) 0 0
            (quiet [says_token]) _ _).
  - reflexivity.
  - cbn. lia.
Defined.

Lemma poll_bad_expiry_witness :
  GetCopilotToken.poll_until sample_code (VInt 5) (VStr (str "900")) 0
    (quiet [says_token]) =
  ([], Raise TypeError).
Proof.
  refine (poll_bad_expiry sample_code (VInt 5) (VStr (str "900")) 0
            (quiet [says_token]) _).
  reflexivity.
Defined.

Lemma poll_bad_interval_witness :
  GetCopilotToken.poll_until sample_code (VInt (-1)) (VInt 900) 0
    (quiet [says_token]) =
  ([], Raise ValueError).
Proof.
  refine (poll_bad_interval sample_code (VInt (-1)) (VInt 900) 0 900 ValueError
            (quiet [says_token]) _ _ _).
  - reflexivity.
  - cbn. lia.
  - left. exists (-1). split; [reflexivity|]. right.
    split; [unfold max_sleep; lia | reflexivity].
Defined.


Lemma main_after_device_witness :
  GetCopilotToken.main (quiet [says_text "{'verification_uri':'u','user_code':'c','device_code':'d'}"]) =
  prefixed (device_flow_opening (quiet []) (VStr (str "u")) (VStr (str "c"))
              (VInt 900))
    ((github_token <-
        GetCopilotToken.poll_until (VStr (str "d")) (VInt 5) (VInt 900) 0 ;;
      GetCopilotToken.require_token github_token ;;
      prints Copilot [139; 142]%N ;;
      GetCopilotToken.exchange github_token) (quiet [])).
Proof.
  refine (main_after_device
            (quiet [says_text "{'verification_uri':'u','user_code':'c','device_code':'d'}"])
            (says_text "{'verification_uri':'u','user_code':'c','device_code':'d'}")
            []
            [(str "verification_uri", VStr (str "u"));
             (str "user_code", VStr (str "c"));
             (str "device_code", VStr (str "d"))]
            (VStr (str "u")) (VStr (str "c")) (VStr (str "d")) _ _ _ _ _ _).
  - reflexivity.
  - vm_compute. reflexivity.
  - reflexivity.
  - reflexivity.
  - reflexivity.
  - reflexivity.
Defined.

Lemma main_missing_key_witness :
  GetCopilotToken.main
    (quiet [says_text "{'verification_uri':'u','device_code':'d'}"; says_token]) =
  (lines Copilot [95; 96; 97; 98; 48; 49]%N ++
   [Send 0 device_code_request; Print (Line Copilot 103 [VStr (str "u")])],
   Raise (KeyError (str "user_code"))).
Proof.
  refine (main_missing_key
            (quiet [says_text "{'verification_uri':'u','device_code':'d'}";
                    says_token])
            (says_text "{'verification_uri':'u','device_code':'d'}")
            [says_token]
            [(str "verification_uri", VStr (str "u"));
             (str "device_code", VStr (str "d"))] _ _ _).
  - reflexivity.
  - vm_compute. reflexivity.
  - reflexivity.
Defined.


Lemma poll_body_reads_back_witness :
  exists data,
    body (poll_request (VStr [34; 125; 10]%N)) = Some data
    /\ Json.loads (Json.dumps data) =
       Json.Loaded
         (VDict [(str "client_id", VStr (str "Iv1.b507a08c87ecfe98"));
                 (str "device_code", VStr [34; 125; 10]%N);
                 (str "grant_type",
                  VStr (str "urn:ietf:params:oauth:grant-type:device_code"))]).
Proof.
  refine (poll_body_reads_back
            (Json.dumps (VDict [(str "device_code", VStr [34; 125; 10]%N)]))
            [(str "device_code", VStr [34; 125; 10]%N)]
            (VStr [34; 125; 10]%N) _ _ _ _).
  - vm_compute. reflexivity.
  - vm_compute. reflexivity.
  - reflexivity.
  - reflexivity.
Defined.
